(** * SatelliteVision: the AOI drawing controller and the analysis orchestrator

    A shallow embedding of [src/components/MapAOISelector.tsx] (the
    pointer-driven rectangle drawing and its area computation) and of
    [src/components/VisualizationSection.tsx] (the handler that turns an
    AOI selection into an analysis request, and the view selection).

    JavaScript numbers are IEEE 754 doubles.  A finite double is a real
    number, so numbers are modelled by the reals they denote: comparison,
    minimum, maximum and absolute value are exact, and every arithmetic
    operation rounds its exact result to the nearest double. *)

From Stdlib Require Import Reals Lra Lia ZArith Bool List String Ascii.
From Stdlib Require Import R_Ifp Machin DecimalString ClassicalEpsilon.
Import ListNotations.

Set Warnings "-register-all".

Local Open Scope string_scope.

(** ** The fragment of the JavaScript runtime the components rely on *)

Module JS.

Definition number := R.

(** [x === y] on numbers. *)
Definition strict_eq (x y : number) : bool :=
  if Req_dec_T x y then true else false.

(** *** Double-precision arithmetic

    [double x] is the double nearest to the real [x], the one with the
    even significand on a tie: 53 significant bits, and no bit below
    [2^-1074].  (A magnitude of [2^1024] or more, which rounds to an
    infinity, has no value here; the coordinates are degrees.) *)

Definition bpow (e : Z) : R := powerRZ 2 e.

(** The binary order of magnitude of [x]:
    [2^(mag x - 1) <= |x| < 2^(mag x)] for [x <> 0]. *)
Definition mag (x : R) : Z := (Int_part (ln (Rabs x) / ln 2) + 1)%Z.

(** The integer nearest to [y], the even one on a tie. *)
Definition nearest_even (y : R) : Z :=
  let f := Int_part y in
  if Rlt_dec (y - IZR f) (/ 2) then f
  else if Rlt_dec (/ 2) (y - IZR f) then (f + 1)%Z
  else if Z.even f then f else (f + 1)%Z.

(** The exponent of the last bit of the doubles of the magnitude of [x]. *)
Definition quantum (x : R) : Z := Z.max (mag x - 53) (-1074).

Definition double (x : R) : number :=
  (IZR (nearest_even (x / bpow (quantum x))) * bpow (quantum x))%R.

(** [x + y], [x - y], [x * y], [x / y]. *)
Definition fadd (x y : number) : number := double (x + y).
Definition fsub (x y : number) : number := double (x - y).
Definition fmul (x y : number) : number := double (x * y).
Definition fdiv (x y : number) : number := double (x / y).

(** [Math.abs], [Math.min], [Math.max]. *)
Definition Math_abs : number -> number := Rabs.
Definition Math_min : number -> number -> number := Rmin.
Definition Math_max : number -> number -> number := Rmax.

(** [Math.PI], the double 3.141592653589793. *)
Definition Math_PI : number := (884279719003555 / 281474976710656)%R.

(** [Math.cos] is an approximation of the cosine that the language leaves
    to the engine.  It is taken to be some function that, on arguments of
    magnitude at most 4, is within [2^-52] of the cosine (engines are
    within one unit in the last place); nothing else is known of it. *)
Definition cos_accurate (f : number -> number) : Prop :=
  forall x : number, (Rabs x <= 4 -> Rabs (f x - cos x) <= bpow (-52))%R.

Definition Math_cos : number -> number :=
  epsilon (inhabits cos) cos_accurate.

(** *** [toFixed] and [toString] *)

(** The integer [n] for which [n / 100 - x] is closest to zero, the larger
    one on a tie (step 10.a of Number.prototype.toFixed), for [0 <= x]. *)
Definition nearest_hundredth (x : number) : Z :=
  Int_part (x * 100 + / 2).

(** The number that [x.toFixed(2)] prints, in hundredths: [toFixed]
    formats the magnitude and puts the sign in front. *)
Definition hundredths (x : number) : Z :=
  if Rlt_dec x 0 then Z.opp (nearest_hundredth (- x)%R)
  else nearest_hundredth x.

(** [Number(x.toFixed(2))]: [Number] reads the decimal back, as the double
    nearest to it.  (For a double of magnitude 1e21 or more [toFixed]
    prints the number itself, which is then an integer and so again the
    double nearest to its hundredths.) *)
Definition Number_toFixed2 (x : number) : number :=
  double (IZR (hundredths x) / 100).

(** The decimal digits of an integer. *)
Definition digits (n : Z) : string := NilZero.string_of_int (Z.to_int n).

(** Number::toString on a number that is not an integer below 1e21: the
    shortest decimal that reads back as the number, in exponent notation
    when it is large or small.  Its digits are not modelled: it is some
    function from numbers to strings. *)
Definition Number_shortest : number -> string :=
  epsilon (inhabits (fun _ : number => EmptyString)) (fun _ => True).

Definition isInteger (x : number) : bool :=
  if Req_dec_T (IZR (Int_part x)) x then true else false.

Definition below_1e21 (x : number) : bool :=
  if Rlt_dec (Rabs x) 1000000000000000000000 then true else false.

(** Number::toString. *)
Definition Number_toString (x : number) : string :=
  if isInteger x && below_1e21 x then digits (Int_part x)
  else Number_shortest x.

(** [x.toFixed(2)]: the sign, the integer part of the magnitude rounded
    to hundredths, a point and two digits; from 1e21 on, the text of the
    number itself. *)
Definition toFixed2 (x : number) : string :=
  if below_1e21 x
  then
    let n := nearest_hundredth (Rabs x) in
    (if Rlt_dec x 0 then "-" else EmptyString)
      ++ digits (n / 100) ++ "."
      ++ (if (n mod 100 <? 10)%Z then "0" else EmptyString)
      ++ digits (n mod 100)
  else Number_toString x.

(** Values read from a JSON body.  Objects keep their members, each key
    once, in an association list; a number is the double it was read as. *)
Inductive json : Type :=
| JNull
| JBool (b : bool)
| JNum (x : number)
| JStr (s : string)
| JArr (items : list json)
| JObj (members : list (string * json)).

(** ToBoolean. *)
Definition truthy_string (s : string) : bool :=
  match s with EmptyString => false | _ => true end.

Definition truthy (v : json) : bool :=
  match v with
  | JNull => false
  | JBool b => b
  | JNum x => negb (strict_eq x 0%R)
  | JStr s => truthy_string s
  | JArr _ => true
  | JObj _ => true
  end.

(** ToString, as applied by [new Error(v)] to its argument.  Array
    elements are joined with commas, [null] elements printing as the
    empty string. *)
Fixpoint ToString (v : json) : string :=
  match v with
  | JNull => "null"
  | JBool true => "true"
  | JBool false => "false"
  | JNum x => Number_toString x
  | JStr s => s
  | JArr items =>
      (fix join (l : list json) : string :=
         match l with
         | [] => EmptyString
         | [x] => match x with JNull => EmptyString | _ => ToString x end
         | x :: rest =>
             (match x with JNull => EmptyString | _ => ToString x end)
               ++ "," ++ join rest
         end) items
  | JObj _ => "[object Object]"
  end.

(** Error objects; only [message] is ever read. *)
Record Thrown : Type := mkThrown { name : string; message : string }.

Definition new_Error (v : json) : Thrown :=
  {| name := "Error"; message := ToString v |}.

(** Property read [v.key].  [None] is [undefined]; reading a property of
    [null] throws a TypeError (its text is the engine's). *)
Fixpoint assoc (key : string) (l : list (string * json)) : option json :=
  match l with
  | [] => None
  | (k, v) :: rest => if String.eqb k key then Some v else assoc key rest
  end.

Definition get_property (v : json) (key : string) : Thrown + option json :=
  match v with
  | JNull =>
      inl {| name := "TypeError";
             message := "Cannot read properties of null (reading '"
                          ++ key ++ "')" |}
  | JObj members => inr (assoc key members)
  | _ => inr None
  end.

(** [a || b] where [a] may be [undefined]. *)
Definition or_else (a : option json) (b : json) : json :=
  match a with
  | Some v => if truthy v then v else b
  | None => b
  end.

End JS.

(** ** The fragment of Leaflet the drawing controller relies on

    Leaflet is a dependency of the repository; the definitions below follow
    the behaviour of its [LatLng], [LatLngBounds] and [Map] classes. *)

Module L.

Import JS.
Local Open Scope R_scope.

Record LatLng : Type := latLng { lat : number; lng : number }.

(** A [LatLngBounds] holds its south-west and north-east corners. *)
Record LatLngBounds : Type :=
  mkBounds { _southWest : LatLng; _northEast : LatLng }.

(** [bounds.extend(p)] for bounds that already have corners. *)
Definition extend (b : LatLngBounds) (p : LatLng) : LatLngBounds :=
  {| _southWest := {| lat := Math_min (lat p) (lat (_southWest b));
                      lng := Math_min (lng p) (lng (_southWest b)) |};
     _northEast := {| lat := Math_max (lat p) (lat (_northEast b));
                      lng := Math_max (lng p) (lng (_northEast b)) |} |}.

(** [L.latLngBounds(corner1, corner2)]: the first corner initialises both
    corners of the bounds, the second one extends them. *)
Definition latLngBounds (corner1 corner2 : LatLng) : LatLngBounds :=
  extend {| _southWest := corner1; _northEast := corner1 |} corner2.

Definition getWest (b : LatLngBounds) : number := lng (_southWest b).
Definition getSouth (b : LatLngBounds) : number := lat (_southWest b).
Definition getEast (b : LatLngBounds) : number := lng (_northEast b).
Definition getNorth (b : LatLngBounds) : number := lat (_northEast b).

Definition getCenter (b : LatLngBounds) : LatLng :=
  {| lat := fdiv (fadd (lat (_southWest b)) (lat (_northEast b))) 2;
     lng := fdiv (fadd (lng (_southWest b)) (lng (_northEast b))) 2 |}.

(** Layers of a map.  A rectangle keeps its bounds and its stroke colour. *)
Inductive Layer : Type :=
| TileLayer (urlTemplate : string)
| Rectangle (bounds : LatLngBounds) (color : string).

(** A map: whether dragging (panning) is enabled, the cursor of its
    container, and its layers, each under the stamp Leaflet gave it. *)
Record Map : Type :=
  mkMap { dragging : bool;
          cursor : string;
          layers : list (nat * Layer);
          lastId : nat }.

(** [layer.addTo(map)] for a new layer: returns the layer's stamp. *)
Definition addLayer (l : Layer) (m : Map) : nat * Map :=
  let id := S (lastId m) in
  (id, {| dragging := dragging m; cursor := cursor m;
          layers := layers m ++ [(id, l)]; lastId := id |}).

Definition removeLayer (id : nat) (m : Map) : Map :=
  {| dragging := dragging m; cursor := cursor m;
     layers := filter (fun e => negb (Nat.eqb (fst e) id)) (layers m);
     lastId := lastId m |}.

(** [rect.setBounds(b)] on the rectangle with stamp [id]. *)
Definition setBounds (id : nat) (b : LatLngBounds) (m : Map) : Map :=
  {| dragging := dragging m; cursor := cursor m;
     layers := List.map
                 (fun e => if Nat.eqb (fst e) id
                           then match snd e with
                                | Rectangle _ c => (fst e, Rectangle b c)
                                | other => (fst e, other)
                                end
                           else e) (layers m);
     lastId := lastId m |}.

Definition dragging_enable (m : Map) : Map :=
  {| dragging := true; cursor := cursor m;
     layers := layers m; lastId := lastId m |}.

Definition dragging_disable (m : Map) : Map :=
  {| dragging := false; cursor := cursor m;
     layers := layers m; lastId := lastId m |}.

Definition set_cursor (c : string) (m : Map) : Map :=
  {| dragging := dragging m; cursor := c;
     layers := layers m; lastId := lastId m |}.

End L.

(** The payload of [onAOISelected]: the object literal built in
    [finishDrawing], received as [AOIBounds] by the parent component. *)
Record AOIBounds : Type :=
  mkAOI { west : JS.number; south : JS.number;
          east : JS.number; north : JS.number }.

(** ** [MapAOISelector]: the drawing controller *)

Module MapAOISelector.

Import JS L.
Local Open Scope R_scope.

Definition DATA_BOUNDS : LatLngBounds :=
  latLngBounds (latLng 18.4 73.7) (latLng 18.65 74.0).
Definition DATA_CENTER : LatLng := latLng 18.525 73.85.
Definition DEFAULT_ZOOM : Z := 11.

Definition guideColor : string := "#ff7800".
Definition drawColor : string := "#3b82f6".

(** The component's state: the [areaKm2] state variable, the map held by
    [mapRef] and the three other refs. *)
Record Store : Type :=
  mkStore { areaKm2 : option number;
            mapRef : Map;
            rectLayerRef : option nat;
            startPointRef : option LatLng;
            isDrawingRef : bool }.

(** The map as the mount effect builds it: the tile layer and the dashed
    rectangle that marks the available data.  Stamps are drawn from a
    counter shared by all maps, [stamp] being the last one given out. *)
Definition mountMap (stamp : nat) : Map :=
  let m0 := {| dragging := true; cursor := EmptyString;
               layers := []; lastId := stamp |} in
  let m1 := snd (addLayer
                   (TileLayer "https://{s}.tile.openstreetmap.org/{z}/{x}/{y}.png")
                   m0) in
  snd (addLayer (Rectangle DATA_BOUNDS guideColor) m1).

Definition initialMap : Map := mountMap 0.

Definition initialStore : Store :=
  {| areaKm2 := None; mapRef := initialMap; rectLayerRef := None;
     startPointRef := None; isDrawingRef := false |}.

Definition setAreaKm2 (a : option number) (s : Store) : Store :=
  {| areaKm2 := a; mapRef := mapRef s; rectLayerRef := rectLayerRef s;
     startPointRef := startPointRef s; isDrawingRef := isDrawingRef s |}.

Definition set_map (m : Map) (s : Store) : Store :=
  {| areaKm2 := areaKm2 s; mapRef := m; rectLayerRef := rectLayerRef s;
     startPointRef := startPointRef s; isDrawingRef := isDrawingRef s |}.

Definition set_rectLayerRef (r : option nat) (s : Store) : Store :=
  {| areaKm2 := areaKm2 s; mapRef := mapRef s; rectLayerRef := r;
     startPointRef := startPointRef s; isDrawingRef := isDrawingRef s |}.

Definition set_startPointRef (p : option LatLng) (s : Store) : Store :=
  {| areaKm2 := areaKm2 s; mapRef := mapRef s; rectLayerRef := rectLayerRef s;
     startPointRef := p; isDrawingRef := isDrawingRef s |}.

Definition set_isDrawingRef (b : bool) (s : Store) : Store :=
  {| areaKm2 := areaKm2 s; mapRef := mapRef s; rectLayerRef := rectLayerRef s;
     startPointRef := startPointRef s; isDrawingRef := b |}.

(** A handler returns the new state and the calls it made to
    [onAOISelected], in order. *)
Definition Emitted : Type := list (option AOIBounds).

(** [if (rectLayerRef.current) map.removeLayer(rectLayerRef.current)]. *)
Definition removeRectLayer (s : Store) : Store :=
  match rectLayerRef s with
  | Some id => set_map (removeLayer id (mapRef s)) s
  | None => s
  end.

Definition startDrawing (latlng : LatLng) (s : Store) : Store * Emitted :=
  let s := set_isDrawingRef true s in
  let s := set_startPointRef (Some latlng) s in
  let s := set_map (dragging_disable (mapRef s)) s in
  let s := set_map (set_cursor "crosshair" (mapRef s)) s in
  let s := match rectLayerRef s with
           | Some id =>
               set_rectLayerRef None (set_map (removeLayer id (mapRef s)) s)
           | None => s
           end in
  let s := setAreaKm2 None s in
  (s, [None]).

Definition updateDrawing (latlng : LatLng) (s : Store) : Store * Emitted :=
  match isDrawingRef s, startPointRef s with
  | true, Some start =>
      let bounds := latLngBounds start latlng in
      match rectLayerRef s with
      | Some id => (set_map (setBounds id bounds (mapRef s)) s, [])
      | None =>
          let (id, m) := addLayer (Rectangle bounds drawColor) (mapRef s) in
          (set_rectLayerRef (Some id) (set_map m s), [])
      end
  | _, _ => (s, [])
  end.

Definition dLatKm (bounds : LatLngBounds) : number :=
  fmul (Math_abs (fsub (getNorth bounds) (getSouth bounds))) 111.

Definition dLngKm (bounds : LatLngBounds) : number :=
  fmul (fmul (Math_abs (fsub (getEast bounds) (getWest bounds))) 111)
    (Math_cos (fdiv (fmul (lat (getCenter bounds)) Math_PI) 180)).

Definition finishDrawing (latlng : LatLng) (s : Store) : Store * Emitted :=
  match isDrawingRef s, startPointRef s with
  | true, Some start =>
      let s := set_isDrawingRef false s in
      let s := set_map (dragging_enable (mapRef s)) s in
      let s := set_map (set_cursor EmptyString (mapRef s)) s in
      let bounds := latLngBounds start latlng in
      if strict_eq (getWest bounds) (getEast bounds)
         || strict_eq (getSouth bounds) (getNorth bounds)
      then (set_rectLayerRef None (removeRectLayer s), [])
      else
        let s := setAreaKm2
                   (Some (Number_toFixed2
                            (fmul (dLatKm bounds) (dLngKm bounds)))) s in
        (s, [Some {| west := getWest bounds; south := getSouth bounds;
                     east := getEast bounds; north := getNorth bounds |}])
  | _, _ => (s, [])
  end.

Definition handleClearAOI (s : Store) : Store * Emitted :=
  let s := match rectLayerRef s with
           | Some id =>
               set_rectLayerRef None (set_map (removeLayer id (mapRef s)) s)
           | None => s
           end in
  let s := setAreaKm2 None s in
  (s, [None]).

(** The mount effect depends on [onAOISelected]: when the parent renders
    again with a new callback, the cleanup removes the map and the effect
    builds a new one in the same container, whose cursor style stays as
    it is.  The refs and [areaKm2] are kept. *)
Definition remount (s : Store) : Store * Emitted :=
  (set_map (set_cursor (cursor (mapRef s)) (mountMap (lastId (mapRef s)))) s,
   []).

(** What can happen to the component.  The "Clear AOI" button is rendered
    only while [areaKm2 !== null]. *)
Inductive Event : Type :=
| mousedown (latlng : LatLng)
| mousemove (latlng : LatLng)
| mouseup (latlng : LatLng)
| clickClearAOI
| callbackChanged.

Definition step (s : Store) (e : Event) : Store * Emitted :=
  match e with
  | mousedown p => startDrawing p s
  | mousemove p => updateDrawing p s
  | mouseup p => finishDrawing p s
  | clickClearAOI =>
      match areaKm2 s with
      | Some _ => handleClearAOI s
      | None => (s, [])
      end
  | callbackChanged => remount s
  end.

(** Running a sequence of events from a state, collecting the emissions. *)
Fixpoint run (s : Store) (es : list Event) : Store * Emitted :=
  match es with
  | [] => (s, [])
  | e :: rest =>
      let (s1, out1) := step s e in
      let (s2, out2) := run s1 rest in
      (s2, (out1 ++ out2)%list)
  end.

Inductive reachable : Store -> Prop :=
| reachable_init : reachable initialStore
| reachable_step s e : reachable s -> reachable (fst (step s e)).

(** The stamps of the rectangles drawn by the user that are on the map. *)
Definition overlays (m : Map) : list nat :=
  List.map fst
    (filter (fun e => match snd e with
                      | Rectangle _ c => String.eqb c drawColor
                      | TileLayer _ => false
                      end) (layers m)).

(** The controller's state as the specification names it. *)
Inductive DrawState : Type :=
| Idle
| Drawing (start : LatLng)
| Drawn (area : number).

Definition drawState (s : Store) : DrawState :=
  match isDrawingRef s, startPointRef s with
  | true, Some start => Drawing start
  | _, _ =>
      match areaKm2 s with
      | Some a => Drawn a
      | None => Idle
      end
  end.

(** What holds of the controller between two events: the rectangles drawn
    by the user that are on the map are at most the one [rectLayerRef]
    holds (none when the map was built anew since); while a draw is in
    progress there is a start point and no area is displayed; while none
    is, the map can be dragged. *)
Definition invariant (s : Store) : Prop :=
  (overlays (mapRef s) = []
   \/ exists id, rectLayerRef s = Some id /\ overlays (mapRef s) = [id])
  /\ (isDrawingRef s = true ->
      startPointRef s <> None /\ areaKm2 s = None)
  /\ (isDrawingRef s = false -> dragging (mapRef s) = true).

(** A rectangle of zero width or zero height. *)
Definition degenerate (bounds : LatLngBounds) : bool :=
  strict_eq (getWest bounds) (getEast bounds)
  || strict_eq (getSouth bounds) (getNorth bounds).

(** The area formula in the specification's words, before rounding: the
    exact product, with the exact cosine and the exact pi. *)
Definition area_spec (w s e n : number) : number :=
  Rabs (n - s) * 111 * Rabs (e - w) * 111 * cos (((n + s) / 2) * PI / 180).

(** The object handed to [onAOISelected] and the area displayed for
    committed bounds, as [finishDrawing] computes them. *)
Definition selection (bounds : LatLngBounds) : AOIBounds :=
  {| west := getWest bounds; south := getSouth bounds;
     east := getEast bounds; north := getNorth bounds |}.

Definition areaOf (bounds : LatLngBounds) : number :=
  Number_toFixed2 (fmul (dLatKm bounds) (dLngKm bounds)).

(** A complete draw: the pointer goes down at [p], moves over [moves] and
    goes up at [q]. *)
Definition draw (p : LatLng) (moves : list LatLng) (q : LatLng) : list Event :=
  (mousedown p :: List.map mousemove moves ++ [mouseup q])%list.

End MapAOISelector.

(** ** [VisualizationSection]: the analysis orchestrator and the view selection *)

Module VisualizationSection.

Import JS.

(** The four state variables of the component. *)
Record Store : Type :=
  mkStore { activeTab : string;
            isLoading : bool;
            analysisResult : json;          (* [JNull] is [null] *)
            error : option string }.        (* [None] is [null] *)

Definition initialStore : Store :=
  {| activeTab := "aoi"; isLoading := false;
     analysisResult := JNull; error := None |}.

(** The request handed to [fetch]. *)
Inductive RequestBody : Type :=
| JSON_stringify (bounds : AOIBounds).

Record Request : Type :=
  mkRequest { url : string;
              method : string;
              headers : list (string * string);
              body : RequestBody }.

(** A response: its status and what [response.json()] settles to, a
    rejection when the body is not JSON. *)
Record Response : Type :=
  mkResponse { status : Z; json_body : Thrown + json }.

Definition ok (r : Response) : bool :=
  ((200 <=? status r) && (status r <=? 299))%Z.

(** How a [fetch] settles: rejected (transport failure) or resolved. *)
Definition Outcome : Type := (Thrown + Response)%type.

(** State updates and console output. *)
Inductive Action : Type :=
| SetActiveTab (tab : string)
| SetIsLoading (b : bool)
| SetAnalysisResult (r : json)
| SetError (e : option string)
| ConsoleError (label : string) (err : Thrown).

(** Handler code: it returns, throws, performs an action, or suspends on a
    [fetch] until the request settles. *)
Inductive Prog (A : Type) : Type :=
| Ret (a : A)
| Throw (e : Thrown)
| Do (act : Action) (k : Prog A)
| AwaitFetch (req : Request) (k : Outcome -> Prog A).

Arguments Ret {A} a.
Arguments Throw {A} e.
Arguments Do {A} act k.
Arguments AwaitFetch {A} req k.

Fixpoint bind {A B : Type} (p : Prog A) (f : A -> Prog B) : Prog B :=
  match p with
  | Ret a => f a
  | Throw e => Throw e
  | Do act k => Do act (bind k f)
  | AwaitFetch req k => AwaitFetch req (fun o => bind (k o) f)
  end.

Notation "x <- p ;; q" := (bind p (fun x => q))
  (at level 61, p at next level, right associativity).
Notation "p ;; q" := (bind p (fun _ => q))
  (at level 61, right associativity).

(** [try { p } catch (err) { h err }]. *)
Fixpoint try_catch {A : Type} (p : Prog A) (h : Thrown -> Prog A) : Prog A :=
  match p with
  | Ret a => Ret a
  | Throw e => h e
  | Do act k => Do act (try_catch k h)
  | AwaitFetch req k => AwaitFetch req (fun o => try_catch (k o) h)
  end.

(** [try { p } finally { f }]: [f] runs on both exits of [p]. *)
Fixpoint finally {A : Type} (p : Prog A) (f : Prog unit) : Prog A :=
  match p with
  | Ret a => f ;; Ret a
  | Throw e => f ;; Throw e
  | Do act k => Do act (finally k f)
  | AwaitFetch req k => AwaitFetch req (fun o => finally (k o) f)
  end.

Definition try_catch_finally {A : Type}
  (p : Prog A) (h : Thrown -> Prog A) (f : Prog unit) : Prog A :=
  finally (try_catch p h) f.

Definition perform (act : Action) : Prog unit := Do act (Ret tt).

Definition setActiveTab (tab : string) := perform (SetActiveTab tab).
Definition setIsLoading (b : bool) := perform (SetIsLoading b).
Definition setAnalysisResult (r : json) := perform (SetAnalysisResult r).
Definition setError (e : option string) := perform (SetError e).
Definition console_error (label : string) (err : Thrown) :=
  perform (ConsoleError label err).

(** [await p] for a settled promise: a rejection is thrown. *)
Definition await {A : Type} (settled : Thrown + A) : Prog A :=
  match settled with
  | inl e => Throw e
  | inr a => Ret a
  end.

(** [await fetch(url, init)]. *)
Definition fetch (req : Request) : Prog Response :=
  AwaitFetch req await.

(** [await response.json()].  The handler changes no state between the
    settling of the request and that of the body, so the two suspensions
    are taken together. *)
Definition Response_json (r : Response) : Prog json :=
  await (json_body r).

Definition endpoint : string := "http://localhost:8000/api/analyze-aoi".
Definition fallbackMessage : string := "An unknown API error occurred.".

Definition handleAOISelected (bounds : option AOIBounds) : Prog unit :=
  match bounds with
  | Some bounds =>
      setIsLoading true ;;
      setAnalysisResult JNull ;;
      setError None ;;
      try_catch_finally
        (setActiveTab "imagery" ;;
         response <- fetch {| url := endpoint;
                              method := "POST";
                              headers := [("Content-Type", "application/json")];
                              body := JSON_stringify bounds |} ;;
         (if negb (ok response)
          then
            err <- Response_json response ;;
            detail <- await (get_property err "detail") ;;
            Throw (new_Error (or_else detail (JStr fallbackMessage)))
          else Ret tt) ;;
         data <- Response_json response ;;
         setAnalysisResult data)
        (fun err =>
           setError (Some (message err)) ;;
           console_error "Analysis failed:" err)
        (setIsLoading false)
  | None =>
      setAnalysisResult JNull ;;
      setError None
  end.

(** What [renderContent] returns. *)
Inductive View : Type :=
| ErrorState (message : string)
| LoadingState (title subtitle : string)
| MapAOISelectorView
| ImageComparison (result : json)
| ChangeDetectionOverlay (result : json)
| NullView.

Definition renderContent (s : Store) : View :=
  let early :=
    if negb (String.eqb (activeTab s) "aoi")
    then
      match error s with
      | Some e =>
          if truthy_string e then Some (ErrorState e)
          else if isLoading s
               then Some (LoadingState "Analyzing Satellite Imagery"
                                       "This may take a moment...")
               else None
      | None =>
          if isLoading s
          then Some (LoadingState "Analyzing Satellite Imagery"
                                  "This may take a moment...")
          else None
      end
    else None in
  match early with
  | Some view => view
  | None =>
      if String.eqb (activeTab s) "aoi" then MapAOISelectorView
      else if String.eqb (activeTab s) "imagery"
           then ImageComparison (analysisResult s)
           else if String.eqb (activeTab s) "detection"
                then ChangeDetectionOverlay (analysisResult s)
                else NullView
  end.

(** The three tabs of the tab bar and their ids. *)
Inductive Tab : Type := AOI | Imagery | Detection.

Definition tab_id (t : Tab) : string :=
  match t with
  | AOI => "aoi"
  | Imagery => "imagery"
  | Detection => "detection"
  end.

(** *** The component in the event loop *)

Inductive LogEntry : Type :=
| Performed (act : Action)
| Requested (req : Request).

(** The state variables, the requests in flight with the suspended rest of
    their handler, everything done so far, and the errors that no handler
    caught. *)
Record World : Type :=
  mkWorld { store : Store;
            inflight : list (Request * (Outcome -> Prog unit));
            log : list LogEntry;
            unhandled : list Thrown }.

Definition initialWorld : World :=
  {| store := initialStore; inflight := []; log := []; unhandled := [] |}.

Definition apply (act : Action) (s : Store) : Store :=
  match act with
  | SetActiveTab tab =>
      {| activeTab := tab; isLoading := isLoading s;
         analysisResult := analysisResult s; error := error s |}
  | SetIsLoading b =>
      {| activeTab := activeTab s; isLoading := b;
         analysisResult := analysisResult s; error := error s |}
  | SetAnalysisResult r =>
      {| activeTab := activeTab s; isLoading := isLoading s;
         analysisResult := r; error := error s |}
  | SetError e =>
      {| activeTab := activeTab s; isLoading := isLoading s;
         analysisResult := analysisResult s; error := e |}
  | ConsoleError _ _ => s
  end.

(** Runs handler code up to its end or its next suspension. *)
Fixpoint exec (p : Prog unit) (w : World) : World :=
  match p with
  | Ret _ => w
  | Throw e =>
      {| store := store w; inflight := inflight w; log := log w;
         unhandled := (unhandled w ++ [e])%list |}
  | Do act k =>
      exec k {| store := apply act (store w); inflight := inflight w;
                log := (log w ++ [Performed act])%list;
                unhandled := unhandled w |}
  | AwaitFetch req k =>
      {| store := store w;
         inflight := (inflight w ++ [(req, k)])%list;
         log := (log w ++ [Requested req])%list;
         unhandled := unhandled w |}
  end.

Fixpoint remove_nth {A : Type} (i : nat) (l : list A) : list A :=
  match i, l with
  | _, [] => []
  | O, _ :: rest => rest
  | S j, x :: rest => x :: remove_nth j rest
  end.

(** The events of the loop: the drawing controller reports a selection, the
    user clicks a tab, the [i]-th request in flight settles. *)
Inductive Event : Type :=
| AOISelected (bounds : option AOIBounds)
| TabClick (tab : Tab)
| Settled (i : nat) (outcome : Outcome).

Definition step (w : World) (e : Event) : World :=
  match e with
  | AOISelected bounds => exec (handleAOISelected bounds) w
  | TabClick tab => exec (setActiveTab (tab_id tab)) w
  | Settled i outcome =>
      match nth_error (inflight w) i with
      | Some (_, k) =>
          exec (k outcome)
            {| store := store w; inflight := remove_nth i (inflight w);
               log := log w; unhandled := unhandled w |}
      | None => w
      end
  end.

Inductive reachable : World -> Prop :=
| reachable_init : reachable initialWorld
| reachable_step w e : reachable w -> reachable (step w e).

(** The state of the analysis as the specification names it, read off the
    state variables. *)
Inductive AnalysisState : Type :=
| Idle
| Loading
| Error (message : string)
| Success (result : json).

Definition analysisState (s : Store) : AnalysisState :=
  match error s with
  | Some message => Error message
  | None =>
      if isLoading s then Loading
      else match analysisResult s with
           | JNull => Idle
           | result => Success result
           end
  end.

(** The view selection rule in the specification's words: error first,
    then loading, on every tab but AOI; otherwise the tab's own view. *)
Definition resultOf (st : AnalysisState) : json :=
  match st with
  | Success result => result
  | _ => JNull
  end.

Definition selectView_spec (tab : Tab) (st : AnalysisState) : View :=
  match tab, st with
  | AOI, _ => MapAOISelectorView
  | _, Error message => ErrorState message
  | _, Loading => LoadingState "Analyzing Satellite Imagery"
                               "This may take a moment..."
  | Imagery, _ => ImageComparison (resultOf st)
  | Detection, _ => ChangeDetectionOverlay (resultOf st)
  end.

(** The first suspension of handler code: the request it waits for and the
    rest of the handler. *)
Fixpoint suspended (p : Prog unit) : option (Request * (Outcome -> Prog unit)) :=
  match p with
  | Do _ k => suspended k
  | AwaitFetch req k => Some (req, k)
  | _ => None
  end.

(** The rest of [handleAOISelected] from the point where the request
    settles; it does not depend on the bounds. *)
Definition afterFetch (outcome : Outcome) : Prog unit :=
  match suspended (handleAOISelected
                     (Some {| west := 0%R; south := 0%R; east := 0%R; north := 0%R |}))
  with
  | Some (_, k) => k outcome
  | None => Ret tt
  end.

(** The request [handleAOISelected] sends for [bounds]. *)
Definition analysisRequest (bounds : AOIBounds) : Request :=
  {| url := endpoint; method := "POST";
     headers := [("Content-Type", "application/json")];
     body := JSON_stringify bounds |}.

(** The requests and the tab switches recorded in a log. *)
Definition requests (l : list LogEntry) : list Request :=
  flat_map (fun e => match e with Requested req => [req] | _ => [] end) l.

Definition tabSwitches (l : list LogEntry) : list string :=
  flat_map (fun e => match e with
                     | Performed (SetActiveTab tab) => [tab]
                     | _ => []
                     end) l.

(** The outcomes that are failures: a rejected [fetch], a status outside
    200..299, a body that is not JSON. *)
Definition isFailure (outcome : Outcome) : bool :=
  match outcome with
  | inl _ => true
  | inr r => negb (ok r) || match json_body r with inl _ => true | inr _ => false end
  end.

(** What the guarded block of the handler comes to once the request has
    settled: the error it throws, or the data it stores. *)
Definition guarded (outcome : Outcome) : Thrown + json :=
  match outcome with
  | inl e => inl e
  | inr r =>
      if ok r then json_body r
      else match json_body r with
           | inl e => inl e
           | inr err =>
               match get_property err "detail" with
               | inl e => inl e
               | inr detail =>
                   inl (new_Error (or_else detail (JStr fallbackMessage)))
               end
           end
  end.

(** The world after the rest of the handler has run on a settled request. *)
Definition settledWorld (outcome : Outcome) (w : World) : World :=
  match guarded outcome with
  | inl err =>
      {| store := {| activeTab := activeTab (store w); isLoading := false;
                     analysisResult := analysisResult (store w);
                     error := Some (message err) |};
         inflight := inflight w;
         log := (log w ++ [Performed (SetError (Some (message err)));
                           Performed (ConsoleError "Analysis failed:" err);
                           Performed (SetIsLoading false)])%list;
         unhandled := unhandled w |}
  | inr data =>
      {| store := {| activeTab := activeTab (store w); isLoading := false;
                     analysisResult := data; error := error (store w) |};
         inflight := inflight w;
         log := (log w ++ [Performed (SetAnalysisResult data);
                           Performed (SetIsLoading false)])%list;
         unhandled := unhandled w |}
  end.

(** What holds of the component between two events. *)
Definition invariant (w : World) : Prop :=
  (forall req k, In (req, k) (inflight w) -> k = afterFetch)
  /\ (error (store w) <> None -> isLoading (store w) = false)
  /\ unhandled w = []
  /\ (exists tab, activeTab (store w) = tab_id tab).

End VisualizationSection.

(** ** Concrete scenarios *)

Module Scenario.

Import JS L VisualizationSection.
Local Open Scope R_scope.

(** The bounds of the specification's first scenario. *)
Definition bounds1 : AOIBounds :=
  {| west := 73.80; south := 18.50; east := 73.82; north := 18.52 |}.

(** A request for [bounds1] is in flight. *)
Definition loadingWorld : World :=
  step initialWorld (AOISelected (Some bounds1)).

(** HTTP 500 with body [{"detail": "model unavailable"}]. *)
Definition modelUnavailable : Response :=
  {| status := 500;
     json_body := inr (JObj [("detail", JStr "model unavailable")]) |}.

(** HTTP 502 with an HTML body, on which [response.json()] rejects. *)
Definition badGateway : Response :=
  {| status := 502;
     json_body := inl {| name := "SyntaxError";
                         message := "Unexpected token < in JSON at position 0" |} |}.

(** HTTP 500 with body [{"detail": []}]. *)
Definition emptyDetail : Response :=
  {| status := 500; json_body := inr (JObj [("detail", JArr [])]) |}.

(** HTTP 200 with an analysis result. *)
Definition analysis1 : json :=
  JObj [("summary",
          JObj [("percent_change", JNum 12.375); ("confidence_pct", JNum 90.5);
                ("categories",
                  JObj [("Deforestation", JNum 100); ("Urban", JNum 20);
                        ("Agriculture", JNum 5)])]);
        ("overlays", JObj [("class_png", JStr "data:image/png;base64,AAAA")])].

Definition analysisReady : Response :=
  {| status := 200; json_body := inr analysis1 |}.

(** Other bounds, and the analysis result for them. *)
Definition bounds2 : AOIBounds :=
  {| west := 73.90; south := 18.55; east := 73.95; north := 18.60 |}.

Definition analysis2 : json :=
  JObj [("summary",
          JObj [("percent_change", JNum 3.5); ("confidence_pct", JNum 75);
                ("categories",
                  JObj [("Deforestation", JNum 7); ("Urban", JNum 300);
                        ("Agriculture", JNum 0)])]);
        ("overlays", JObj [("class_png", JStr "data:image/png;base64,BBBB")])].

Definition analysisReady2 : Response :=
  {| status := 200; json_body := inr analysis2 |}.

(** HTTP 200 with body [null], and with body [{}]. *)
Definition nullBody : Response :=
  {| status := 200; json_body := inr JNull |}.

Definition emptyBody : Response :=
  {| status := 200; json_body := inr (JObj []) |}.

(** The network is unreachable. *)
Definition failedToFetch : Thrown :=
  {| name := "TypeError"; message := "Failed to fetch" |}.

(** The state variables after HTTP 500 with body [{"detail": []}]. *)
Definition emptyMessageStore : Store :=
  {| activeTab := "imagery"; isLoading := false;
     analysisResult := JNull; error := Some EmptyString |}.

End Scenario.

(** The draw of the specification's first scenario: its two corners, the
    controller while the rectangle is being dragged, and once it has been
    committed. *)
Module DrawScenario.

Import JS L MapAOISelector.
Local Open Scope R_scope.

Definition southWest1 : LatLng := latLng 18.50 73.80.
Definition northEast1 : LatLng := latLng 18.52 73.82.

Definition drawingStore : Store :=
  fst (run initialStore [mousedown southWest1; mousemove northEast1]).

Definition drawnStore : Store :=
  fst (run initialStore (draw southWest1 [northEast1] northEast1)).

End DrawScenario.

(** ** Further invariants of the drawing controller *)

Module Drawing.

Import JS L MapAOISelector.

(** The two layers the mount effect puts on a map are on it, and are not
    the rectangle a ref holds. *)
Definition baseOf (m : Map) (ref : option nat) : Prop :=
  exists t g,
    In (t, TileLayer "https://{s}.tile.openstreetmap.org/{z}/{x}/{y}.png")
      (layers m)
    /\ In (g, Rectangle DATA_BOUNDS guideColor) (layers m)
    /\ t <= lastId m
    /\ g <= lastId m
    /\ (forall id, ref = Some id -> id <= lastId m /\ id <> t /\ id <> g).

Definition baseLayersKept (s : Store) : Prop :=
  baseOf (mapRef s) (rectLayerRef s).

(** [finishDrawing] goes past its guard. *)
Definition canCommit (s : Store) : bool :=
  isDrawingRef s
  && match startPointRef s with Some _ => true | None => false end.

(** Every bounds in a list of emissions comes right after a [null]; the
    flag tells whether the emission before the list was one. *)
Fixpoint precededByNull (afterNull : bool) (out : Emitted) : bool :=
  match out with
  | [] => true
  | None :: rest => precededByNull true rest
  | Some _ :: rest => afterNull && precededByNull false rest
  end.

(** The events between the pointer-down and the pointer-up of a draw that
    leave the draw going: pointer moves, and re-runs of the mount effect
    (the parent renders again when the pointer-down has cleared a result). *)
Definition quiet (e : Event) : bool :=
  match e with
  | mousemove _ => true
  | callbackChanged => true
  | _ => false
  end.

End Drawing.

(** ** What the components render

    [ChangeDetectionOverlay], [ImageComparison], the tab bar and the two
    statistics cards of [VisualizationSection].  Rendering evaluates
    property reads and method calls on the stored result, which throw on
    [undefined] and [null]; a render is a value or the error thrown. *)

Module Views.

Import JS VisualizationSection.

Definition bindE {A B : Type} (x : Thrown + A) (f : A -> Thrown + B)
  : Thrown + B :=
  match x with
  | inl e => inl e
  | inr a => f a
  end.

Local Notation "x <~ p ;; q" := (bindE p (fun x => q))
  (at level 61, p at next level, right associativity).

(** Property read [v.key] on a value that may be [undefined]. *)
Definition get (v : option json) (key : string) : Thrown + option json :=
  match v with
  | None =>
      inl {| name := "TypeError";
             message := "Cannot read properties of undefined (reading '"
                          ++ key ++ "')" |}
  | Some v => get_property v key
  end.

(** [v.toFixed(2)], [expr] being the text of the expression [v]:
    [undefined] and [null] have no properties; nothing but a number has a
    [toFixed] method (the texts are V8's). *)
Definition toFixed2 (expr : string) (v : option json) : Thrown + string :=
  match v with
  | Some (JNum x) => inr (JS.toFixed2 x)
  | None =>
      inl {| name := "TypeError";
             message := "Cannot read properties of undefined (reading 'toFixed')" |}
  | Some JNull =>
      inl {| name := "TypeError";
             message := "Cannot read properties of null (reading 'toFixed')" |}
  | Some _ =>
      inl {| name := "TypeError";
             message := expr ++ ".toFixed is not a function" |}
  end.

(** [v.toLocaleString()]: the text depends on the locale, so the view
    keeps the value; [undefined] and [null] have no properties. *)
Definition toLocaleString (v : option json) : Thrown + json :=
  match v with
  | None =>
      inl {| name := "TypeError";
             message := "Cannot read properties of undefined (reading 'toLocaleString')" |}
  | Some JNull =>
      inl {| name := "TypeError";
             message := "Cannot read properties of null (reading 'toLocaleString')" |}
  | Some v => inr v
  end.

(** *** [ChangeDetectionOverlay] *)

Inductive OverlayView : Type :=
| OverlayPlaceholder (text : string)
| OverlayImage (src : option json).

Definition ChangeDetectionOverlay (result : json) : Thrown + OverlayView :=
  if negb (truthy result)
  then inr (OverlayPlaceholder "No analysis result to display.")
  else
    overlays <~ get_property result "overlays" ;;
    class_png <~ get overlays "class_png" ;;
    inr (OverlayImage class_png).

(** *** [ImageComparison]

    [sliderPosition] is the component's state, 50 when it mounts; the
    "after" image is clipped on the right by [100 - sliderPosition] percent
    and the handle stands at [sliderPosition] percent. *)

Inductive ComparisonView : Type :=
| ComparisonPlaceholder (text : string)
| ComparisonImages (before after : option json)
    (clipRightPercent handleLeftPercent : Z).

Definition initialSliderPosition : Z := 50.

Definition ImageComparison (result : json) (sliderPosition : Z)
  : Thrown + ComparisonView :=
  if negb (truthy result)
  then inr (ComparisonPlaceholder "Please select an AOI to begin analysis.")
  else
    beforeImage <~ get_property result "beforeImage" ;;
    afterImage <~ get_property result "afterImage" ;;
    inr (ComparisonImages beforeImage afterImage
           (100 - sliderPosition) sliderPosition).

(** *** The tab bar *)

Record TabButton : Type :=
  mkTabButton { tabId : string; tabTitle : string; highlighted : bool }.

Definition features : list (string * string) :=
  [("aoi", "AOI Selection"); ("imagery", "LISS-IV Images");
   ("detection", "Change Detection")].

Definition tabBar (s : Store) : list TabButton :=
  List.map (fun feature =>
              {| tabId := fst feature; tabTitle := snd feature;
                 highlighted := String.eqb (activeTab s) (fst feature) |})
    features.

(** *** The two statistics cards *)

Inductive Card (Row : Type) : Type :=
| Processing
| Hint (text : string)
| Rows (rows : list Row).

Arguments Processing {Row}.
Arguments Hint {Row} text.
Arguments Rows {Row} rows.

Record StatRow : Type :=
  mkStatRow { statLabel : string; statValue : string; statColor : string }.

(** The "Analysis Statistics" card. *)
Definition analysisStatistics (s : Store) : Thrown + Card StatRow :=
  if isLoading s then inr Processing
  else if truthy (analysisResult s)
  then
    summary <~ get_property (analysisResult s) "summary" ;;
    percent_change <~ get summary "percent_change" ;;
    changeText <~ toFixed2 "analysisResult.summary.percent_change"
                    percent_change ;;
    summary' <~ get_property (analysisResult s) "summary" ;;
    confidence_pct <~ get summary' "confidence_pct" ;;
    confidenceText <~ toFixed2 "analysisResult.summary.confidence_pct"
                        confidence_pct ;;
    inr (Rows [ {| statLabel := "Change Detected";
                   statValue := changeText ++ "%";
                   statColor := "text-warning" |};
                {| statLabel := "Confidence Level";
                   statValue := confidenceText ++ "%";
                   statColor := "text-success" |} ])
  else inr (Hint "Select an AOI to see statistics.").

(** The "Change Categories" card: the [value] props of its three rows, as
    the parent reads them, then the rows, each calling
    [value.toLocaleString()]. *)
Record CategoryProps : Type :=
  mkCategoryProps { categoryLabel : string; categoryColor : string;
                    categoryValue : option json }.

Record CategoryRow : Type :=
  mkCategoryRow { rowLabel : string; rowColor : string; rowPixels : json }.

Definition category (result : json) (key : string) : Thrown + option json :=
  summary <~ get_property result "summary" ;;
  categories <~ get summary "categories" ;;
  get categories key.

Definition changeCategoriesProps (s : Store) : Thrown + Card CategoryProps :=
  if isLoading s then inr Processing
  else if truthy (analysisResult s)
  then
    deforestation <~ category (analysisResult s) "Deforestation" ;;
    urban <~ category (analysisResult s) "Urban" ;;
    agriculture <~ category (analysisResult s) "Agriculture" ;;
    inr (Rows [ {| categoryLabel := "Deforestation";
                   categoryColor := "bg-red-500";
                   categoryValue := deforestation |};
                {| categoryLabel := "Urban Growth";
                   categoryColor := "bg-yellow-500";
                   categoryValue := urban |};
                {| categoryLabel := "Agriculture";
                   categoryColor := "bg-green-500";
                   categoryValue := agriculture |} ])
  else inr (Hint "No analysis data available.").

Definition renderCategoryRow (props : CategoryProps) : Thrown + CategoryRow :=
  pixels <~ toLocaleString (categoryValue props) ;;
  inr {| rowLabel := categoryLabel props; rowColor := categoryColor props;
         rowPixels := pixels |}.

Fixpoint renderCategoryRows (l : list CategoryProps)
  : Thrown + list CategoryRow :=
  match l with
  | [] => inr []
  | props :: rest =>
      row <~ renderCategoryRow props ;;
      rows <~ renderCategoryRows rest ;;
      inr (row :: rows)
  end.

Definition renderCategories (card : Card CategoryProps)
  : Thrown + Card CategoryRow :=
  match card with
  | Processing => inr Processing
  | Hint text => inr (Hint text)
  | Rows props => rows <~ renderCategoryRows props ;; inr (Rows rows)
  end.

(** *** The whole section *)

(** The content pane once the component [renderContent] chose has
    rendered. *)
Inductive Content : Type :=
| ContentError (message : string)
| ContentLoading (title subtitle : string)
| ContentMap
| ContentComparison (view : ComparisonView)
| ContentOverlay (view : OverlayView)
| ContentNothing.

Definition renderChild (view : View) (sliderPosition : Z) : Thrown + Content :=
  match view with
  | ErrorState message => inr (ContentError message)
  | LoadingState title subtitle => inr (ContentLoading title subtitle)
  | MapAOISelectorView => inr ContentMap
  | VisualizationSection.ImageComparison result =>
      view <~ ImageComparison result sliderPosition ;;
      inr (ContentComparison view)
  | VisualizationSection.ChangeDetectionOverlay result =>
      view <~ ChangeDetectionOverlay result ;;
      inr (ContentOverlay view)
  | NullView => inr ContentNothing
  end.

Record Page : Type :=
  mkPage { tabs : list TabButton;
           content : Content;
           statistics : Card StatRow;
           categories : Card CategoryRow }.

(** A render of [VisualizationSection] and of the components below it: the
    parent evaluates its own expressions first (the statistics and the
    props of the category rows), then the children render in document
    order. *)
Definition render (s : Store) (sliderPosition : Z) : Thrown + Page :=
  stats <~ analysisStatistics s ;;
  props <~ changeCategoriesProps s ;;
  child <~ renderChild (renderContent s) sliderPosition ;;
  cats <~ renderCategories props ;;
  inr {| tabs := tabBar s; content := child;
         statistics := stats; categories := cats |}.

(** A result of the shape of the [AnalysisResult] interface: [summary]
    with its two numbers and its three categories, and [overlays]. *)
Definition isNumber (v : option json) : bool :=
  match v with Some (JNum _) => true | _ => false end.

Definition isObject (v : option json) : bool :=
  match v with Some (JObj _) => true | _ => false end.

Definition member (v : option json) (key : string) : option json :=
  match v with
  | Some (JObj members) => assoc key members
  | _ => None
  end.

Definition isAnalysisResult (result : json) : bool :=
  let summary := member (Some result) "summary" in
  let categories := member summary "categories" in
  isObject (Some result)
  && isObject summary
  && isNumber (member summary "percent_change")
  && isNumber (member summary "confidence_pct")
  && isObject categories
  && isNumber (member categories "Deforestation")
  && isNumber (member categories "Urban")
  && isNumber (member categories "Agriculture")
  && isObject (member (Some result) "overlays").

End Views.

(** ** The two components together

    [VisualizationSection] renders [MapAOISelector] exactly when
    [renderContent] returns it, with [handleAOISelected] as its
    [onAOISelected]: the selector is mounted afresh when the AOI tab is
    shown and unmounted when another tab is; every call it makes to
    [onAOISelected] runs the handler up to its first suspension.  When the
    parent renders again while the selector stays mounted, the selector is
    handed a new [handleAOISelected] and its mount effect runs again: that
    is the selector's own event [callbackChanged], which may follow any
    event below. *)

Module App.

Import JS L.

Record State : Type :=
  mkState { world : VisualizationSection.World;
            selector : option MapAOISelector.Store;
            lastStamp : nat }.

(** A selector that has just mounted. *)
Definition mounted (stamp : nat) : MapAOISelector.Store :=
  {| MapAOISelector.areaKm2 := None;
     MapAOISelector.mapRef := MapAOISelector.mountMap stamp;
     MapAOISelector.rectLayerRef := None;
     MapAOISelector.startPointRef := None;
     MapAOISelector.isDrawingRef := false |}.

Definition initialState : State :=
  {| world := VisualizationSection.initialWorld;
     selector := Some (mounted 0);
     lastStamp := 0 |}.

(** After the parent has rendered: the selector is kept, mounted or
    unmounted according to what [renderContent] returns. *)
Definition reconcile (w : VisualizationSection.World)
  (sel : option MapAOISelector.Store) (stamp : nat) : State :=
  match VisualizationSection.renderContent (VisualizationSection.store w), sel with
  | VisualizationSection.MapAOISelectorView, Some s =>
      {| world := w; selector := Some s; lastStamp := stamp |}
  | VisualizationSection.MapAOISelectorView, None =>
      {| world := w; selector := Some (mounted stamp); lastStamp := stamp |}
  | _, Some s =>
      {| world := w; selector := None;
         lastStamp := lastId (MapAOISelector.mapRef s) |}
  | _, None =>
      {| world := w; selector := None; lastStamp := stamp |}
  end.

(** The calls the selector made to [onAOISelected], handled in order. *)
Definition deliver (w : VisualizationSection.World)
  (out : MapAOISelector.Emitted) : VisualizationSection.World :=
  fold_left
    (fun w bounds =>
       VisualizationSection.step w (VisualizationSection.AOISelected bounds))
    out w.

(** What can happen: something happens to the selector (only while it is
    mounted), the user clicks a tab, a request settles. *)
Inductive Event : Type :=
| Selector (e : MapAOISelector.Event)
| Tab (tab : VisualizationSection.Tab)
| Response (i : nat) (outcome : VisualizationSection.Outcome).

Definition step (a : State) (e : Event) : State :=
  match e with
  | Selector ev =>
      match selector a with
      | Some sel =>
          let (sel', out) := MapAOISelector.step sel ev in
          reconcile (deliver (world a) out) (Some sel') (lastStamp a)
      | None => a
      end
  | Tab tab =>
      reconcile
        (VisualizationSection.step (world a) (VisualizationSection.TabClick tab))
        (selector a) (lastStamp a)
  | Response i outcome =>
      reconcile
        (VisualizationSection.step (world a)
           (VisualizationSection.Settled i outcome))
        (selector a) (lastStamp a)
  end.

Definition run (a : State) (es : list Event) : State := fold_left step es a.

Inductive reachable : State -> Prop :=
| reachable_init : reachable initialState
| reachable_step a e : reachable a -> reachable (step a e).

(** The bounds a request carries. *)
Definition boundsOf (req : VisualizationSection.Request) : AOIBounds :=
  match VisualizationSection.body req with
  | VisualizationSection.JSON_stringify bounds => bounds
  end.

Definition ordered (b : AOIBounds) : Prop :=
  (west b < east b)%R /\ (south b < north b)%R.

(** What holds of the two components between two events. *)
Definition invariant (a : State) : Prop :=
  VisualizationSection.reachable (world a)
  /\ (forall sel, selector a = Some sel ->
        VisualizationSection.activeTab (VisualizationSection.store (world a))
        = "aoi"
        /\ MapAOISelector.invariant sel)
  /\ (selector a = None ->
      VisualizationSection.activeTab (VisualizationSection.store (world a))
      <> "aoi")
  /\ (forall req,
        In req (VisualizationSection.requests
                  (VisualizationSection.log (world a))) ->
        ordered (boundsOf req)).

End App.

(** * Properties *)

Import JS L.

(** ** The orchestrator *)

Section Orchestrator.

Import VisualizationSection.

Lemma suspended_handleAOISelected (bounds : AOIBounds) :
  suspended (handleAOISelected (Some bounds))
  = Some (analysisRequest bounds, afterFetch).
Proof. reflexivity. Qed.

Lemma step_AOISelected_bounds (w : World) (bounds : AOIBounds) :
  step w (AOISelected (Some bounds))
  = {| store := {| activeTab := "imagery"; isLoading := true;
                   analysisResult := JNull; error := None |};
       inflight := (inflight w ++ [(analysisRequest bounds, afterFetch)])%list;
       log := (log w ++ [Performed (SetIsLoading true);
                         Performed (SetAnalysisResult JNull);
                         Performed (SetError None);
                         Performed (SetActiveTab "imagery");
                         Requested (analysisRequest bounds)])%list;
       unhandled := unhandled w |}.
Proof.
  unfold step; simpl. rewrite <- !app_assoc. reflexivity.
Qed.

Lemma step_AOISelected_null (w : World) :
  step w (AOISelected None)
  = {| store := {| activeTab := activeTab (store w);
                   isLoading := isLoading (store w);
                   analysisResult := JNull; error := None |};
       inflight := inflight w;
       log := (log w ++ [Performed (SetAnalysisResult JNull);
                         Performed (SetError None)])%list;
       unhandled := unhandled w |}.
Proof.
  unfold step; simpl. rewrite <- !app_assoc. reflexivity.
Qed.

Lemma step_TabClick (w : World) (tab : Tab) :
  step w (TabClick tab)
  = {| store := {| activeTab := tab_id tab;
                   isLoading := isLoading (store w);
                   analysisResult := analysisResult (store w);
                   error := error (store w) |};
       inflight := inflight w;
       log := (log w ++ [Performed (SetActiveTab (tab_id tab))])%list;
       unhandled := unhandled w |}.
Proof. reflexivity. Qed.

(** The rest of the handler, run on any settled request from any world:
    every exit goes through the [catch] and the [finally] blocks. *)
Lemma exec_afterFetch (outcome : Outcome) (w : World) :
  exec (afterFetch outcome) w = settledWorld outcome w.
Proof.
  unfold settledWorld, guarded, afterFetch.
  destruct outcome as [e | r]; simpl.
  - rewrite <- !app_assoc. reflexivity.
  - unfold Response_json. destruct (ok r); simpl.
    + destruct (json_body r) as [e | data]; simpl;
        rewrite <- !app_assoc; reflexivity.
    + destruct (json_body r) as [e | err]; simpl.
      * rewrite <- !app_assoc. reflexivity.
      * destruct (get_property err "detail") as [e | detail]; simpl;
          rewrite <- !app_assoc; reflexivity.
Qed.

Lemma In_remove_nth {A : Type} (x : A) (i : nat) (l : list A) :
  In x (remove_nth i l) -> In x l.
Proof.
  revert i; induction l as [| y l IH]; intros [| j] H; simpl in *; auto.
  destruct H as [H | H]; [left; exact H | right; eapply IH; exact H].
Qed.

Lemma requests_app (l1 l2 : list LogEntry) :
  requests (l1 ++ l2) = (requests l1 ++ requests l2)%list.
Proof. unfold requests. apply flat_map_app. Qed.

Lemma tabSwitches_app (l1 l2 : list LogEntry) :
  tabSwitches (l1 ++ l2) = (tabSwitches l1 ++ tabSwitches l2)%list.
Proof. unfold tabSwitches. apply flat_map_app. Qed.

(** A settled request neither sends a request nor switches the tab, and no
    error escapes the handler. *)
Lemma settledWorld_frame (outcome : Outcome) (w : World) :
  inflight (settledWorld outcome w) = inflight w
  /\ unhandled (settledWorld outcome w) = unhandled w
  /\ activeTab (store (settledWorld outcome w)) = activeTab (store w)
  /\ isLoading (store (settledWorld outcome w)) = false
  /\ requests (log (settledWorld outcome w)) = requests (log w)
  /\ tabSwitches (log (settledWorld outcome w)) = tabSwitches (log w).
Proof.
  unfold settledWorld.
  destruct (guarded outcome) as [err | data]; simpl;
    rewrite requests_app, tabSwitches_app; simpl;
    rewrite !app_nil_r; repeat split; reflexivity.
Qed.

Lemma invariant_init : invariant initialWorld.
Proof.
  repeat split; simpl; try tauto; try congruence.
  exists AOI; reflexivity.
Qed.

Lemma invariant_step (w : World) (e : Event) :
  invariant w -> invariant (step w e).
Proof.
  intros (Hk & Herr & Hun & Htab).
  destruct e as [[bounds |] | tab | i outcome].
  - rewrite step_AOISelected_bounds. repeat split; simpl; try congruence.
    + intros req k Hin. apply in_app_or in Hin as [Hin | [Hin | []]].
      * eapply Hk; exact Hin.
      * congruence.
    + exists Imagery; reflexivity.
  - rewrite step_AOISelected_null. repeat split; simpl; try congruence; auto.
  - rewrite step_TabClick. repeat split; simpl; auto.
    exists tab; reflexivity.
  - unfold step. destruct (nth_error (inflight w) i) as [[req k] |] eqn:Hnth.
    + assert (k = afterFetch) as ->
          by (eapply Hk; eapply nth_error_In; exact Hnth).
      rewrite exec_afterFetch.
      destruct (settledWorld_frame outcome
                  {| store := store w; inflight := remove_nth i (inflight w);
                     log := log w; unhandled := unhandled w |})
        as (Hi & Hu & Ht & Hl & _).
      repeat split.
      * rewrite Hi; simpl. intros r0 k0 Hin.
        eapply Hk, In_remove_nth; exact Hin.
      * intros _; exact Hl.
      * rewrite Hu; exact Hun.
      * rewrite Ht; exact Htab.
    + repeat split; auto.
Qed.

Lemma reachable_invariant (w : World) : reachable w -> invariant w.
Proof.
  induction 1 as [| w e _ IH]; [apply invariant_init | apply invariant_step, IH].
Qed.

(** When the [i]-th request in flight settles, the rest of the handler of
    [handleAOISelected] runs. *)
Lemma step_Settled (w : World) (i : nat) (req : Request)
  (k : Outcome -> Prog unit) (outcome : Outcome) :
  reachable w ->
  nth_error (inflight w) i = Some (req, k) ->
  step w (Settled i outcome)
  = settledWorld outcome
      {| store := store w; inflight := remove_nth i (inflight w);
         log := log w; unhandled := unhandled w |}.
Proof.
  intros Hw Hnth. destruct (reachable_invariant w Hw) as (Hk & _).
  unfold step. rewrite Hnth.
  rewrite (Hk req k (nth_error_In _ _ Hnth)). apply exec_afterFetch.
Qed.

Lemma reachable_loadingWorld : reachable Scenario.loadingWorld.
Proof. apply reachable_step, reachable_init. Defined.

Lemma nth_loadingWorld :
  nth_error (inflight Scenario.loadingWorld) 0
  = Some (analysisRequest Scenario.bounds1, afterFetch).
Proof. reflexivity. Defined.

(** C1 (as amended).  Handling [AOISelected(null)] sets the result and the
    error to [null] and leaves the loading flag as it was.  Hence, between
    two events, the state afterwards is [Idle] when the state before was
    [Idle], [Error] or [Success], and it is still [Loading] when a request
    was being awaited. *)
Theorem AOISelected_null_clears_result_and_error (w : World) :
  reachable w ->
  analysisResult (store (step w (AOISelected None))) = JNull
  /\ error (store (step w (AOISelected None))) = None
  /\ isLoading (store (step w (AOISelected None))) = isLoading (store w)
  /\ (analysisState (store w) <> Loading ->
      analysisState (store (step w (AOISelected None))) = Idle)
  /\ (analysisState (store w) = Loading ->
      analysisState (store (step w (AOISelected None))) = Loading).
Proof.
  intros Hw. destruct (reachable_invariant w Hw) as (_ & Herr & _).
  rewrite step_AOISelected_null; simpl.
  repeat split; unfold analysisState in *; simpl.
  - destruct (error (store w)) as [m |] eqn:He.
    + rewrite Herr by congruence. reflexivity.
    + destruct (isLoading (store w)); [congruence | reflexivity].
  - destruct (error (store w)) as [m |] eqn:He; [congruence |].
    destruct (isLoading (store w)); [reflexivity |].
    destruct (analysisResult (store w)); congruence.
Qed.

Lemma AOISelected_null_clears_result_and_error_witness :
  reachable Scenario.loadingWorld
  /\ analysisResult (store (step Scenario.loadingWorld (AOISelected None))) = JNull
  /\ error (store (step Scenario.loadingWorld (AOISelected None))) = None.
Proof.
  split; [exact reachable_loadingWorld |].
  destruct (AOISelected_null_clears_result_and_error
              Scenario.loadingWorld reachable_loadingWorld) as (H1 & H2 & _).
  split; assumption.
Defined.

(** C1 fails as stated: with a request in flight the state is [Loading],
    and it is still [Loading], not [Idle], after [AOISelected(null)]. *)
Lemma AOISelected_null_while_loading_stays_loading :
  analysisState (store Scenario.loadingWorld) = Loading
  /\ analysisState (store (step Scenario.loadingWorld (AOISelected None)))
     = Loading
  /\ analysisState (store (step Scenario.loadingWorld (AOISelected None)))
     <> Idle.
Proof.
  repeat split; try reflexivity.
  change (Loading <> Idle). discriminate.
Qed.

(** C2.  Handling [AOISelected(bounds)] switches the tab to "imagery" once,
    leaves the state [Loading], and sends one request: a POST to the
    analysis endpoint whose body is the JSON text of [bounds]; the rest of
    the handler, run when the request settles, sends nothing and switches
    no tab.  Handling [AOISelected(null)] switches no tab and sends no
    request. *)
Theorem AOISelected_bounds_one_switch_one_request
  (w : World) (bounds : AOIBounds) :
  (tabSwitches (log (step w (AOISelected (Some bounds))))
   = tabSwitches (log w) ++ ["imagery"])%list
  /\ activeTab (store (step w (AOISelected (Some bounds)))) = tab_id Imagery
  /\ analysisState (store (step w (AOISelected (Some bounds)))) = Loading
  /\ (requests (log (step w (AOISelected (Some bounds))))
      = requests (log w) ++ [analysisRequest bounds])%list
  /\ (inflight (step w (AOISelected (Some bounds)))
      = inflight w ++ [(analysisRequest bounds, afterFetch)])%list
  /\ method (analysisRequest bounds) = "POST"
  /\ url (analysisRequest bounds) = endpoint
  /\ body (analysisRequest bounds) = JSON_stringify bounds
  /\ (forall outcome w2,
         requests (log (exec (afterFetch outcome) w2)) = requests (log w2)
         /\ tabSwitches (log (exec (afterFetch outcome) w2))
            = tabSwitches (log w2)
         /\ inflight (exec (afterFetch outcome) w2) = inflight w2)
  /\ tabSwitches (log (step w (AOISelected None))) = tabSwitches (log w)
  /\ requests (log (step w (AOISelected None))) = requests (log w)
  /\ inflight (step w (AOISelected None)) = inflight w
  /\ activeTab (store (step w (AOISelected None))) = activeTab (store w).
Proof.
  rewrite step_AOISelected_bounds, step_AOISelected_null; simpl.
  rewrite !requests_app, !tabSwitches_app; simpl. rewrite !app_nil_r.
  repeat split; try reflexivity;
    rewrite exec_afterFetch;
    destruct (settledWorld_frame outcome w2) as (Hi & _ & _ & _ & Hr & Ht);
    assumption.
Qed.

(** The state after a request has settled, by what the guarded block of
    the handler came to. *)
Lemma settled_state (w : World) (i : nat) (req : Request)
  (k : Outcome -> Prog unit) (outcome : Outcome) :
  reachable w ->
  nth_error (inflight w) i = Some (req, k) ->
  isLoading (store (step w (Settled i outcome))) = false
  /\ unhandled (step w (Settled i outcome)) = unhandled w
  /\ (forall err, guarded outcome = inl err ->
        error (store (step w (Settled i outcome))) = Some (message err)
        /\ analysisState (store (step w (Settled i outcome)))
           = Error (message err))
  /\ (forall data, guarded outcome = inr data ->
        error (store (step w (Settled i outcome))) = error (store w)
        /\ analysisResult (store (step w (Settled i outcome))) = data).
Proof.
  intros Hw Hnth. rewrite (step_Settled w i req k outcome Hw Hnth).
  unfold settledWorld.
  destruct (guarded outcome) as [e | d]; simpl;
    (split; [reflexivity |]); (split; [reflexivity |]);
    split; intros x Hx; inversion Hx; subst; split; reflexivity.
Qed.

(** C6 (as amended).  When the request settles with a status outside
    200..299, the state becomes [Error] and its message is: the [detail]
    member of the body when the body is a JSON object and [detail] a
    non-empty string; the fallback message when the body is a JSON object
    without [detail], or with a [detail] that is [null], [false], [0] or
    the empty string; the description of the parse failure when the body
    is not JSON.  HTTP 500 with body [{"detail": "model unavailable"}]
    gives [Error "model unavailable"]. *)
Theorem non2xx_sets_error_message (w : World) (i : nat) (req : Request)
  (k : Outcome -> Prog unit) (r : Response) :
  reachable w ->
  nth_error (inflight w) i = Some (req, k) ->
  ok r = false ->
  isLoading (store (step w (Settled i (inr r)))) = false
  /\ (forall members d,
         json_body r = inr (JObj members) ->
         assoc "detail" members = Some (JStr d) ->
         d <> EmptyString ->
         analysisState (store (step w (Settled i (inr r)))) = Error d)
  /\ (forall members,
         json_body r = inr (JObj members) ->
         (assoc "detail" members = None
          \/ exists v, assoc "detail" members = Some v /\ truthy v = false) ->
         analysisState (store (step w (Settled i (inr r))))
         = Error fallbackMessage)
  /\ (forall e,
         json_body r = inl e ->
         analysisState (store (step w (Settled i (inr r))))
         = Error (message e))
  /\ analysisState (store (step w (Settled i (inr Scenario.modelUnavailable))))
     = Error "model unavailable".
Proof.
  intros Hw Hnth Hok.
  destruct (settled_state w i req k (inr r) Hw Hnth) as (Hl & _ & Herr & _).
  destruct (settled_state w i req k (inr Scenario.modelUnavailable) Hw Hnth)
    as (_ & _ & Herr' & _).
  split; [exact Hl |]. repeat split.
  - intros members d Hb Hd Hne.
    destruct (Herr (new_Error (JStr d))) as [_ H]; [| exact H].
    unfold guarded. rewrite Hok, Hb. simpl. rewrite Hd. simpl.
    destruct d; [congruence | reflexivity].
  - intros members Hb Hd.
    destruct (Herr (new_Error (JStr fallbackMessage))) as [_ H]; [| exact H].
    unfold guarded. rewrite Hok, Hb. simpl.
    destruct Hd as [-> | (v & -> & Hv)]; simpl; [reflexivity |].
    rewrite Hv. reflexivity.
  - intros e Hb.
    destruct (Herr e) as [_ H]; [| exact H].
    unfold guarded. rewrite Hok, Hb. reflexivity.
  - destruct (Herr' (new_Error (JStr "model unavailable"))) as [_ H];
      [reflexivity | exact H].
Qed.

Lemma non2xx_sets_error_message_witness :
  reachable Scenario.loadingWorld
  /\ nth_error (inflight Scenario.loadingWorld) 0
     = Some (analysisRequest Scenario.bounds1, afterFetch)
  /\ ok Scenario.badGateway = false
  /\ analysisState
       (store (step Scenario.loadingWorld
                 (Settled 0 (inr Scenario.modelUnavailable))))
     = Error "model unavailable".
Proof.
  split; [exact reachable_loadingWorld |].
  split; [exact nth_loadingWorld |].
  split; [reflexivity |].
  apply (non2xx_sets_error_message Scenario.loadingWorld 0
           (analysisRequest Scenario.bounds1) afterFetch Scenario.badGateway
           reachable_loadingWorld nth_loadingWorld eq_refl).
Defined.

(** C6 fails as stated: on HTTP 502 with a body that is not JSON (so with
    no [detail]) the message is the description of the parse failure, not
    the fallback message. *)
Lemma non2xx_unparsable_body_not_fallback :
  ok Scenario.badGateway = false
  /\ analysisState
       (store (step Scenario.loadingWorld
                 (Settled 0 (inr Scenario.badGateway))))
     = Error "Unexpected token < in JSON at position 0"
  /\ analysisState
       (store (step Scenario.loadingWorld
                 (Settled 0 (inr Scenario.badGateway))))
     <> Error fallbackMessage.
Proof.
  repeat split; try reflexivity.
  change (Error "Unexpected token < in JSON at position 0"
          <> Error fallbackMessage).
  discriminate.
Qed.

Lemma guarded_ok (r : Response) (data : json) :
  ok r = true -> json_body r = inr data -> guarded (inr r) = inr data.
Proof.
  intros Hok Hb. unfold guarded. rewrite Hok. exact Hb.
Qed.

Lemma isFailure_guarded (outcome : Outcome) :
  isFailure outcome = true -> exists err, guarded outcome = inl err.
Proof.
  destruct outcome as [e | r]; simpl; [intros _; exists e; reflexivity |].
  destruct (ok r); simpl.
  - destruct (json_body r) as [e | data]; [| discriminate].
    intros _; exists e; reflexivity.
  - intros _. destruct (json_body r) as [e | err]; [exists e; reflexivity |].
    destruct (get_property err "detail") as [e | detail]; eexists; reflexivity.
Qed.

Lemma not_isFailure_guarded (outcome : Outcome) :
  isFailure outcome = false ->
  exists r data,
    outcome = inr r /\ ok r = true /\ json_body r = inr data
    /\ guarded outcome = inr data.
Proof.
  destruct outcome as [e | r]; simpl; [discriminate |].
  destruct (ok r) eqn:Hok; simpl; [| discriminate].
  destruct (json_body r) as [e | data] eqn:Hb; [discriminate |].
  intros _. exists r, data. rewrite Hb. repeat split; assumption.
Qed.

(** The render that follows when the stored result is truthy and has no
    [summary]: the statistics card reads [summary.percent_change]. *)
Lemma render_without_summary_throws (s : Store) (slider : Z) :
  isLoading s = false ->
  truthy (analysisResult s) = true ->
  get_property (analysisResult s) "summary" = inr None
  \/ get_property (analysisResult s) "summary" = inr (Some JNull) ->
  exists e, Views.render s slider = inl e /\ name e = "TypeError".
Proof.
  intros Hl Htruthy Hsummary.
  unfold Views.render, Views.analysisStatistics. rewrite Hl, Htruthy.
  destruct Hsummary as [-> | ->]; simpl; eexists; split; reflexivity.
Qed.

(** C8 (as amended).  However the request settles, no error thrown while
    the handler runs escapes it and the loading flag is cleared: the state
    afterwards is never [Loading].  Every failure of the request (the
    fetch rejects, the status is outside 200..299, the body is not JSON)
    gives [Error], with the description of the failure as message when the
    fetch rejects or the body is not JSON.  A 2xx body that parses is
    stored as it is, whatever its shape, and an error that is pending
    stays: with none pending the state is [Success] when the body is not
    [null] and [Idle] when it is.  What is thrown while rendering is not
    caught: a stored body that is truthy and has no [summary] makes the
    render that follows throw a TypeError. *)
Theorem settled_request_clears_loading (w : World) (i : nat)
  (req : Request) (k : Outcome -> Prog unit) (outcome : Outcome) :
  reachable w ->
  nth_error (inflight w) i = Some (req, k) ->
  unhandled (step w (Settled i outcome)) = []
  /\ isLoading (store (step w (Settled i outcome))) = false
  /\ analysisState (store (step w (Settled i outcome))) <> Loading
  /\ (isFailure outcome = true ->
      exists m, analysisState (store (step w (Settled i outcome))) = Error m)
  /\ (forall e, outcome = inl e ->
      analysisState (store (step w (Settled i outcome))) = Error (message e))
  /\ (forall r e, outcome = inr r -> json_body r = inl e ->
      analysisState (store (step w (Settled i outcome))) = Error (message e))
  /\ (forall r data,
         outcome = inr r -> ok r = true -> json_body r = inr data ->
         analysisResult (store (step w (Settled i outcome))) = data
         /\ error (store (step w (Settled i outcome))) = error (store w)
         /\ (forall m, error (store w) = Some m ->
               analysisState (store (step w (Settled i outcome))) = Error m)
         /\ (error (store w) = None -> data <> JNull ->
             analysisState (store (step w (Settled i outcome)))
             = Success data)
         /\ (error (store w) = None -> data = JNull ->
             analysisState (store (step w (Settled i outcome))) = Idle)
         /\ (forall slider,
               truthy data = true ->
               get_property data "summary" = inr None
               \/ get_property data "summary" = inr (Some JNull) ->
               exists e,
                 Views.render (store (step w (Settled i outcome))) slider
                 = inl e
                 /\ name e = "TypeError")).
Proof.
  intros Hw Hnth.
  destruct (reachable_invariant w Hw) as (_ & _ & Hun & _).
  destruct (settled_state w i req k outcome Hw Hnth)
    as (Hl & Hu & Herr & Hok).
  split; [rewrite Hu; exact Hun |].
  split; [exact Hl |].
  split.
  { unfold analysisState. rewrite Hl.
    destruct (error (store (step w (Settled i outcome)))); [discriminate |].
    destruct (analysisResult (store (step w (Settled i outcome))));
      discriminate. }
  split.
  { intros Hf. destruct (isFailure_guarded outcome Hf) as [err Hg].
    exists (message err). apply (Herr err Hg). }
  split.
  { intros e ->. apply (Herr e). reflexivity. }
  split.
  { intros r e -> Hb. apply (Herr e). unfold guarded. rewrite Hb.
    destruct (ok r); reflexivity. }
  intros r data -> Hr Hb.
  destruct (Hok data (guarded_ok r data Hr Hb)) as [He Hd].
  split; [exact Hd |]. split; [exact He |].
  split.
  { intros m Hm. unfold analysisState. rewrite He, Hm. reflexivity. }
  split.
  { intros Hnone Hne. unfold analysisState. rewrite He, Hnone, Hl, Hd.
    destruct data; congruence. }
  split.
  { intros Hnone ->. unfold analysisState. rewrite He, Hnone, Hl, Hd.
    reflexivity. }
  intros slider Htruthy Hsummary.
  apply render_without_summary_throws;
    [exact Hl | rewrite Hd; exact Htruthy | rewrite Hd; exact Hsummary].
Qed.

Lemma settled_request_clears_loading_witness :
  reachable Scenario.loadingWorld
  /\ nth_error (inflight Scenario.loadingWorld) 0
     = Some (analysisRequest Scenario.bounds1, afterFetch)
  /\ isLoading (store (step Scenario.loadingWorld
                         (Settled 0 (inl Scenario.failedToFetch)))) = false
  /\ analysisState
       (store (step Scenario.loadingWorld
                 (Settled 0 (inl Scenario.failedToFetch))))
     = Error "Failed to fetch".
Proof.
  split; [exact reachable_loadingWorld |].
  split; [exact nth_loadingWorld |].
  destruct (settled_request_clears_loading Scenario.loadingWorld 0
              (analysisRequest Scenario.bounds1) afterFetch
              (inl Scenario.failedToFetch)
              reachable_loadingWorld nth_loadingWorld)
    as (_ & Hl & _ & _ & He & _).
  split; [exact Hl |].
  exact (He Scenario.failedToFetch eq_refl).
Defined.

(** C8 fails as stated.  On HTTP 200 with body [null] the state after the
    request has settled is [Idle], neither [Success] nor [Error]; on HTTP
    200 with body [{}] it is [Success] and the render that follows throws,
    caught by nothing. *)
Lemma settled_2xx_ends_idle_or_breaks_render :
  analysisState
    (store (step Scenario.loadingWorld (Settled 0 (inr Scenario.nullBody))))
  = Idle
  /\ (forall m,
         analysisState
           (store (step Scenario.loadingWorld
                     (Settled 0 (inr Scenario.nullBody))))
         <> Error m)
  /\ (forall result,
         analysisState
           (store (step Scenario.loadingWorld
                     (Settled 0 (inr Scenario.nullBody))))
         <> Success result)
  /\ analysisState
       (store (step Scenario.loadingWorld (Settled 0 (inr Scenario.emptyBody))))
     = Success (JObj [])
  /\ exists e,
       Views.render
         (store (step Scenario.loadingWorld
                   (Settled 0 (inr Scenario.emptyBody))))
         Views.initialSliderPosition
       = inl e
       /\ name e = "TypeError".
Proof.
  split; [reflexivity |].
  split; [intros m; change (Idle <> Error m); discriminate |].
  split; [intros result; change (Idle <> Success result); discriminate |].
  split; [reflexivity |].
  eexists. split; reflexivity.
Qed.

(** C7 (code bug).  HTTP 500 with body [{"detail": []}]: [new Error([])]
    has the empty string as message, so the state after the request has
    settled is [Error] with the empty message.  On the Imagery tab
    [renderContent] tests [if (error)], which the empty string fails: it
    returns the comparison view, fed [null], and that view renders the
    placeholder that asks for a selection, where the rule of the
    specification selects the error view. *)
Lemma empty_error_message_not_shown :
  store (step Scenario.loadingWorld (Settled 0 (inr Scenario.emptyDetail)))
  = Scenario.emptyMessageStore
  /\ activeTab Scenario.emptyMessageStore = tab_id Imagery
  /\ analysisState Scenario.emptyMessageStore = Error EmptyString
  /\ selectView_spec Imagery (analysisState Scenario.emptyMessageStore)
     = ErrorState EmptyString
  /\ renderContent Scenario.emptyMessageStore = ImageComparison JNull
  /\ renderContent Scenario.emptyMessageStore
     <> selectView_spec Imagery (analysisState Scenario.emptyMessageStore)
  /\ Views.renderChild (renderContent Scenario.emptyMessageStore)
       Views.initialSliderPosition
     = inr (Views.ContentComparison
              (Views.ComparisonPlaceholder
                 "Please select an AOI to begin analysis.")).
Proof.
  repeat split; try reflexivity.
  change (ImageComparison JNull <> ErrorState EmptyString). discriminate.
Qed.

End Orchestrator.

(** ** The drawing controller *)

Section DrawingController.

Import MapAOISelector.
Local Open Scope R_scope.

Lemma strict_eq_true (x y : number) : strict_eq x y = true <-> x = y.
Proof.
  unfold strict_eq. destruct (Req_dec_T x y); split; congruence.
Qed.

Lemma Rmin_eq_Rmax (x y : R) : Rmin x y = Rmax x y <-> x = y.
Proof.
  unfold Rmin, Rmax. destruct (Rle_dec x y); split; intros; lra.
Qed.

Lemma Rmin_lt_Rmax (x y : R) : Rmin x y <> Rmax x y -> Rmin x y < Rmax x y.
Proof.
  unfold Rmin, Rmax. destruct (Rle_dec x y); intros; lra.
Qed.

(** The bounds spanned by two corners do not depend on which one comes
    first. *)
Lemma latLngBounds_comm (p q : LatLng) : latLngBounds p q = latLngBounds q p.
Proof.
  unfold latLngBounds, extend, Math_min, Math_max; simpl.
  rewrite (Rmin_comm (lat q)), (Rmin_comm (lng q)),
          (Rmax_comm (lat q)), (Rmax_comm (lng q)).
  reflexivity.
Qed.

Lemma degenerate_iff (start p : LatLng) :
  degenerate (latLngBounds start p) = true
  <-> lat start = lat p \/ lng start = lng p.
Proof.
  unfold degenerate. rewrite orb_true_iff, !strict_eq_true.
  unfold getWest, getEast, getSouth, getNorth, latLngBounds, extend,
    Math_min, Math_max; simpl.
  rewrite !Rmin_eq_Rmax. intuition congruence.
Qed.

Lemma overlays_removeLayer (id : nat) (m : Map) :
  overlays (removeLayer id m)
  = filter (fun i => negb (Nat.eqb i id)) (overlays m).
Proof.
  unfold overlays, removeLayer; simpl.
  induction (layers m) as [| [i l] rest IH]; simpl; [reflexivity |].
  destruct (Nat.eqb i id) eqn:Hi; simpl.
  - rewrite IH. destruct l as [u | b c]; simpl; [reflexivity |].
    destruct (String.eqb c drawColor); simpl; [rewrite Hi |]; reflexivity.
  - destruct l as [u | b c]; simpl; [exact IH |].
    destruct (String.eqb c drawColor); simpl; [rewrite Hi; simpl |];
      rewrite IH; reflexivity.
Qed.

Lemma overlays_setBounds (id : nat) (b : LatLngBounds) (m : Map) :
  overlays (setBounds id b m) = overlays m.
Proof.
  unfold overlays, setBounds; simpl.
  induction (layers m) as [| [i l] rest IH]; simpl; [reflexivity |].
  destruct (Nat.eqb i id); destruct l as [u | b0 c]; simpl;
    try destruct (String.eqb c drawColor); simpl; rewrite IH; reflexivity.
Qed.

Lemma overlays_addLayer (b : LatLngBounds) (m : Map) :
  overlays (snd (addLayer (Rectangle b drawColor) m))
  = (overlays m ++ [fst (addLayer (Rectangle b drawColor) m)])%list.
Proof.
  unfold overlays, addLayer; simpl.
  rewrite filter_app, map_app. reflexivity.
Qed.

Lemma overlays_removed (id : nat) (s : Store) :
  invariant s -> rectLayerRef s = Some id ->
  overlays (removeLayer id (mapRef s)) = [].
Proof.
  intros (Hov & _) Href. rewrite overlays_removeLayer.
  destruct Hov as [-> | (id' & Href' & ->)]; [reflexivity |].
  assert (id' = id) as -> by congruence.
  simpl. rewrite Nat.eqb_refl. reflexivity.
Qed.

Lemma overlays_none (s : Store) :
  invariant s -> rectLayerRef s = None -> overlays (mapRef s) = [].
Proof.
  intros (Hov & _) Href.
  destruct Hov as [H | (id & Href' & _)]; [exact H | congruence].
Qed.

Lemma overlays_removeRectLayer (s : Store) :
  invariant s -> overlays (mapRef (removeRectLayer s)) = [].
Proof.
  intros Hinv. unfold removeRectLayer.
  destruct (rectLayerRef s) as [id |] eqn:Href; simpl.
  - apply overlays_removed; assumption.
  - apply overlays_none; assumption.
Qed.

Lemma overlays_mountMap (stamp : nat) : overlays (mountMap stamp) = [].
Proof. reflexivity. Qed.

Lemma invariant_init_store : invariant initialStore.
Proof.
  split; [left; reflexivity |].
  split; simpl; [discriminate | reflexivity].
Qed.

Lemma startDrawing_spec (p : LatLng) (s : Store) :
  invariant s ->
  overlays (mapRef (fst (startDrawing p s))) = []
  /\ rectLayerRef (fst (startDrawing p s)) = None
  /\ areaKm2 (fst (startDrawing p s)) = None
  /\ dragging (mapRef (fst (startDrawing p s))) = false
  /\ isDrawingRef (fst (startDrawing p s)) = true
  /\ startPointRef (fst (startDrawing p s)) = Some p
  /\ snd (startDrawing p s) = [None].
Proof.
  intros Hinv. unfold startDrawing; simpl.
  destruct (rectLayerRef s) as [id |] eqn:Href; simpl.
  - repeat split; try reflexivity.
    change (overlays (removeLayer id (mapRef s)) = []).
    apply overlays_removed; assumption.
  - repeat split; try reflexivity; try assumption.
    apply overlays_none; assumption.
Qed.

Lemma updateDrawing_frame (p : LatLng) (s : Store) :
  isDrawingRef (fst (updateDrawing p s)) = isDrawingRef s
  /\ startPointRef (fst (updateDrawing p s)) = startPointRef s
  /\ areaKm2 (fst (updateDrawing p s)) = areaKm2 s
  /\ dragging (mapRef (fst (updateDrawing p s))) = dragging (mapRef s)
  /\ snd (updateDrawing p s) = [].
Proof.
  unfold updateDrawing.
  destruct (isDrawingRef s) eqn:Hd;
    [| simpl; rewrite Hd; repeat split; reflexivity].
  destruct (startPointRef s) as [start |] eqn:Hs;
    [| simpl; rewrite Hd, Hs; repeat split; reflexivity].
  destruct (rectLayerRef s) as [id |]; simpl; rewrite Hd, Hs;
    repeat split; reflexivity.
Qed.

Lemma updateDrawing_overlays (p : LatLng) (s : Store) :
  invariant s ->
  overlays (mapRef (fst (updateDrawing p s))) = []
  \/ exists id,
       rectLayerRef (fst (updateDrawing p s)) = Some id
       /\ overlays (mapRef (fst (updateDrawing p s))) = [id].
Proof.
  intros Hinv. pose proof Hinv as (Hov & _). unfold updateDrawing.
  destruct (isDrawingRef s); [| exact Hov].
  destruct (startPointRef s) as [start |]; [| exact Hov].
  destruct (rectLayerRef s) as [id |] eqn:Href; simpl.
  - rewrite Href, overlays_setBounds. exact Hov.
  - right. exists (S (lastId (mapRef s))). split; [reflexivity |].
    change (overlays (snd (addLayer (Rectangle (latLngBounds start p) drawColor)
                             (mapRef s)))
            = [S (lastId (mapRef s))]).
    rewrite overlays_addLayer, (overlays_none s Hinv Href). reflexivity.
Qed.

(** [finishDrawing] while a draw is in progress, by the two exits. *)
Lemma finishDrawing_discard (start p : LatLng) (s : Store) :
  isDrawingRef s = true -> startPointRef s = Some start ->
  degenerate (latLngBounds start p) = true ->
  finishDrawing p s
  = (set_rectLayerRef None
       (removeRectLayer
          (set_map (set_cursor EmptyString
                      (dragging_enable (mapRef s)))
             (set_isDrawingRef false s))), []).
Proof.
  intros Hd Hs Hdeg. unfold finishDrawing. rewrite Hd, Hs.
  fold (degenerate (latLngBounds start p)). rewrite Hdeg. reflexivity.
Qed.

Lemma finishDrawing_commit (start p : LatLng) (s : Store) :
  isDrawingRef s = true -> startPointRef s = Some start ->
  degenerate (latLngBounds start p) = false ->
  finishDrawing p s
  = (setAreaKm2
       (Some (Number_toFixed2 (fmul (dLatKm (latLngBounds start p))
                                 (dLngKm (latLngBounds start p)))))
       (set_map (set_cursor EmptyString (dragging_enable (mapRef s)))
          (set_isDrawingRef false s)),
     [Some {| west := getWest (latLngBounds start p);
              south := getSouth (latLngBounds start p);
              east := getEast (latLngBounds start p);
              north := getNorth (latLngBounds start p) |}]).
Proof.
  intros Hd Hs Hdeg. unfold finishDrawing. rewrite Hd, Hs.
  fold (degenerate (latLngBounds start p)). rewrite Hdeg. reflexivity.
Qed.

Lemma finishDrawing_idle (p : LatLng) (s : Store) :
  isDrawingRef s = false \/ startPointRef s = None ->
  finishDrawing p s = (s, []).
Proof.
  unfold finishDrawing. intros [-> | ->]; [reflexivity |].
  destruct (isDrawingRef s); reflexivity.
Qed.

Lemma removeRectLayer_frame (s : Store) :
  areaKm2 (removeRectLayer s) = areaKm2 s
  /\ rectLayerRef (removeRectLayer s) = rectLayerRef s
  /\ startPointRef (removeRectLayer s) = startPointRef s
  /\ isDrawingRef (removeRectLayer s) = isDrawingRef s
  /\ dragging (mapRef (removeRectLayer s)) = dragging (mapRef s).
Proof.
  unfold removeRectLayer. destruct (rectLayerRef s) eqn:Href; simpl;
    rewrite ?Href; repeat split; reflexivity.
Qed.

(** The discard exit: nothing is emitted, the rectangle is off the map, the
    map can be dragged again. *)
Lemma finishDrawing_discard_spec (start p : LatLng) (s : Store) :
  invariant s ->
  isDrawingRef s = true -> startPointRef s = Some start ->
  degenerate (latLngBounds start p) = true ->
  snd (finishDrawing p s) = []
  /\ overlays (mapRef (fst (finishDrawing p s))) = []
  /\ rectLayerRef (fst (finishDrawing p s)) = None
  /\ isDrawingRef (fst (finishDrawing p s)) = false
  /\ dragging (mapRef (fst (finishDrawing p s))) = true
  /\ areaKm2 (fst (finishDrawing p s)) = areaKm2 s
  /\ startPointRef (fst (finishDrawing p s)) = Some start.
Proof.
  intros (Hov & _) Hd Hs Hdeg.
  rewrite (finishDrawing_discard start p s Hd Hs Hdeg).
  set (s1 := set_map (set_cursor EmptyString (dragging_enable (mapRef s)))
               (set_isDrawingRef false s)).
  destruct (removeRectLayer_frame s1) as (H1 & H2 & H3 & H4 & H5).
  assert (Hinv1 : invariant s1).
  { split; [exact Hov |]. split; simpl; [discriminate | reflexivity]. }
  simpl. rewrite H1, H3, H4, H5, (overlays_removeRectLayer s1 Hinv1).
  simpl. repeat split; try reflexivity. exact Hs.
Qed.

Lemma invariant_step_store (s : Store) (e : Event) :
  invariant s -> invariant (fst (step s e)).
Proof.
  intros Hinv. pose proof Hinv as (Hov & Hdraw & Hidle).
  destruct e as [p | p | p | |]; unfold step.
  - destruct (startDrawing_spec p s Hinv) as (H1 & H2 & H3 & H4 & H5 & H6 & _).
    unfold invariant. rewrite H1, H3, H5, H6.
    split; [left; reflexivity |]. split; [| discriminate].
    intros _. split; [discriminate | reflexivity].
  - destruct (updateDrawing_frame p s) as (H1 & H2 & H3 & H4 & _).
    unfold invariant. rewrite H1, H2, H3, H4.
    split; [apply updateDrawing_overlays; exact Hinv |].
    split; assumption.
  - destruct (isDrawingRef s) eqn:Hd.
    + destruct (Hdraw eq_refl) as (Hs & Ha).
      destruct (startPointRef s) as [start |] eqn:Hstart; [| congruence].
      destruct (degenerate (latLngBounds start p)) eqn:Hdeg.
      * destruct (finishDrawing_discard_spec start p s Hinv Hd Hstart Hdeg)
          as (_ & H1 & H2 & H3 & H4 & _).
        unfold invariant. rewrite H1, H3, H4.
        split; [left; reflexivity |]. split; [discriminate | reflexivity].
      * rewrite (finishDrawing_commit start p s Hd Hstart Hdeg).
        unfold invariant; simpl.
        split; [exact Hov |]. split; [discriminate | reflexivity].
    + rewrite finishDrawing_idle by (left; exact Hd). exact Hinv.
  - destruct (areaKm2 s) as [a |] eqn:Ha; [| exact Hinv].
    assert (Hd : isDrawingRef s = false).
    { destruct (isDrawingRef s); [| reflexivity].
      destruct (Hdraw eq_refl) as (_ & Hn). congruence. }
    unfold handleClearAOI, invariant.
    destruct (rectLayerRef s) as [id |] eqn:Href; simpl; rewrite Hd.
    + split; [left; apply overlays_removed; assumption |].
      split; [discriminate | intros _; exact (Hidle Hd)].
    + split; [left; apply overlays_none; assumption |].
      split; [discriminate | intros _; exact (Hidle Hd)].
  - unfold remount, invariant; simpl.
    split; [left; reflexivity |]. split; [exact Hdraw | reflexivity].
Qed.

Lemma reachable_invariant_store (s : Store) : reachable s -> invariant s.
Proof.
  induction 1 as [| s e _ IH];
    [apply invariant_init_store | apply invariant_step_store, IH].
Qed.

Lemma reachable_run (s : Store) (es : list Event) :
  reachable s -> reachable (fst (run s es)).
Proof.
  revert s; induction es as [| e es IH]; intros s Hs; simpl; [exact Hs |].
  pose proof (reachable_step s e Hs) as H1.
  destruct (step s e) as [s1 out1]; simpl in H1.
  specialize (IH s1 H1). destruct (run s1 es) as [s2 out2]. exact IH.
Qed.

Lemma drawState_Drawing (s : Store) (start : LatLng) :
  drawState s = Drawing start <->
  isDrawingRef s = true /\ startPointRef s = Some start.
Proof.
  unfold drawState.
  destruct (isDrawingRef s); destruct (startPointRef s) as [p |];
    destruct (areaKm2 s); split;
      try (intros [H1 H2]); try intros H; try congruence;
        try (split; congruence).
Qed.

(** What [finishDrawing] displays and emits while a draw is in progress. *)
Lemma finishDrawing_result (start p : LatLng) (s : Store) :
  isDrawingRef s = true -> startPointRef s = Some start ->
  areaKm2 (fst (finishDrawing p s))
  = (if degenerate (latLngBounds start p) then areaKm2 s
     else Some (areaOf (latLngBounds start p)))
  /\ snd (finishDrawing p s)
     = (if degenerate (latLngBounds start p) then []
        else [Some (selection (latLngBounds start p))]).
Proof.
  intros Hd Hs. destruct (degenerate (latLngBounds start p)) eqn:Hdeg.
  - rewrite (finishDrawing_discard start p s Hd Hs Hdeg); simpl.
    destruct (removeRectLayer_frame
                (set_map (set_cursor EmptyString (dragging_enable (mapRef s)))
                   (set_isDrawingRef false s))) as (H1 & _).
    rewrite H1. split; reflexivity.
  - rewrite (finishDrawing_commit start p s Hd Hs Hdeg). split; reflexivity.
Qed.

(** Moving the pointer emits nothing and keeps the start point. *)
Lemma run_moves (s : Store) (moves : list LatLng) (rest : list Event) :
  exists s1,
    run s (List.map mousemove moves ++ rest) = run s1 rest
    /\ isDrawingRef s1 = isDrawingRef s
    /\ startPointRef s1 = startPointRef s
    /\ areaKm2 s1 = areaKm2 s.
Proof.
  revert s; induction moves as [| m moves IH]; intros s; simpl.
  - exists s. repeat split; reflexivity.
  - destruct (updateDrawing_frame m s) as (H1 & H2 & H3 & _ & H5).
    destruct (updateDrawing m s) as [s1 out1]; simpl in *. subst out1.
    destruct (IH s1) as (s2 & Hrun & G1 & G2 & G3).
    exists s2. rewrite Hrun. destruct (run s2 rest) as [s3 out3]; simpl.
    repeat split; congruence.
Qed.

(** A complete draw: what is displayed and what is emitted. *)
Lemma run_draw (s : Store) (p q : LatLng) (moves : list LatLng) :
  areaKm2 (fst (run s (draw p moves q)))
  = (if degenerate (latLngBounds p q) then None
     else Some (areaOf (latLngBounds p q)))
  /\ snd (run s (draw p moves q))
     = (if degenerate (latLngBounds p q) then [None]
        else [None; Some (selection (latLngBounds p q))]).
Proof.
  unfold draw. cbn [run step].
  assert (Hspec : isDrawingRef (fst (startDrawing p s)) = true
                  /\ startPointRef (fst (startDrawing p s)) = Some p
                  /\ areaKm2 (fst (startDrawing p s)) = None
                  /\ snd (startDrawing p s) = [None]).
  { unfold startDrawing; simpl.
    destruct (rectLayerRef s); simpl; repeat split; reflexivity. }
  destruct Hspec as (H1 & H2 & H3 & H4).
  destruct (startDrawing p s) as [s1 out1]; simpl in *. subst out1.
  destruct (run_moves s1 moves [mouseup q]) as (s2 & Hrun & G1 & G2 & G3).
  rewrite Hrun. cbn [run step].
  destruct (finishDrawing_result p q s2) as [F1 F2]; [congruence | congruence |].
  destruct (finishDrawing q s2) as [s3 out3]; simpl in *.
  rewrite F1, F2, app_nil_r, G3, H3.
  destruct (degenerate (latLngBounds p q)); split; reflexivity.
Qed.

Lemma reachable_drawingStore : reachable DrawScenario.drawingStore.
Proof. apply reachable_run, reachable_init. Qed.

Lemma reachable_drawnStore : reachable DrawScenario.drawnStore.
Proof. apply reachable_run, reachable_init. Qed.

Lemma drawState_drawingStore :
  drawState DrawScenario.drawingStore = Drawing DrawScenario.southWest1.
Proof. reflexivity. Qed.

(** C9.  A pointer-down, in whatever state the controller is: the
    rectangle of the previous or of the current draw is taken off the map,
    the area display is emptied, dragging of the map is disabled and
    [onAOISelected(null)] is called; the controller is then drawing from
    the new point. *)
Theorem pointerDown_preempts_previous_AOI (s : Store) (p : LatLng) :
  reachable s ->
  overlays (mapRef (fst (step s (mousedown p)))) = []
  /\ rectLayerRef (fst (step s (mousedown p))) = None
  /\ areaKm2 (fst (step s (mousedown p))) = None
  /\ dragging (mapRef (fst (step s (mousedown p)))) = false
  /\ snd (step s (mousedown p)) = [None]
  /\ drawState (fst (step s (mousedown p))) = Drawing p.
Proof.
  intros Hs. apply reachable_invariant_store in Hs.
  destruct (startDrawing_spec p s Hs) as (H1 & H2 & H3 & H4 & H5 & H6 & H7).
  unfold step. repeat split; try assumption.
  apply drawState_Drawing. split; assumption.
Qed.

Lemma pointerDown_preempts_previous_AOI_witness :
  reachable DrawScenario.drawnStore
  /\ overlays (mapRef (fst (step DrawScenario.drawnStore
                             (mousedown DrawScenario.northEast1)))) = []
  /\ snd (step DrawScenario.drawnStore (mousedown DrawScenario.northEast1))
     = [None].
Proof.
  split; [exact reachable_drawnStore |].
  destruct (pointerDown_preempts_previous_AOI DrawScenario.drawnStore
              DrawScenario.northEast1 reachable_drawnStore)
    as (H1 & _ & _ & _ & H5 & _).
  split; assumption.
Defined.

(** C3.  A pointer-up while drawing, at a point that has the latitude or
    the longitude of the start point: nothing is emitted, the preview
    rectangle is taken off the map, the controller is idle and the map can
    be dragged again. *)
Theorem degenerate_pointerUp_discards (s : Store) (start p : LatLng) :
  reachable s ->
  drawState s = Drawing start ->
  lat start = lat p \/ lng start = lng p ->
  snd (step s (mouseup p)) = []
  /\ overlays (mapRef (fst (step s (mouseup p)))) = []
  /\ rectLayerRef (fst (step s (mouseup p))) = None
  /\ drawState (fst (step s (mouseup p))) = Idle
  /\ dragging (mapRef (fst (step s (mouseup p)))) = true.
Proof.
  intros Hs Hdraw Hdeg. apply reachable_invariant_store in Hs.
  apply drawState_Drawing in Hdraw as [Hd Hstart].
  apply degenerate_iff in Hdeg.
  destruct (finishDrawing_discard_spec start p s Hs Hd Hstart Hdeg)
    as (H1 & H2 & H3 & H4 & H5 & H6 & H7).
  destruct Hs as (_ & Hdrawing & _).
  destruct (Hdrawing Hd) as (_ & Harea).
  unfold step. repeat split; try assumption.
  unfold drawState. rewrite H4, H6, Harea. reflexivity.
Qed.

Lemma degenerate_pointerUp_discards_witness :
  reachable DrawScenario.drawingStore
  /\ drawState DrawScenario.drawingStore = Drawing DrawScenario.southWest1
  /\ (lat DrawScenario.southWest1 = lat (latLng 18.50 73.82)
      \/ lng DrawScenario.southWest1 = lng (latLng 18.50 73.82))
  /\ snd (step DrawScenario.drawingStore (mouseup (latLng 18.50 73.82))) = []
  /\ drawState (fst (step DrawScenario.drawingStore
                       (mouseup (latLng 18.50 73.82)))) = Idle.
Proof.
  split; [exact reachable_drawingStore |].
  split; [exact drawState_drawingStore |].
  split; [left; reflexivity |].
  destruct (degenerate_pointerUp_discards DrawScenario.drawingStore
              DrawScenario.southWest1 (latLng 18.50 73.82)
              reachable_drawingStore drawState_drawingStore
              (or_introl eq_refl))
    as (H1 & _ & _ & H4 & _).
  split; assumption.
Defined.

Lemma selection_ordered (start p : LatLng) :
  degenerate (latLngBounds start p) = false ->
  west (selection (latLngBounds start p))
  < east (selection (latLngBounds start p))
  /\ south (selection (latLngBounds start p))
     < north (selection (latLngBounds start p)).
Proof.
  unfold degenerate. rewrite orb_false_iff.
  intros [Hwe Hsn].
  assert (Hwe' : getWest (latLngBounds start p)
                 <> getEast (latLngBounds start p))
    by (intros H; apply strict_eq_true in H; congruence).
  assert (Hsn' : getSouth (latLngBounds start p)
                 <> getNorth (latLngBounds start p))
    by (intros H; apply strict_eq_true in H; congruence).
  unfold selection; simpl.
  unfold getWest, getEast, getSouth, getNorth, latLngBounds, extend,
    Math_min, Math_max in *; simpl in *.
  split; apply Rmin_lt_Rmax; assumption.
Qed.

Lemma step_emits_ordered (s : Store) (e : Event) (b : AOIBounds) :
  In (Some b) (snd (step s e)) -> west b < east b /\ south b < north b.
Proof.
  destruct e as [p | p | p | |]; unfold step; [| | | | intros []].
  - unfold startDrawing; simpl. intros [H | []]; discriminate.
  - destruct (updateDrawing_frame p s) as (_ & _ & _ & _ & ->). intros [].
  - destruct (isDrawingRef s) eqn:Hd;
      [| rewrite finishDrawing_idle by (left; exact Hd); intros []].
    destruct (startPointRef s) as [start |] eqn:Hstart;
      [| rewrite finishDrawing_idle by (right; exact Hstart); intros []].
    destruct (finishDrawing_result start p s Hd Hstart) as [_ ->].
    destruct (degenerate (latLngBounds start p)) eqn:Hdeg; [intros [] |].
    intros [H | []]. inversion H; subst b.
    apply selection_ordered, Hdeg.
  - destruct (areaKm2 s); [| intros []].
    unfold handleClearAOI; simpl. intros [H | []]; discriminate.
Qed.

(** C10.  Every bounds payload the controller emits, in any run of events
    from any state, has [west < east] and [south < north]. *)
Theorem emitted_bounds_strictly_ordered
  (s : Store) (es : list Event) (b : AOIBounds) :
  In (Some b) (snd (run s es)) ->
  west b < east b /\ south b < north b.
Proof.
  revert s; induction es as [| e es IH]; intros s; simpl; [intros [] |].
  pose proof (step_emits_ordered s e b) as Hstep.
  destruct (step s e) as [s1 out1]; simpl in Hstep.
  specialize (IH s1). destruct (run s1 es) as [s2 out2]; simpl in *.
  intros Hin. apply in_app_or in Hin as [Hin | Hin]; auto.
Qed.

Lemma scenario_not_degenerate :
  degenerate (latLngBounds DrawScenario.northEast1 DrawScenario.southWest1)
  = false.
Proof.
  destruct (degenerate (latLngBounds DrawScenario.northEast1
                          DrawScenario.southWest1)) eqn:Hdeg; [| reflexivity].
  apply degenerate_iff in Hdeg. simpl in Hdeg. lra.
Qed.

Lemma scenario_emitted :
  snd (run initialStore
         (draw DrawScenario.northEast1 [] DrawScenario.southWest1))
  = [None;
     Some (selection (latLngBounds DrawScenario.northEast1
                        DrawScenario.southWest1))].
Proof.
  destruct (run_draw initialStore DrawScenario.northEast1
              DrawScenario.southWest1 []) as [_ H].
  rewrite H, scenario_not_degenerate. reflexivity.
Qed.

Lemma emitted_bounds_strictly_ordered_witness :
  In (Some (selection (latLngBounds DrawScenario.northEast1
                         DrawScenario.southWest1)))
    (snd (run initialStore
            (draw DrawScenario.northEast1 [] DrawScenario.southWest1)))
  /\ west (selection (latLngBounds DrawScenario.northEast1
                        DrawScenario.southWest1))
     < east (selection (latLngBounds DrawScenario.northEast1
                          DrawScenario.southWest1)).
Proof.
  assert (Hin : In (Some (selection (latLngBounds DrawScenario.northEast1
                                       DrawScenario.southWest1)))
                  (snd (run initialStore
                          (draw DrawScenario.northEast1 []
                             DrawScenario.southWest1))))
    by (rewrite scenario_emitted; right; left; reflexivity).
  split; [exact Hin |].
  apply (emitted_bounds_strictly_ordered initialStore
           (draw DrawScenario.northEast1 [] DrawScenario.southWest1)
           _ Hin).
Defined.

(** C5.  A complete draw from [p] to [q] and a complete draw from [q] to
    [p], from the same state and whatever the pointer moves in between,
    display the same area and emit the same events with the same bounds. *)
Theorem draw_symmetric_in_corners
  (s : Store) (p q : LatLng) (moves moves' : list LatLng) :
  areaKm2 (fst (run s (draw p moves q)))
  = areaKm2 (fst (run s (draw q moves' p)))
  /\ snd (run s (draw p moves q)) = snd (run s (draw q moves' p)).
Proof.
  destruct (run_draw s p q moves) as [H1 H2].
  destruct (run_draw s q p moves') as [H3 H4].
  rewrite H1, H2, H3, H4, (latLngBounds_comm q p).
  split; reflexivity.
Qed.

(** *** The area computation *)

Lemma PI_bounds : 31415 / 10000 < PI < 31421 / 10000.
Proof.
  pose proof (PI_2_3_7_ineq 1) as [Hlo Hhi].
  unfold sum_f_R0, tg_alt, PI_2_3_7_tg, Ratan_seq in Hlo, Hhi.
  simpl in Hlo, Hhi. lra.
Qed.

(** The cosine between two partial sums of its series. *)
Lemma cos_between (x : R) :
  0 <= x <= 1 ->
  1 - x ^ 2 / 2 + x ^ 4 / 24 - x ^ 6 / 720 <= cos x
  /\ cos x <= 1 - x ^ 2 / 2 + x ^ 4 / 24.
Proof.
  intros Hx. pose proof PI_bounds as HPI.
  assert (Hlo : - PI / 2 <= x) by lra.
  assert (Hhi : x <= PI / 2) by lra.
  destruct (cos_bound x 0 Hlo Hhi) as [_ Hup].
  destruct (cos_bound x 1 Hlo Hhi) as [Hdown _].
  unfold cos_approx, sum_f_R0, cos_term in Hup, Hdown.
  simpl in Hup, Hdown. split; lra.
Qed.

(** The cosine of the centre latitude of the first scenario, 18.51
    degrees. *)
Lemma cos_scenario1 :
  94820 / 100000 < cos (1851 / 100 * PI / 180) < 94835 / 100000.
Proof.
  pose proof PI_bounds as HPI.
  set (x := 1851 / 100 * PI / 180).
  set (lo := 1851 / 100 * (31415 / 10000) / 180).
  set (hi := 1851 / 100 * (31421 / 10000) / 180).
  assert (Hx : lo <= x <= hi) by (unfold x, lo, hi; lra).
  assert (Hlo : 0 <= lo <= 1) by (unfold lo; lra).
  assert (Hhi : 0 <= hi <= 1) by (unfold hi; lra).
  assert (Hdecr1 : cos x <= cos lo)
    by (apply cos_decr_1; unfold x, lo in *; lra).
  assert (Hdecr2 : cos hi <= cos x)
    by (apply cos_decr_1; unfold x, hi in *; lra).
  destruct (cos_between lo Hlo) as [_ Hup].
  destruct (cos_between hi Hhi) as [Hdown _].
  assert (Hpoly_lo : 1 - lo ^ 2 / 2 + lo ^ 4 / 24 < 94835 / 100000)
    by (unfold lo; lra).
  assert (Hpoly_hi : 94820 / 100000
                     < 1 - hi ^ 2 / 2 + hi ^ 4 / 24 - hi ^ 6 / 720)
    by (unfold hi; lra).
  lra.
Qed.

(** **** Rounding to a double *)

Lemma bpow_pos (e : Z) : 0 < bpow e.
Proof. apply powerRZ_lt. lra. Qed.

Lemma bpow_exp (e : Z) : bpow e = exp (IZR e * ln 2).
Proof. unfold bpow. rewrite powerRZ_Rpower by lra. reflexivity. Qed.

Lemma bpow_add (a b : Z) : bpow (a + b) = bpow a * bpow b.
Proof. unfold bpow. apply powerRZ_add. lra. Qed.

Lemma bpow_le (a b : Z) : (a <= b)%Z -> bpow a <= bpow b.
Proof.
  intros Hab. replace b with (a + (b - a))%Z by lia. rewrite bpow_add.
  pose proof (bpow_pos a) as Ha.
  assert (H : 1 <= bpow (b - a)).
  { unfold bpow. destruct (b - a)%Z as [| n | n] eqn:E; simpl; try lra; try lia.
    apply pow_R1_Rle. lra. }
  nra.
Qed.

Lemma bpow_53 : bpow (-53) = / 9007199254740992.
Proof. unfold bpow. simpl. lra. Qed.

Lemma bpow_52 : bpow (-52) = / 4503599627370496.
Proof. unfold bpow. simpl. lra. Qed.

Lemma bpow_1075 : bpow (-1075) <= / 1000000000000000000000000000000.
Proof.
  apply Rle_trans with (bpow (-100)); [apply bpow_le; lia |].
  unfold bpow; simpl; lra.
Qed.

(** A number other than zero is at least the power of two below its
    order of magnitude. *)
Lemma mag_spec (x : R) : x <> 0 -> bpow (mag x - 1) <= Rabs x.
Proof.
  intros Hx. pose proof (Rabs_pos_lt x Hx) as Hpos.
  assert (Hln2 : 0 < ln 2) by (pose proof ln_lt_2; lra).
  unfold mag. replace (Int_part (ln (Rabs x) / ln 2) + 1 - 1)%Z
    with (Int_part (ln (Rabs x) / ln 2)) by lia.
  destruct (base_Int_part (ln (Rabs x) / ln 2)) as [Hle _].
  rewrite bpow_exp. rewrite <- (exp_ln (Rabs x)) at 2 by exact Hpos.
  assert (H : IZR (Int_part (ln (Rabs x) / ln 2)) * ln 2 <= ln (Rabs x)).
  { apply (Rmult_le_compat_r (ln 2)) in Hle; [| lra].
    replace (ln (Rabs x) / ln 2 * ln 2) with (ln (Rabs x)) in Hle
      by (field; lra).
    exact Hle. }
  destruct H as [H | H].
  - left. apply exp_increasing. exact H.
  - rewrite H. right. reflexivity.
Qed.

Lemma nearest_even_error (y : R) : Rabs (IZR (nearest_even y) - y) <= / 2.
Proof.
  unfold nearest_even.
  destruct (base_Int_part y) as [H1 H2].
  destruct (Rlt_dec (y - IZR (Int_part y)) (/ 2)) as [Hlt | Hge].
  - apply Rabs_le. lra.
  - destruct (Rlt_dec (/ 2) (y - IZR (Int_part y))) as [Hgt | Hle].
    + rewrite plus_IZR. apply Rabs_le. lra.
    + destruct (Z.even (Int_part y)).
      * apply Rabs_le. lra.
      * rewrite plus_IZR. apply Rabs_le. lra.
Qed.

Lemma nearest_even_0 : nearest_even 0 = 0%Z.
Proof.
  unfold nearest_even.
  assert (H : Int_part 0 = 0%Z)
    by (symmetry; apply Int_part_spec; simpl; lra).
  rewrite H. simpl.
  destruct (Rlt_dec (0 - 0) (/ 2)) as [_ | Hn]; [reflexivity | lra].
Qed.

Lemma double_0 : double 0 = 0.
Proof.
  unfold double. unfold Rdiv. rewrite Rmult_0_l, nearest_even_0. simpl. lra.
Qed.

(** Rounding to a double changes a number by at most half a unit in its
    last place: [2^-53] of its magnitude, or [2^-1075] near zero. *)
Lemma double_error (x : R) :
  Rabs (double x - x) <= bpow (-53) * Rabs x + bpow (-1075).
Proof.
  unfold double. set (q := quantum x).
  pose proof (bpow_pos q) as Hq.
  pose proof (nearest_even_error (x / bpow q)) as Hn.
  assert (Herr : Rabs (IZR (nearest_even (x / bpow q)) * bpow q - x)
                 <= bpow q / 2).
  { replace (IZR (nearest_even (x / bpow q)) * bpow q - x)
      with ((IZR (nearest_even (x / bpow q)) - x / bpow q) * bpow q)
      by (field; lra).
    rewrite Rabs_mult, (Rabs_pos_eq (bpow q)) by lra.
    apply (Rmult_le_compat_r (bpow q)) in Hn; lra. }
  pose proof (bpow_pos (-1075)) as Hmin.
  pose proof (bpow_pos (-53)) as Hu.
  pose proof (Rabs_pos x) as Hax.
  destruct (Req_dec x 0) as [-> | Hx].
  { rewrite Rabs_R0. unfold Rdiv in *. rewrite Rmult_0_l in *.
    rewrite nearest_even_0. rewrite Rmult_0_l, Rminus_0_r, Rabs_R0. lra. }
  pose proof (mag_spec x Hx) as Hmag.
  assert (Hhalf : forall e, bpow e / 2 = bpow (e - 1)).
  { intros e. replace e with ((e - 1) + 1)%Z at 1 by lia.
    rewrite bpow_add. unfold bpow at 2. simpl. field. }
  unfold q, quantum in *.
  destruct (Z.max_spec (mag x - 53) (-1074)) as [[Hlt Hmax] | [Hle Hmax]];
    rewrite Hmax in *.
  - rewrite Hhalf in Herr. replace (-1074 - 1)%Z with (-1075)%Z in Herr by lia.
    nra.
  - rewrite Hhalf in Herr.
    replace (mag x - 53 - 1)%Z with (-53 + (mag x - 1))%Z in Herr by lia.
    rewrite bpow_add in Herr.
    assert (bpow (-53) * bpow (mag x - 1) <= bpow (-53) * Rabs x)
      by (apply Rmult_le_compat_l; lra).
    lra.
Qed.

(** The same, for a number of magnitude at most [X]. *)
Lemma double_near (x X : R) :
  Rabs x <= X ->
  Rabs (double x - x)
  <= X / 9007199254740992 + / 1000000000000000000000000000000.
Proof.
  intros Hx. pose proof (double_error x) as H.
  rewrite bpow_53 in H. pose proof bpow_1075. lra.
Qed.

Lemma Math_cos_spec : cos_accurate Math_cos.
Proof.
  unfold Math_cos. apply epsilon_spec. exists cos.
  intros x _. replace (cos x - cos x) with 0 by lra.
  rewrite Rabs_R0. left. apply bpow_pos.
Qed.

(** [Math.PI] against pi. *)
Lemma Math_PI_precise : Rabs (Math_PI - PI) <= / 1000000000000000.
Proof.
  pose proof (PI_2_3_7_ineq 8) as [Hlo Hhi].
  unfold sum_f_R0, tg_alt, PI_2_3_7_tg, Ratan_seq in Hlo, Hhi.
  simpl in Hlo, Hhi. unfold Math_PI. apply Rabs_le. split; lra.
Qed.

Lemma sin_abs_le (x : R) : Rabs (sin x) <= Rabs x.
Proof.
  destruct (Rtotal_order x 0) as [Hneg | [-> | Hpos]].
  - pose proof (sin_gt_x x Hneg). pose proof (SIN_bound x).
    rewrite (Rabs_left x) by lra. apply Rabs_le.
    destruct (Rle_or_lt (-1) x).
    + split; [lra |].
      assert (sin x < 0); [| lra].
      apply sin_lt_0_var; pose proof PI2_1; lra.
    + lra.
  - rewrite sin_0, Rabs_R0. lra.
  - pose proof (sin_lt_x x Hpos). pose proof (SIN_bound x).
    rewrite (Rabs_pos_eq x) by lra. apply Rabs_le.
    destruct (Rle_or_lt x 1).
    + split; [| lra].
      assert (0 < sin x); [| lra].
      apply sin_gt_0; pose proof PI2_1; lra.
    + lra.
Qed.

Lemma cos_lipschitz (p q : R) : Rabs (cos p - cos q) <= Rabs (p - q).
Proof.
  rewrite form2. rewrite !Rabs_mult.
  pose proof (sin_abs_le ((p - q) / 2)) as H1.
  pose proof (SIN_bound ((p + q) / 2)) as H2.
  assert (H3 : Rabs (sin ((p + q) / 2)) <= 1) by (apply Rabs_le; lra).
  assert (H4 : Rabs ((p - q) / 2) = Rabs (p - q) / 2).
  { unfold Rdiv. rewrite Rabs_mult. rewrite (Rabs_pos_eq (/ 2)) by lra.
    reflexivity. }
  rewrite H4 in H1. rewrite (Rabs_left (-2)) by lra.
  pose proof (Rabs_pos (sin ((p - q) / 2))).
  pose proof (Rabs_pos (sin ((p + q) / 2))).
  nra.
Qed.

Lemma Rabs_le_elim (x e : R) : Rabs x <= e -> - e <= x <= e.
Proof.
  intros H. pose proof (Rle_abs x). pose proof (Rle_abs (- x)) as H1.
  rewrite Rabs_Ropp in H1. lra.
Qed.

(** The error of a product of two approximations. *)
Lemma mul_error (x x' y y' ex ey X Y : R) :
  Rabs (x' - x) <= ex -> Rabs (y' - y) <= ey ->
  Rabs x <= X -> Rabs y' <= Y ->
  Rabs (x' * y' - x * y) <= ex * Y + X * ey.
Proof.
  intros Hx Hy HX HY.
  replace (x' * y' - x * y) with ((x' - x) * y' + x * (y' - y)) by ring.
  eapply Rle_trans; [apply Rabs_triang |].
  rewrite !Rabs_mult.
  pose proof (Rabs_pos (x' - x)). pose proof (Rabs_pos (y' - y)).
  pose proof (Rabs_pos x). pose proof (Rabs_pos y').
  apply Rplus_le_compat; apply Rmult_le_compat; lra.
Qed.

(** The product of the two sides as [finishDrawing] computes it, every
    operation rounded, against the exact product of the specification:
    for latitudes within 90 degrees they differ by less than a hundred
    millionth per degree of longitude spanned. *)
Lemma area_error (W S E N : R) :
  -90 <= S <= 90 -> -90 <= N <= 90 ->
  Rabs
    (fmul (fmul (Rabs (fsub N S)) 111)
       (fmul (fmul (Rabs (fsub E W)) 111)
          (Math_cos (fdiv (fmul (fdiv (fadd S N) 2) Math_PI) 180)))
     - Rabs (N - S) * 111 * Rabs (E - W) * 111
       * cos ((N + S) / 2 * PI / 180))
  <= (Rabs (E - W) + 1) / 100000000.
Proof.
  intros HS HN. unfold fmul, fsub, fadd, fdiv.
  set (u := / 9007199254740992).
  set (tau := / 1000000000000000000000000000000).
  pose proof (Rabs_pos (E - W)) as HB. set (B := Rabs (E - W)) in *.
  (* the latitude side *)
  set (a1 := double (N - S)).
  assert (Ha1 : Rabs (a1 - (N - S)) <= 21 / 1000000000000000).
  { eapply Rle_trans; [apply (double_near _ 180); apply Rabs_le; lra |].
    lra. }
  assert (HA : Rabs (Rabs a1 - Rabs (N - S)) <= 21 / 1000000000000000)
    by (eapply Rle_trans; [apply Rabs_triang_inv2 | exact Ha1]).
  assert (HA0 : 0 <= Rabs (N - S) <= 180)
    by (split; [apply Rabs_pos | apply Rabs_le; lra]).
  apply Rabs_le_elim in HA.
  set (A0 := Rabs (N - S)) in *. set (A := Rabs a1) in *.
  set (dLat := double (A * 111)).
  assert (HdLat : Rabs (dLat - A0 * 111) <= 46 / 10000000000000).
  { pose proof (double_near (A * 111) 20091) as H.
    assert (H0 : Rabs (A * 111) <= 20091) by (apply Rabs_le; lra).
    specialize (H H0). apply Rabs_le_elim in H. fold dLat in H.
    apply Rabs_le. lra. }
  (* the longitude side *)
  set (b1 := double (E - W)).
  assert (Hb1 : Rabs (b1 - (E - W)) <= B * u + tau)
    by (apply double_near; unfold B; lra).
  assert (HBt : Rabs (Rabs b1 - B) <= B * u + tau)
    by (eapply Rle_trans; [apply Rabs_triang_inv2 | exact Hb1]).
  apply Rabs_le_elim in HBt.
  pose proof (Rabs_pos b1) as HBt0. set (Bt := Rabs b1) in *.
  set (b2 := double (Bt * 111)).
  assert (Hb2 : Rabs (b2 - B * 111)
                <= 25 / 1000000000000000 * B
                   + 2 / 10000000000000000000000000000).
  { pose proof (double_near (Bt * 111) ((B + B * u + tau) * 111)) as H.
    assert (H0 : Rabs (Bt * 111) <= (B + B * u + tau) * 111)
      by (apply Rabs_le; lra).
    specialize (H H0). apply Rabs_le_elim in H. fold b2 in H.
    apply Rabs_le. unfold u, tau in *. lra. }
  (* the cosine of the centre latitude *)
  set (c0 := double (S + N)).
  assert (Hc0 : Rabs (c0 - (S + N)) <= 21 / 1000000000000000).
  { eapply Rle_trans; [apply (double_near _ 180); apply Rabs_le; lra |].
    lra. }
  apply Rabs_le_elim in Hc0.
  set (c := double (c0 / 2)).
  assert (Hc : Rabs (c - (N + S) / 2) <= 21 / 1000000000000000).
  { pose proof (double_near (c0 / 2) (901 / 10)) as H.
    assert (H0 : Rabs (c0 / 2) <= 901 / 10) by (apply Rabs_le; lra).
    specialize (H H0). apply Rabs_le_elim in H. fold c in H.
    apply Rabs_le. lra. }
  pose proof Math_PI_precise as HPI. apply Rabs_le_elim in HPI.
  assert (HPId : 31415 / 10000 < Math_PI < 31416 / 10000)
    by (unfold Math_PI; lra).
  assert (HcPI : Rabs (c * Math_PI - (N + S) / 2 * PI)
                 <= 157 / 1000000000000000).
  { pose proof (mul_error ((N + S) / 2) c PI Math_PI
                  (21 / 1000000000000000) (/ 1000000000000000)
                  90 (31416 / 10000)) as H.
    assert (H1 : Rabs (Math_PI - PI) <= / 1000000000000000)
      by (apply Rabs_le; lra).
    assert (H2 : Rabs ((N + S) / 2) <= 90) by (apply Rabs_le; lra).
    assert (H3 : Rabs Math_PI <= 31416 / 10000) by (apply Rabs_le; lra).
    specialize (H Hc H1 H2 H3). lra. }
  apply Rabs_le_elim in Hc. apply Rabs_le_elim in HcPI.
  set (t1 := double (c * Math_PI)).
  assert (Ht1 : Rabs (t1 - (N + S) / 2 * PI) <= 19 / 100000000000000).
  { pose proof (double_near (c * Math_PI) 284) as H.
    assert (H0 : Rabs (c * Math_PI) <= 284).
    { apply Rabs_le. pose proof PI_RGT_0.
      assert (-90 * PI <= (N + S) / 2 * PI <= 90 * PI) by nra.
      lra. }
    specialize (H H0). apply Rabs_le_elim in H. fold t1 in H.
    apply Rabs_le. lra. }
  apply Rabs_le_elim in Ht1.
  assert (Hth : Rabs ((N + S) / 2 * PI / 180) <= 158 / 100).
  { apply Rabs_le. pose proof PI_RGT_0.
    assert (-90 * PI <= (N + S) / 2 * PI <= 90 * PI) by nra. lra. }
  apply Rabs_le_elim in Hth.
  set (theta := (N + S) / 2 * PI / 180) in *.
  set (t := double (t1 / 180)).
  assert (Ht : Rabs (t - theta) <= 13 / 10000000000000000).
  { pose proof (double_near (t1 / 180) (159 / 100)) as H.
    assert (H0 : Rabs (t1 / 180) <= 159 / 100)
      by (apply Rabs_le; unfold theta in Hth; lra).
    specialize (H H0). apply Rabs_le_elim in H. fold t in H.
    apply Rabs_le. unfold theta in *. lra. }
  assert (Hk : Rabs (Math_cos t - cos theta) <= 16 / 10000000000000000).
  { pose proof (Math_cos_spec t) as H. rewrite bpow_52 in H.
    apply Rabs_le_elim in Ht.
    assert (H0 : Rabs t <= 4) by (apply Rabs_le; lra).
    specialize (H H0). pose proof (cos_lipschitz t theta) as H1.
    apply Rabs_le_elim in H.
    assert (H2 : Rabs (cos t - cos theta) <= 13 / 10000000000000000)
      by (eapply Rle_trans; [exact H1 | apply Rabs_le; lra]).
    apply Rabs_le_elim in H2. apply Rabs_le. lra. }
  pose proof (COS_bound theta) as Hcos.
  set (k := Math_cos t) in *. set (ct := cos theta) in *.
  assert (Hk1 : Rabs k <= 1001 / 1000)
    by (apply Rabs_le_elim in Hk; apply Rabs_le; lra).
  (* the longitude side, with the cosine *)
  assert (Hb2k : Rabs (b2 * k - B * 111 * ct)
                 <= 203 / 1000000000000000 * B
                    + 3 / 10000000000000000000000000000).
  { pose proof (mul_error (B * 111) b2 ct k _ _ (B * 111) (1001 / 1000)
                  Hb2 Hk) as H.
    assert (H1 : Rabs (B * 111) <= B * 111) by (apply Rabs_le; lra).
    specialize (H H1 Hk1). lra. }
  apply Rabs_le_elim in Hb2k.
  assert (Hctb : - (B * 111) <= B * 111 * ct <= B * 111) by nra.
  set (dLng := double (b2 * k)).
  assert (HdLng : Rabs (dLng - B * 111 * ct)
                  <= 22 / 100000000000000 * B
                     + 4 / 10000000000000000000000000000).
  { pose proof (double_near (b2 * k)
                  (112 * B + / 1000000000000000000000000000)) as H.
    assert (H0 : Rabs (b2 * k) <= 112 * B + / 1000000000000000000000000000)
      by (apply Rabs_le; lra).
    specialize (H H0). apply Rabs_le_elim in H. fold dLng in H.
    apply Rabs_le. lra. }
  assert (HdLng1 : Rabs dLng <= 112 * B + / 1000000000000000000000000000)
    by (apply Rabs_le_elim in HdLng; apply Rabs_le; lra).
  (* the product *)
  assert (Hprod : Rabs (dLat * dLng - A0 * 111 * (B * 111 * ct))
                  <= 5 / 1000000000 * B
                     + / 100000000000000000000).
  { pose proof (mul_error (A0 * 111) dLat (B * 111 * ct) dLng _ _
                  19980 (112 * B + / 1000000000000000000000000000)
                  HdLat HdLng) as H.
    assert (H1 : Rabs (A0 * 111) <= 19980) by (apply Rabs_le; lra).
    specialize (H H1 HdLng1). lra. }
  apply Rabs_le_elim in Hprod. apply Rabs_le_elim in HdLat.
  apply Rabs_le_elim in HdLng1.
  assert (Hmag : Rabs (dLat * dLng)
                 <= 19981 * (112 * B + / 1000000000000000000000000000)).
  { rewrite Rabs_mult. apply Rmult_le_compat; try apply Rabs_pos.
    - apply Rabs_le. lra.
    - apply Rabs_le. lra. }
  pose proof (double_near (dLat * dLng) _ Hmag) as H.
  apply Rabs_le_elim in H.
  replace (A0 * 111 * B * 111 * ct) with (A0 * 111 * (B * 111 * ct)) by ring.
  apply Rabs_le. lra.
Qed.

(** **** Rounding to hundredths *)

(** [toFixed(2)] prints the multiple of 0.01 nearest to the number. *)
Lemma hundredths_near (x : number) :
  Rabs (IZR (hundredths x) / 100 - x) <= 1 / 200.
Proof.
  unfold hundredths, nearest_hundredth.
  destruct (Rlt_dec x 0) as [Hneg | Hpos].
  - destruct (base_Int_part (- x * 100 + / 2)) as [H1 H2].
    rewrite opp_IZR. apply Rabs_le. lra.
  - destruct (base_Int_part (x * 100 + / 2)) as [H1 H2].
    apply Rabs_le. lra.
Qed.

Lemma hundredths_eq (x : number) (n : Z) :
  0 <= x ->
  IZR n - / 2 <= x * 100 < IZR n + / 2 ->
  hundredths x = n.
Proof.
  intros Hx Hn. unfold hundredths, nearest_hundredth.
  destruct (Rlt_dec x 0) as [Hneg | _]; [lra |].
  symmetry. apply Int_part_spec. lra.
Qed.

Lemma hundredths_zero (x : number) :
  Rabs x < 1 / 200 -> hundredths x = 0%Z.
Proof.
  intros Hx. unfold hundredths, nearest_hundredth.
  assert (H : - (1 / 200) < x < 1 / 200).
  { pose proof (Rle_abs x). pose proof (Rle_abs (- x)) as H1.
    rewrite Rabs_Ropp in H1. lra. }
  destruct (Rlt_dec x 0) as [Hneg | Hpos].
  - rewrite <- (Int_part_spec (- x * 100 + / 2) 0); [reflexivity |].
    simpl. lra.
  - symmetry. apply Int_part_spec. simpl. lra.
Qed.

Lemma hundredths_nonneg (x : number) :
  - (1 / 200) < x -> (0 <= hundredths x)%Z.
Proof.
  intros Hx.
  destruct (Rlt_dec x (1 / 200)) as [Hsmall | Hbig].
  - rewrite hundredths_zero; [lia |]. apply Rabs_def1; lra.
  - unfold hundredths, nearest_hundredth.
    destruct (Rlt_dec x 0) as [Hneg | _]; [lra |].
    destruct (base_Int_part (x * 100 + / 2)) as [_ Hlow].
    assert (H1 : IZR (-1) < IZR (Int_part (x * 100 + / 2))) by lra.
    apply lt_IZR in H1. lia.
Qed.

(** **** The area of committed bounds *)

Lemma latLngBounds_lat (start p : LatLng) :
  -90 <= lat start <= 90 -> -90 <= lat p <= 90 ->
  -90 <= getSouth (latLngBounds start p) <= 90
  /\ -90 <= getNorth (latLngBounds start p) <= 90.
Proof.
  intros Hs Hp.
  unfold getSouth, getNorth, latLngBounds, extend, Math_min, Math_max; simpl.
  unfold Rmin, Rmax. destruct (Rle_dec (lat p) (lat start)); lra.
Qed.

Lemma latLngBounds_west_east (start p : LatLng) :
  getWest (latLngBounds start p) <= getEast (latLngBounds start p).
Proof.
  unfold getWest, getEast, latLngBounds, extend, Math_min, Math_max; simpl.
  unfold Rmin, Rmax. destruct (Rle_dec (lng p) (lng start)); lra.
Qed.

Lemma Rmax_minus_Rmin (x y : R) : Rmax x y - Rmin x y = Rabs (y - x).
Proof.
  unfold Rmax, Rmin. destruct (Rle_dec x y).
  - rewrite Rabs_pos_eq; lra.
  - rewrite Rabs_left1; lra.
Qed.

Lemma latLngBounds_width (start p : LatLng) :
  getEast (latLngBounds start p) - getWest (latLngBounds start p)
  = Rabs (lng p - lng start).
Proof.
  unfold getEast, getWest, latLngBounds, extend, Math_min, Math_max; simpl.
  rewrite Rmax_minus_Rmin. apply Rabs_minus_sym.
Qed.

(** The product that [finishDrawing] rounds to hundredths, against the
    formula of the specification. *)
Lemma product_near_area_spec (start p : LatLng) :
  -90 <= lat start <= 90 -> -90 <= lat p <= 90 ->
  Rabs (fmul (dLatKm (latLngBounds start p)) (dLngKm (latLngBounds start p))
        - area_spec (getWest (latLngBounds start p))
            (getSouth (latLngBounds start p))
            (getEast (latLngBounds start p))
            (getNorth (latLngBounds start p)))
  <= (getEast (latLngBounds start p) - getWest (latLngBounds start p) + 1)
     / 100000000.
Proof.
  intros Hs Hp.
  destruct (latLngBounds_lat start p Hs Hp) as [HS HN].
  pose proof (latLngBounds_west_east start p) as HWE.
  pose proof (area_error (getWest (latLngBounds start p))
                (getSouth (latLngBounds start p))
                (getEast (latLngBounds start p))
                (getNorth (latLngBounds start p)) HS HN) as H.
  rewrite (Rabs_pos_eq (getEast (latLngBounds start p)
                        - getWest (latLngBounds start p))) in H at 2 by lra.
  exact H.
Qed.

(** The area displayed is the double nearest to a multiple of 0.01 that
    is within 0.005 of the product computed, and so of the formula. *)
Lemma areaOf_near (start p : LatLng) :
  -90 <= lat start <= 90 -> -90 <= lat p <= 90 ->
  exists n : Z,
    areaOf (latLngBounds start p) = double (IZR n / 100)
    /\ Rabs (IZR n / 100
             - area_spec (getWest (latLngBounds start p))
                 (getSouth (latLngBounds start p))
                 (getEast (latLngBounds start p))
                 (getNorth (latLngBounds start p)))
       <= 1 / 200
          + (getEast (latLngBounds start p) - getWest (latLngBounds start p)
             + 1) / 100000000.
Proof.
  intros Hs Hp.
  pose proof (product_near_area_spec start p Hs Hp) as Hprod.
  pose proof (hundredths_near
                (fmul (dLatKm (latLngBounds start p))
                   (dLngKm (latLngBounds start p)))) as Hnear.
  exists (hundredths (fmul (dLatKm (latLngBounds start p))
                        (dLngKm (latLngBounds start p)))).
  split; [reflexivity |].
  apply Rabs_le_elim in Hprod. apply Rabs_le_elim in Hnear.
  apply Rabs_le. lra.
Qed.

Lemma scenario1_bounds :
  selection (latLngBounds DrawScenario.southWest1 DrawScenario.northEast1)
  = Scenario.bounds1.
Proof.
  unfold selection, getWest, getSouth, getEast, getNorth, latLngBounds,
    extend, Math_min, Math_max, Scenario.bounds1; simpl.
  f_equal.
  - unfold Rmin; destruct (Rle_dec _ _); lra.
  - unfold Rmin; destruct (Rle_dec _ _); lra.
  - unfold Rmax; destruct (Rle_dec _ _); lra.
  - unfold Rmax; destruct (Rle_dec _ _); lra.
Qed.

Lemma scenario1_area_spec :
  4.673 < area_spec 73.80 18.50 73.82 18.52 < 4.674.
Proof.
  unfold area_spec.
  rewrite (Rabs_pos_eq (18.52 - 18.50)) by lra.
  rewrite (Rabs_pos_eq (73.82 - 73.80)) by lra.
  replace ((18.52 + 18.50) / 2 * PI / 180) with (1851 / 100 * PI / 180)
    by lra.
  pose proof cos_scenario1 as Hcos. lra.
Qed.

(** The area displayed for the bounds of the first scenario: the double
    written 4.67. *)
Lemma scenario1_area :
  areaOf (latLngBounds DrawScenario.southWest1 DrawScenario.northEast1)
  = double (467 / 100).
Proof.
  pose proof (product_near_area_spec DrawScenario.southWest1
                DrawScenario.northEast1) as H.
  pose proof scenario1_bounds as Hb. unfold selection in Hb.
  inversion Hb as [[Hw Hs He Hn]]. rewrite Hw, Hs, He, Hn in H.
  pose proof scenario1_area_spec as Hspec.
  assert (H1 : -90 <= lat DrawScenario.southWest1 <= 90) by (simpl; lra).
  assert (H2 : -90 <= lat DrawScenario.northEast1 <= 90) by (simpl; lra).
  specialize (H H1 H2). apply Rabs_le_elim in H.
  unfold areaOf, Number_toFixed2.
  rewrite (hundredths_eq _ 467); [reflexivity | lra | lra].
Qed.

Lemma double_467_468 : double (467 / 100) <> double (468 / 100).
Proof.
  pose proof (double_near (467 / 100) 5) as H1.
  pose proof (double_near (468 / 100) 5) as H2.
  assert (Ha : Rabs (467 / 100) <= 5) by (apply Rabs_le; lra).
  assert (Hb : Rabs (468 / 100) <= 5) by (apply Rabs_le; lra).
  specialize (H1 Ha). specialize (H2 Hb).
  apply Rabs_le_elim in H1. apply Rabs_le_elim in H2.
  intros Heq. rewrite Heq in H1. lra.
Qed.

Lemma scenario1_not_degenerate :
  degenerate (latLngBounds DrawScenario.southWest1 DrawScenario.northEast1)
  = false.
Proof.
  rewrite latLngBounds_comm. exact scenario_not_degenerate.
Qed.

Lemma scenario1_run :
  snd (run initialStore
         (draw DrawScenario.southWest1 [] DrawScenario.northEast1))
  = [None; Some Scenario.bounds1]
  /\ areaKm2 (fst (run initialStore
                     (draw DrawScenario.southWest1 [] DrawScenario.northEast1)))
     = Some (double (467 / 100)).
Proof.
  destruct (run_draw initialStore DrawScenario.southWest1
              DrawScenario.northEast1 []) as [H1 H2].
  rewrite H1, H2, scenario1_not_degenerate, scenario1_bounds.
  split; [reflexivity |].
  rewrite scenario1_area. reflexivity.
Qed.

(** C4 (as amended).  When a draw is committed between corners at valid
    latitudes and at most 360 degrees of longitude apart, the bounds
    emitted are the ones spanned by the two corners and the area displayed
    is a multiple of 0.01 (the double written with those two decimals)
    that differs from
    [|north - south| * 111 * |east - west| * 111 * cos(((north + south) / 2) * pi / 180)]
    by at most 0.005 plus the rounding error of the double arithmetic,
    itself below 0.00001.  For the bounds west 73.80, south 18.50, east
    73.82, north 18.52 the area displayed is 4.67. *)
Theorem committed_area_formula (s : Store) (start p : LatLng) :
  drawState s = Drawing start ->
  degenerate (latLngBounds start p) = false ->
  -90 <= lat start <= 90 -> -90 <= lat p <= 90 ->
  Rabs (lng p - lng start) <= 360 ->
  snd (step s (mouseup p)) = [Some (selection (latLngBounds start p))]
  /\ (exists n : Z,
         areaKm2 (fst (step s (mouseup p))) = Some (double (IZR n / 100))
         /\ Rabs (IZR n / 100
                  - area_spec (west (selection (latLngBounds start p)))
                      (south (selection (latLngBounds start p)))
                      (east (selection (latLngBounds start p)))
                      (north (selection (latLngBounds start p))))
            <= 1 / 200 + 1 / 100000)
  /\ snd (run initialStore
            (draw DrawScenario.southWest1 [] DrawScenario.northEast1))
     = [None; Some Scenario.bounds1]
  /\ areaKm2 (fst (run initialStore
                     (draw DrawScenario.southWest1 []
                        DrawScenario.northEast1)))
     = Some (double (467 / 100)).
Proof.
  intros Hdraw Hdeg Hlat1 Hlat2 Hwide.
  apply drawState_Drawing in Hdraw as [Hd Hstart].
  destruct (finishDrawing_result start p s Hd Hstart) as [Harea Hout].
  rewrite Hdeg in Harea, Hout.
  destruct (areaOf_near start p Hlat1 Hlat2) as (n & Hn & Hnear).
  rewrite latLngBounds_width in Hnear.
  destruct scenario1_run as [Hrun1 Hrun2].
  unfold step.
  split; [exact Hout |].
  split; [| split; assumption].
  exists n. split; [rewrite Harea, Hn; reflexivity |].
  simpl. lra.
Qed.

Lemma committed_area_formula_witness :
  drawState DrawScenario.drawingStore = Drawing DrawScenario.southWest1
  /\ degenerate (latLngBounds DrawScenario.southWest1
                   DrawScenario.northEast1) = false
  /\ -90 <= lat DrawScenario.southWest1 <= 90
  /\ -90 <= lat DrawScenario.northEast1 <= 90
  /\ Rabs (lng DrawScenario.northEast1 - lng DrawScenario.southWest1) <= 360
  /\ snd (step DrawScenario.drawingStore (mouseup DrawScenario.northEast1))
     = [Some (selection (latLngBounds DrawScenario.southWest1
                           DrawScenario.northEast1))].
Proof.
  assert (H1 : -90 <= lat DrawScenario.southWest1 <= 90) by (simpl; lra).
  assert (H2 : -90 <= lat DrawScenario.northEast1 <= 90) by (simpl; lra).
  assert (H3 : Rabs (lng DrawScenario.northEast1
                     - lng DrawScenario.southWest1) <= 360)
    by (simpl; apply Rabs_le; lra).
  split; [exact drawState_drawingStore |].
  split; [exact scenario1_not_degenerate |].
  split; [exact H1 |]. split; [exact H2 |]. split; [exact H3 |].
  destruct (committed_area_formula DrawScenario.drawingStore
              DrawScenario.southWest1 DrawScenario.northEast1
              drawState_drawingStore scenario1_not_degenerate H1 H2 H3)
    as (H & _).
  exact H.
Defined.

(** C4 fails as stated: for the bounds west 73.80, south 18.50, east 73.82,
    north 18.52 the product lies between 4.673 and 4.674 and the area
    displayed is 4.67, not 4.68. *)
Lemma scenario1_area_is_not_4_68 :
  snd (run initialStore
         (draw DrawScenario.southWest1 [] DrawScenario.northEast1))
  = [None; Some Scenario.bounds1]
  /\ 4.673 < area_spec 73.80 18.50 73.82 18.52 < 4.674
  /\ areaKm2 (fst (run initialStore
                     (draw DrawScenario.southWest1 []
                        DrawScenario.northEast1)))
     = Some (double (467 / 100))
  /\ areaKm2 (fst (run initialStore
                     (draw DrawScenario.southWest1 []
                        DrawScenario.northEast1)))
     <> Some (double (468 / 100)).
Proof.
  destruct scenario1_run as [H1 H2].
  split; [exact H1 |].
  split; [exact scenario1_area_spec |].
  split; [exact H2 |].
  rewrite H2. intros H. inversion H as [Heq].
  exact (double_467_468 Heq).
Qed.

End DrawingController.

(** * Further properties *)

(** ** The orchestrator, continued *)

Section OrchestratorRaces.

Import VisualizationSection.

Lemma remove_nth_last {A : Type} (l : list A) (x : A) :
  remove_nth (List.length l) (l ++ [x]) = l.
Proof.
  induction l as [| y l IH]; simpl; [reflexivity | rewrite IH; reflexivity].
Qed.

Lemma remove_nth_app_r {A : Type} (l l' : list A) (j : nat) :
  remove_nth (List.length l + j) (l ++ l') = (l ++ remove_nth j l')%list.
Proof.
  induction l as [| y l IH]; simpl; [reflexivity | rewrite IH; reflexivity].
Qed.

Lemma nth_error_last {A : Type} (l : list A) (x : A) :
  nth_error (l ++ [x]) (List.length l) = Some x.
Proof.
  rewrite nth_error_app2 by lia. rewrite Nat.sub_diag. reflexivity.
Qed.

(** A request settling in a world where its continuation is the rest of
    [handleAOISelected]. *)
Lemma step_Settled_at (w : World) (i : nat) (req : Request)
  (outcome : Outcome) :
  nth_error (inflight w) i = Some (req, afterFetch) ->
  step w (Settled i outcome)
  = settledWorld outcome
      {| store := store w; inflight := remove_nth i (inflight w);
         log := log w; unhandled := unhandled w |}.
Proof.
  intros Hnth. unfold step. rewrite Hnth. apply exec_afterFetch.
Qed.

(** X1.  Two selections in a row, then the answers arrive in the reverse
    order: once the answer to the second has arrived the loading flag is
    off although the first request is still in flight, and the answer to
    the first, arriving last, replaces the result of the second. *)
Theorem superseded_response_overwrites
  (w : World) (b1 b2 : AOIBounds) (r1 r2 : Response) (d1 d2 : json) :
  ok r1 = true -> json_body r1 = inr d1 ->
  ok r2 = true -> json_body r2 = inr d2 ->
  let w2 := step (step w (AOISelected (Some b1))) (AOISelected (Some b2)) in
  let w3 := step w2 (Settled (S (List.length (inflight w))) (inr r2)) in
  let w4 := step w3 (Settled (List.length (inflight w)) (inr r1)) in
  analysisResult (store w3) = d2
  /\ isLoading (store w3) = false
  /\ (inflight w3 = inflight w ++ [(analysisRequest b1, afterFetch)])%list
  /\ analysisResult (store w4) = d1
  /\ isLoading (store w4) = false
  /\ error (store w4) = None
  /\ inflight w4 = inflight w.
Proof.
  intros Hok1 Hb1 Hok2 Hb2 w2 w3 w4.
  assert (Hw2 : inflight w2
                = (inflight w ++ [(analysisRequest b1, afterFetch);
                                  (analysisRequest b2, afterFetch)])%list).
  { unfold w2. rewrite !step_AOISelected_bounds; simpl.
    rewrite <- app_assoc. reflexivity. }
  assert (Hs2 : store w2 = {| activeTab := "imagery"; isLoading := true;
                              analysisResult := JNull; error := None |}).
  { unfold w2. rewrite !step_AOISelected_bounds. reflexivity. }
  assert (Hw3 : w3 = settledWorld (inr r2)
                       {| store := store w2;
                          inflight := (inflight w
                                       ++ [(analysisRequest b1, afterFetch)])%list;
                          log := log w2; unhandled := unhandled w2 |}).
  { unfold w3.
    rewrite (step_Settled_at w2 (S (List.length (inflight w)))
               (analysisRequest b2) (inr r2)).
    - rewrite Hw2.
      replace (S (List.length (inflight w))) with (List.length (inflight w) + 1)
        by lia.
      rewrite remove_nth_app_r. reflexivity.
    - rewrite Hw2, nth_error_app2 by lia.
      replace (S (List.length (inflight w)) - List.length (inflight w)) with 1 by lia.
      reflexivity. }
  assert (H3 : store w3 = {| activeTab := "imagery"; isLoading := false;
                             analysisResult := d2; error := None |}
               /\ inflight w3
                  = (inflight w ++ [(analysisRequest b1, afterFetch)])%list).
  { rewrite Hw3. unfold settledWorld.
    rewrite (guarded_ok r2 d2 Hok2 Hb2).
    cbn [store inflight]. rewrite Hs2. split; reflexivity. }
  destruct H3 as [Hs3 Hi3].
  assert (Hw4 : w4 = settledWorld (inr r1)
                       {| store := store w3; inflight := inflight w;
                          log := log w3; unhandled := unhandled w3 |}).
  { unfold w4.
    rewrite (step_Settled_at w3 (List.length (inflight w))
               (analysisRequest b1) (inr r1)).
    - rewrite Hi3, remove_nth_last. reflexivity.
    - rewrite Hi3. apply nth_error_last. }
  assert (Hs4 : store w4 = {| activeTab := "imagery"; isLoading := false;
                              analysisResult := d1; error := None |}
                /\ inflight w4 = inflight w).
  { rewrite Hw4. unfold settledWorld.
    rewrite (guarded_ok r1 d1 Hok1 Hb1).
    cbn [store inflight]. rewrite Hs3. split; reflexivity. }
  destruct Hs4 as [Hs4 Hi4].
  rewrite Hs3, Hi3, Hs4, Hi4. repeat split; reflexivity.
Qed.

Lemma superseded_response_overwrites_witness :
  ok Scenario.analysisReady = true
  /\ json_body Scenario.analysisReady = inr Scenario.analysis1
  /\ ok Scenario.analysisReady2 = true
  /\ json_body Scenario.analysisReady2 = inr Scenario.analysis2
  /\ Scenario.analysis1 <> Scenario.analysis2
  /\ analysisResult
       (store
          (step
             (step (step initialWorld (AOISelected (Some Scenario.bounds1)))
                (AOISelected (Some Scenario.bounds2)))
             (Settled 1 (inr Scenario.analysisReady2))))
     = Scenario.analysis2
  /\ analysisResult
       (store
          (step
             (step
                (step (step initialWorld (AOISelected (Some Scenario.bounds1)))
                   (AOISelected (Some Scenario.bounds2)))
                (Settled 1 (inr Scenario.analysisReady2)))
             (Settled 0 (inr Scenario.analysisReady))))
     = Scenario.analysis1.
Proof.
  split; [reflexivity |]. split; [reflexivity |].
  split; [reflexivity |]. split; [reflexivity |].
  split; [unfold Scenario.analysis1, Scenario.analysis2; congruence |].
  destruct (superseded_response_overwrites initialWorld
              Scenario.bounds1 Scenario.bounds2
              Scenario.analysisReady Scenario.analysisReady2
              Scenario.analysis1 Scenario.analysis2
              eq_refl eq_refl eq_refl eq_refl)
    as (H2 & _ & _ & H1 & _).
  split; [exact H2 | exact H1].
Defined.

(** X2.  Between two events, the loading flag is on only while a request
    is in flight. *)
Theorem loading_implies_request_in_flight (w : World) :
  reachable w -> isLoading (store w) = true -> inflight w <> [].
Proof.
  induction 1 as [| w e Hw IH]; [discriminate |].
  destruct e as [[bounds |] | tab | i outcome].
  - intros _. rewrite step_AOISelected_bounds; simpl.
    intros H. apply app_eq_nil in H as [_ H]. discriminate.
  - rewrite step_AOISelected_null; simpl. exact IH.
  - rewrite step_TabClick; simpl. exact IH.
  - destruct (nth_error (inflight w) i) as [[req k] |] eqn:Hnth.
    + rewrite (step_Settled w i req k outcome Hw Hnth).
      destruct (settledWorld_frame outcome
                  {| store := store w; inflight := remove_nth i (inflight w);
                     log := log w; unhandled := unhandled w |})
        as (_ & _ & _ & Hl & _).
      rewrite Hl. discriminate.
    + unfold step. rewrite Hnth. exact IH.
Qed.

Lemma loading_implies_request_in_flight_witness :
  reachable Scenario.loadingWorld
  /\ isLoading (store Scenario.loadingWorld) = true
  /\ inflight Scenario.loadingWorld <> [].
Proof.
  split; [exact reachable_loadingWorld |]. split; [reflexivity |].
  exact (loading_implies_request_in_flight Scenario.loadingWorld
           reachable_loadingWorld eq_refl).
Defined.

(** X3.  Between two events the active tab is one of the three tabs of the
    tab bar: exactly one button is highlighted, the one of the active tab,
    [renderContent] never falls to its default case, and no handler has
    let an error escape. *)
Theorem active_tab_is_one_of_three (w : World) :
  reachable w ->
  (exists tab, activeTab (store w) = tab_id tab)
  /\ List.map Views.tabId
       (filter Views.highlighted (Views.tabBar (store w)))
     = [activeTab (store w)]
  /\ renderContent (store w) <> NullView
  /\ unhandled w = [].
Proof.
  intros Hw. destruct (reachable_invariant w Hw) as (_ & _ & Hun & [tab Htab]).
  split; [exists tab; exact Htab |].
  split; [unfold Views.tabBar; rewrite Htab; destruct tab; reflexivity |].
  split; [| exact Hun].
  unfold renderContent. rewrite Htab.
  destruct tab; simpl;
    destruct (error (store w)) as [[| c m] |]; simpl;
      destruct (isLoading (store w)); discriminate.
Qed.

Lemma active_tab_is_one_of_three_witness :
  reachable Scenario.loadingWorld
  /\ renderContent (store Scenario.loadingWorld) <> NullView.
Proof.
  split; [exact reachable_loadingWorld |].
  apply (active_tab_is_one_of_three Scenario.loadingWorld
           reachable_loadingWorld).
Defined.

(** X4.  A successful answer does not clear an error: when an error is set
    (a concurrent request has failed) and another request succeeds, the
    data is stored but the state stays [Error] with the same message. *)
Theorem success_keeps_pending_error (w : World) (i : nat) (req : Request)
  (k : Outcome -> Prog unit) (r : Response) (data : json) (m : string) :
  reachable w ->
  nth_error (inflight w) i = Some (req, k) ->
  ok r = true -> json_body r = inr data ->
  error (store w) = Some m ->
  analysisResult (store (step w (Settled i (inr r)))) = data
  /\ error (store (step w (Settled i (inr r)))) = Some m
  /\ analysisState (store (step w (Settled i (inr r)))) = Error m.
Proof.
  intros Hw Hnth Hok Hb Herr.
  rewrite (step_Settled w i req k (inr r) Hw Hnth).
  unfold settledWorld. rewrite (guarded_ok r data Hok Hb); simpl.
  unfold analysisState; simpl. rewrite Herr. repeat split; reflexivity.
Qed.

Lemma success_keeps_pending_error_witness :
  reachable
    (step (step Scenario.loadingWorld (AOISelected (Some Scenario.bounds1)))
       (Settled 0 (inl Scenario.failedToFetch)))
  /\ analysisState
       (store
          (step
             (step
                (step Scenario.loadingWorld
                   (AOISelected (Some Scenario.bounds1)))
                (Settled 0 (inl Scenario.failedToFetch)))
             (Settled 0 (inr Scenario.analysisReady))))
     = Error "Failed to fetch".
Proof.
  assert (Hw : reachable
                 (step (step Scenario.loadingWorld
                          (AOISelected (Some Scenario.bounds1)))
                    (Settled 0 (inl Scenario.failedToFetch))))
    by (do 2 apply reachable_step; exact reachable_loadingWorld).
  split; [exact Hw |].
  apply (success_keeps_pending_error _ 0
           (analysisRequest Scenario.bounds1) afterFetch
           Scenario.analysisReady Scenario.analysis1 "Failed to fetch"
           Hw eq_refl eq_refl eq_refl eq_refl).
Defined.

End OrchestratorRaces.

(** ** Rendering *)

Section Rendering.

Import VisualizationSection.

(** What [renderContent] can return: the two result views are handed the
    stored result. *)
Lemma renderContent_cases (s : Store) :
  (exists m, renderContent s = ErrorState m)
  \/ (exists title subtitle, renderContent s = LoadingState title subtitle)
  \/ renderContent s = MapAOISelectorView
  \/ renderContent s = ImageComparison (analysisResult s)
  \/ renderContent s = ChangeDetectionOverlay (analysisResult s)
  \/ renderContent s = NullView.
Proof.
  unfold renderContent.
  destruct (String.eqb (activeTab s) "aoi"); simpl; [tauto |].
  destruct (error s) as [[| c m] |]; simpl;
    try (left; eexists; reflexivity);
    destruct (isLoading s); simpl;
      try (right; left; do 2 eexists; reflexivity);
      destruct (String.eqb (activeTab s) "imagery"); try tauto;
        destruct (String.eqb (activeTab s) "detection"); tauto.
Qed.

(** X20.  On the AOI tab [renderContent] shows the drawing surface.  On
    the two other tabs, unless the error message is the empty string, it
    shows the error view with the message when the state is [Error],
    otherwise the loading view when the state is [Loading], otherwise the
    view of the tab, fed the result or [null].  With the empty string as
    error message it selects the view as with no error set. *)
Theorem renderContent_follows_selection_rule (s : Store) (tab : Tab) :
  activeTab s = tab_id tab ->
  (error s <> Some EmptyString ->
   renderContent s = selectView_spec tab (analysisState s))
  /\ (error s = Some EmptyString ->
      renderContent s
      = selectView_spec tab (analysisState (apply (SetError None) s))).
Proof.
  destruct s as [t l r e]; simpl. intros ->.
  unfold renderContent, analysisState; simpl.
  split; intros He; destruct tab; simpl;
    destruct e as [[| c m] |]; try congruence; simpl;
      destruct l; simpl; try reflexivity;
        destruct r; reflexivity.
Qed.

Lemma renderContent_follows_selection_rule_witness :
  activeTab (store Scenario.loadingWorld) = tab_id Imagery
  /\ error (store Scenario.loadingWorld) <> Some EmptyString
  /\ renderContent (store Scenario.loadingWorld)
     = selectView_spec Imagery (analysisState (store Scenario.loadingWorld)).
Proof.
  assert (H : error (store Scenario.loadingWorld) <> Some EmptyString)
    by (simpl; discriminate).
  split; [reflexivity |]. split; [exact H |].
  destruct (renderContent_follows_selection_rule
              (store Scenario.loadingWorld) Imagery eq_refl) as [Hrule _].
  exact (Hrule H).
Defined.

Lemma ImageComparison_never_throws (result : json) (slider : Z) :
  exists view, Views.ImageComparison result slider = inr view.
Proof.
  unfold Views.ImageComparison.
  destruct result as [| b | z | str | items | members]; simpl;
    try destruct b; try destruct (strict_eq z 0%R); try destruct str; simpl;
      eexists; reflexivity.
Qed.

Lemma renderChild_total (s : Store) (slider : Z) :
  (exists view, Views.ChangeDetectionOverlay (analysisResult s) = inr view) ->
  exists child, Views.renderChild (renderContent s) slider = inr child.
Proof.
  intros [overlay Hov].
  destruct (renderContent_cases s)
    as [[m ->] | [(t & st & ->) | [-> | [-> | [-> | ->]]]]]; simpl;
    try (eexists; reflexivity).
  - destruct (ImageComparison_never_throws (analysisResult s) slider)
      as [view ->].
    eexists; reflexivity.
  - rewrite Hov. eexists; reflexivity.
Qed.

(** X5.  Without a result ([null], or any falsy value) rendering never
    throws, on any tab and in any state: the two cards show "Processing..."
    while loading and their hints otherwise, also after a failure. *)
Theorem render_without_result_never_throws (s : Store) (slider : Z) :
  truthy (analysisResult s) = false ->
  exists page,
    Views.render s slider = inr page
    /\ Views.statistics page
       = (if isLoading s then Views.Processing
          else Views.Hint "Select an AOI to see statistics.")
    /\ Views.categories page
       = (if isLoading s then Views.Processing
          else Views.Hint "No analysis data available.").
Proof.
  intros Hfalsy.
  destruct (renderChild_total s slider) as [child Hchild].
  { unfold Views.ChangeDetectionOverlay. rewrite Hfalsy.
    eexists; reflexivity. }
  unfold Views.render, Views.analysisStatistics, Views.changeCategoriesProps.
  rewrite Hfalsy.
  destruct (isLoading s); simpl; rewrite Hchild; simpl;
    eexists; repeat split; reflexivity.
Qed.

Lemma render_without_result_never_throws_witness :
  truthy (analysisResult (store Scenario.loadingWorld)) = false
  /\ exists page,
       Views.render (store Scenario.loadingWorld) Views.initialSliderPosition
       = inr page
       /\ Views.statistics page = Views.Processing.
Proof.
  split; [reflexivity |].
  destruct (render_without_result_never_throws
              (store Scenario.loadingWorld) Views.initialSliderPosition
              eq_refl) as (page & Hpage & Hstats & _).
  exists page. split; [exact Hpage | exact Hstats].
Defined.

Lemma isObject_inv (v : option json) :
  Views.isObject v = true -> exists members, v = Some (JObj members).
Proof.
  destruct v as [[| b | z | str | items | members] |]; simpl;
    try discriminate. intros _. eexists; reflexivity.
Qed.

Lemma isNumber_inv (v : option json) :
  Views.isNumber v = true -> exists z, v = Some (JNum z).
Proof.
  destruct v as [[| b | z | str | items | members] |]; simpl;
    try discriminate. intros _. eexists; reflexivity.
Qed.

(** The two cards and the overlay on a result of the shape of
    [AnalysisResult]. *)
Lemma analysisResult_renders (s : Store) :
  Views.isAnalysisResult (analysisResult s) = true ->
  (exists change confidence,
      Views.member (Views.member (Some (analysisResult s)) "summary")
        "percent_change" = Some (JNum change)
      /\ Views.member (Views.member (Some (analysisResult s)) "summary")
           "confidence_pct" = Some (JNum confidence)
      /\ Views.analysisStatistics s
         = inr (if isLoading s then Views.Processing
                else Views.Rows
                       [ {| Views.statLabel := "Change Detected";
                            Views.statValue := JS.toFixed2 change ++ "%";
                            Views.statColor := "text-warning" |};
                         {| Views.statLabel := "Confidence Level";
                            Views.statValue := JS.toFixed2 confidence ++ "%";
                            Views.statColor := "text-success" |} ]))
  /\ (exists props rows,
         Views.changeCategoriesProps s = inr props
         /\ Views.renderCategories props = inr rows)
  /\ Views.ChangeDetectionOverlay (analysisResult s)
     = inr (Views.OverlayImage
              (Views.member
                 (Views.member (Some (analysisResult s)) "overlays")
                 "class_png")).
Proof.
  unfold Views.isAnalysisResult. rewrite !andb_true_iff.
  intros ((((((((Hres & Hsum) & Hpc) & Hcp) & Hcat) & Hd) & Hu) & Ha) & Hov).
  apply isObject_inv in Hres as [members Hres]. inversion Hres as [Hr].
  rewrite Hr in *. simpl in Hsum, Hpc, Hcp, Hcat, Hd, Hu, Ha, Hov.
  apply isObject_inv in Hsum as [sm Hsum]. rewrite Hsum in *.
  simpl in Hpc, Hcp, Hcat, Hd, Hu, Ha.
  apply isNumber_inv in Hpc as [z1 Hpc].
  apply isNumber_inv in Hcp as [z2 Hcp].
  apply isObject_inv in Hcat as [cm Hcat]. rewrite Hcat in *.
  simpl in Hd, Hu, Ha.
  apply isNumber_inv in Hd as [z3 Hd].
  apply isNumber_inv in Hu as [z4 Hu].
  apply isNumber_inv in Ha as [z5 Ha].
  apply isObject_inv in Hov as [om Hov].
  split; [| split].
  - exists z1, z2. simpl. rewrite Hsum. simpl.
    split; [exact Hpc |]. split; [exact Hcp |].
    unfold Views.analysisStatistics. rewrite Hr. simpl.
    destruct (isLoading s); [reflexivity |].
    rewrite Hsum. simpl. rewrite Hpc, Hcp. reflexivity.
  - unfold Views.changeCategoriesProps, Views.category. rewrite Hr. simpl.
    destruct (isLoading s); [do 2 eexists; split; reflexivity |].
    rewrite Hsum. simpl. rewrite Hcat. simpl. rewrite Hd, Hu, Ha. simpl.
    do 2 eexists; split; reflexivity.
  - unfold Views.ChangeDetectionOverlay. simpl. rewrite Hov. reflexivity.
Qed.

(** [toFixed(2)] on the two percentages of the scenario. *)
Lemma toFixed2_scenario :
  JS.toFixed2 12.375%R = "12.38" /\ JS.toFixed2 90.5%R = "90.50".
Proof.
  assert (Hfmt : forall x n,
             (0 <= x < 1000)%R ->
             (IZR n <= x * 100 + / 2 < IZR n + 1)%R ->
             JS.toFixed2 x
             = (digits (n / 100) ++ "."
                ++ (if (n mod 100 <? 10)%Z then "0" else EmptyString)
                ++ digits (n mod 100))).
  { intros x n Hx Hn. unfold JS.toFixed2, below_1e21, nearest_hundredth.
    rewrite (Rabs_pos_eq x) by lra.
    destruct (Rlt_dec x 1000000000000000000000%R) as [_ | Hbig]; [| lra].
    destruct (Rlt_dec x 0%R) as [Hneg | _]; [lra |].
    rewrite <- (Int_part_spec (x * 100 + / 2) n) by lra. reflexivity. }
  split.
  - rewrite (Hfmt _ 1238%Z); [reflexivity | lra | lra].
  - rewrite (Hfmt _ 9050%Z); [reflexivity | lra | lra].
Qed.

(** X6.  With a result of the shape of [AnalysisResult] rendering never
    throws, on any tab and in any state.  Unless a request is loading, the
    statistics card shows the two percentages of the summary, each printed
    by [toFixed(2)] and followed by a percent sign; on the Detection tab,
    when neither loading nor in error, the content is the overlay image
    whose source is [result.overlays.class_png]. *)
Theorem render_of_analysis_result (s : Store) (slider : Z) :
  Views.isAnalysisResult (analysisResult s) = true ->
  exists page change confidence,
    Views.render s slider = inr page
    /\ Views.member (Views.member (Some (analysisResult s)) "summary")
         "percent_change" = Some (JNum change)
    /\ Views.member (Views.member (Some (analysisResult s)) "summary")
         "confidence_pct" = Some (JNum confidence)
    /\ Views.statistics page
       = (if isLoading s then Views.Processing
          else Views.Rows
                 [ {| Views.statLabel := "Change Detected";
                      Views.statValue := JS.toFixed2 change ++ "%";
                      Views.statColor := "text-warning" |};
                   {| Views.statLabel := "Confidence Level";
                      Views.statValue := JS.toFixed2 confidence ++ "%";
                      Views.statColor := "text-success" |} ])
    /\ (activeTab s = tab_id Detection -> isLoading s = false ->
        error s = None ->
        Views.content page
        = Views.ContentOverlay
            (Views.OverlayImage
               (Views.member
                  (Views.member (Some (analysisResult s)) "overlays")
                  "class_png"))).
Proof.
  intros Hshape.
  destruct (analysisResult_renders s Hshape)
    as ((change & confidence & Hchange & Hconfidence & Hcard)
        & (props & rows & Hprops & Hrows) & Hoverlay).
  destruct (renderChild_total s slider) as [child Hchild];
    [eexists; exact Hoverlay |].
  unfold Views.render. rewrite Hcard, Hprops. simpl.
  rewrite Hchild. simpl. rewrite Hrows. simpl.
  eexists. exists change, confidence.
  split; [reflexivity |]. split; [exact Hchange |].
  split; [exact Hconfidence |]. split; [reflexivity |]. simpl.
  intros Htab Hload Herr. unfold renderContent in Hchild.
  rewrite Htab, Hload, Herr in Hchild. simpl in Hchild.
  rewrite Hoverlay in Hchild. simpl in Hchild. congruence.
Qed.

Lemma render_of_analysis_result_witness :
  Views.isAnalysisResult Scenario.analysis1 = true
  /\ exists page,
       Views.render
         {| activeTab := "detection"; isLoading := false;
            analysisResult := Scenario.analysis1; error := None |}
         Views.initialSliderPosition
       = inr page
       /\ Views.statistics page
          = Views.Rows
              [ {| Views.statLabel := "Change Detected";
                   Views.statValue := "12.38%";
                   Views.statColor := "text-warning" |};
                {| Views.statLabel := "Confidence Level";
                   Views.statValue := "90.50%";
                   Views.statColor := "text-success" |} ]
       /\ Views.content page
          = Views.ContentOverlay
              (Views.OverlayImage (Some (JStr "data:image/png;base64,AAAA"))).
Proof.
  split; [reflexivity |].
  destruct (render_of_analysis_result
              {| activeTab := "detection"; isLoading := false;
                 analysisResult := Scenario.analysis1; error := None |}
              Views.initialSliderPosition eq_refl)
    as (page & change & confidence & Hpage & Hchange & Hconfidence
        & Hstats & Hcontent).
  exists page. split; [exact Hpage |].
  split; [| exact (Hcontent eq_refl eq_refl eq_refl)].
  simpl in Hchange, Hconfidence, Hstats.
  inversion Hchange; subst change. inversion Hconfidence; subst confidence.
  destruct toFixed2_scenario as [H1 H2].
  rewrite H1, H2 in Hstats. exact Hstats.
Defined.

(** X7.  A 2xx answer whose body is a truthy JSON value without a
    [summary] (or with a [null] one) is stored as the result, and the
    render that follows throws a TypeError: the handler catches nothing
    that is thrown while rendering. *)
Theorem result_without_summary_crashes_render (w : World) (i : nat)
  (req : Request) (k : Outcome -> Prog unit) (r : Response) (data : json)
  (slider : Z) :
  reachable w ->
  nth_error (inflight w) i = Some (req, k) ->
  ok r = true -> json_body r = inr data ->
  truthy data = true ->
  get_property data "summary" = inr None
  \/ get_property data "summary" = inr (Some JNull) ->
  analysisResult (store (step w (Settled i (inr r)))) = data
  /\ exists e,
       Views.render (store (step w (Settled i (inr r)))) slider = inl e
       /\ name e = "TypeError".
Proof.
  intros Hw Hnth Hok Hb Htruthy Hsummary.
  rewrite (step_Settled w i req k (inr r) Hw Hnth).
  unfold settledWorld. rewrite (guarded_ok r data Hok Hb); simpl.
  split; [reflexivity |].
  unfold Views.render, Views.analysisStatistics; simpl. rewrite Htruthy.
  destruct Hsummary as [-> | ->]; simpl; eexists; split; reflexivity.
Qed.

Lemma result_without_summary_crashes_render_witness :
  reachable Scenario.loadingWorld
  /\ truthy (JObj []) = true
  /\ get_property (JObj []) "summary" = inr None
  /\ exists e,
       Views.render
         (store (step Scenario.loadingWorld
                   (Settled 0 (inr {| status := 200;
                                      json_body := inr (JObj []) |}))))
         Views.initialSliderPosition
       = inl e.
Proof.
  split; [exact reachable_loadingWorld |].
  split; [reflexivity |]. split; [reflexivity |].
  destruct (result_without_summary_crashes_render Scenario.loadingWorld 0
              (analysisRequest Scenario.bounds1) afterFetch
              {| status := 200; json_body := inr (JObj []) |} (JObj [])
              Views.initialSliderPosition
              reachable_loadingWorld nth_loadingWorld eq_refl eq_refl eq_refl
              (or_introl eq_refl))
    as (_ & e & He & _).
  exists e. exact He.
Defined.

End Rendering.

(** ** The drawing controller, continued *)

Section DrawingFurther.

Import MapAOISelector Drawing.
Local Open Scope R_scope.

(** X8.  The "Clear AOI" button, shown while an area is displayed: the
    rectangle is taken off the map, the area display is emptied,
    [onAOISelected(null)] is called once and the controller is idle, with
    the map still draggable. *)
Theorem clear_returns_to_idle (s : Store) (a : number) :
  reachable s ->
  areaKm2 s = Some a ->
  snd (step s clickClearAOI) = [None]
  /\ overlays (mapRef (fst (step s clickClearAOI))) = []
  /\ rectLayerRef (fst (step s clickClearAOI)) = None
  /\ areaKm2 (fst (step s clickClearAOI)) = None
  /\ drawState (fst (step s clickClearAOI)) = Idle
  /\ dragging (mapRef (fst (step s clickClearAOI))) = true.
Proof.
  intros Hs Ha. apply reachable_invariant_store in Hs.
  pose proof Hs as (_ & Hdraw & Hidle).
  assert (Hd : isDrawingRef s = false).
  { destruct (isDrawingRef s); [| reflexivity].
    destruct (Hdraw eq_refl) as (_ & Hn). congruence. }
  unfold step. rewrite Ha. unfold handleClearAOI, drawState.
  destruct (rectLayerRef s) as [id |] eqn:Href; simpl; rewrite ?Hd, ?Href.
  - repeat split; try reflexivity.
    + apply overlays_removed; assumption.
    + exact (Hidle Hd).
  - repeat split; try reflexivity.
    + apply overlays_none; assumption.
    + exact (Hidle Hd).
Qed.

Lemma clear_returns_to_idle_witness :
  reachable DrawScenario.drawnStore
  /\ areaKm2 DrawScenario.drawnStore = Some (double (467 / 100))
  /\ snd (step DrawScenario.drawnStore clickClearAOI) = [None]
  /\ drawState (fst (step DrawScenario.drawnStore clickClearAOI)) = Idle.
Proof.
  assert (Ha : areaKm2 DrawScenario.drawnStore = Some (double (467 / 100))).
  { unfold DrawScenario.drawnStore.
    destruct (run_draw initialStore DrawScenario.southWest1
                DrawScenario.northEast1 [DrawScenario.northEast1]) as [H _].
    rewrite H, scenario1_not_degenerate, scenario1_area. reflexivity. }
  split; [exact reachable_drawnStore |]. split; [exact Ha |].
  destruct (clear_returns_to_idle DrawScenario.drawnStore (double (467 / 100))
              reachable_drawnStore Ha) as (H1 & _ & _ & _ & H5 & _).
  split; assumption.
Defined.

Lemma In_removeLayer (j id : nat) (l : Layer) (m : Map) :
  In (j, l) (layers m) -> j <> id -> In (j, l) (layers (removeLayer id m)).
Proof.
  intros Hin Hne. unfold removeLayer; simpl.
  apply filter_In. split; [exact Hin |]. simpl.
  apply negb_true_iff, Nat.eqb_neq, Hne.
Qed.

Lemma In_setBounds_other (j id : nat) (l : Layer) (b : LatLngBounds) (m : Map) :
  In (j, l) (layers m) -> j <> id -> In (j, l) (layers (setBounds id b m)).
Proof.
  intros Hin Hne. unfold setBounds; simpl.
  apply in_map_iff. exists (j, l). split; [| exact Hin]. simpl.
  apply Nat.eqb_neq in Hne. rewrite Hne. reflexivity.
Qed.

Lemma In_setBounds_same (id : nat) (b0 b : LatLngBounds) (c : string) (m : Map) :
  In (id, Rectangle b0 c) (layers m) ->
  In (id, Rectangle b c) (layers (setBounds id b m)).
Proof.
  intros Hin. unfold setBounds; simpl.
  apply in_map_iff. exists (id, Rectangle b0 c). split; [| exact Hin]. simpl.
  rewrite Nat.eqb_refl. reflexivity.
Qed.

Lemma In_overlays (id : nat) (m : Map) :
  In id (overlays m) ->
  exists b, In (id, Rectangle b drawColor) (layers m).
Proof.
  unfold overlays. intros Hin. apply in_map_iff in Hin as [[j l] [Hj Hin]].
  simpl in Hj; subst j. apply filter_In in Hin as [Hin Hc]. simpl in Hc.
  destruct l as [u | b c]; [discriminate |].
  apply String.eqb_eq in Hc. subst c. exists b. exact Hin.
Qed.

Ltac base_split t g :=
  exists t, g; split; [| split; [| split; [| split]]].

Lemma baseOf_flags (m : Map) (ref : option nat) :
  baseOf m ref ->
  baseOf (dragging_enable m) ref
  /\ baseOf (dragging_disable m) ref
  /\ (forall c, baseOf (set_cursor c m) ref).
Proof.
  intros Hbase. split; [exact Hbase |]. split; [exact Hbase |].
  intros c; exact Hbase.
Qed.

Lemma baseOf_removeLayer (m : Map) (id : nat) :
  baseOf m (Some id) -> baseOf (removeLayer id m) None.
Proof.
  intros (t & g & Ht & Hg & Htl & Hgl & Href).
  destruct (Href id eq_refl) as (_ & Hnt & Hng).
  base_split t g; try assumption.
  - apply In_removeLayer; [exact Ht | congruence].
  - apply In_removeLayer; [exact Hg | congruence].
  - intros id' Hid; discriminate Hid.
Qed.

Lemma baseOf_drop (m : Map) (ref : option nat) : baseOf m ref -> baseOf m None.
Proof.
  intros (t & g & Ht & Hg & Htl & Hgl & _).
  base_split t g; try assumption. intros id' Hid; discriminate Hid.
Qed.

Lemma baseOf_setBounds (m : Map) (id : nat) (b : LatLngBounds) :
  baseOf m (Some id) -> baseOf (setBounds id b m) (Some id).
Proof.
  intros (t & g & Ht & Hg & Htl & Hgl & Href).
  destruct (Href id eq_refl) as (Hle & Hnt & Hng).
  base_split t g; try assumption.
  - apply In_setBounds_other; [exact Ht | congruence].
  - apply In_setBounds_other; [exact Hg | congruence].
Qed.

Lemma baseOf_addLayer (m : Map) (l : Layer) :
  baseOf m None ->
  baseOf (snd (addLayer l m)) (Some (fst (addLayer l m))).
Proof.
  intros (t & g & Ht & Hg & Htl & Hgl & _).
  unfold addLayer; simpl.
  base_split t g; simpl; try (apply in_or_app; left; assumption);
    try (apply Nat.le_le_succ_r; assumption).
  intros id' Hid; inversion Hid; subst id'.
  repeat split; [apply Nat.le_refl | |]; intros Heq; subst;
    eapply Nat.nle_succ_diag_l; eassumption.
Qed.

Lemma baseOf_mountMap (stamp : nat) (ref : option nat) :
  (forall id, ref = Some id -> (id <= stamp)%nat) ->
  baseOf (mountMap stamp) ref.
Proof.
  intros Href. unfold mountMap; simpl.
  base_split (S stamp) (S (S stamp)); simpl.
  - left; reflexivity.
  - right; left; reflexivity.
  - apply Nat.le_succ_diag_r.
  - apply Nat.le_refl.
  - intros id' Hid. specialize (Href id' Hid).
    repeat split.
    + apply Nat.le_le_succ_r, Nat.le_le_succ_r, Href.
    + intros Heq; subst. eapply Nat.nle_succ_diag_l; eassumption.
    + intros Heq; subst.
      eapply Nat.nle_succ_diag_l, Nat.le_trans;
        [apply Nat.le_succ_diag_r | eassumption].
Qed.

Lemma baseLayersKept_step (s : Store) (e : Event) :
  baseLayersKept s -> baseLayersKept (fst (step s e)).
Proof.
  unfold baseLayersKept. intros Hbase.
  destruct e as [p | p | p | |]; unfold step.
  - unfold startDrawing; simpl.
    destruct (rectLayerRef s) as [id |] eqn:Href; simpl.
    + apply baseOf_removeLayer. exact Hbase.
    + rewrite Href. exact Hbase.
  - unfold updateDrawing.
    destruct (isDrawingRef s); [| exact Hbase].
    destruct (startPointRef s) as [start |]; [| exact Hbase].
    destruct (rectLayerRef s) as [id |] eqn:Href; simpl.
    + rewrite Href. apply baseOf_setBounds. exact Hbase.
    + apply (baseOf_addLayer (mapRef s)). exact Hbase.
  - unfold finishDrawing.
    destruct (isDrawingRef s); [| exact Hbase].
    destruct (startPointRef s) as [start |]; [| exact Hbase].
    destruct (strict_eq _ _ || strict_eq _ _); simpl.
    + unfold removeRectLayer; simpl.
      destruct (rectLayerRef s) as [id |] eqn:Href; simpl.
      * apply baseOf_removeLayer. exact Hbase.
      * exact Hbase.
    + exact Hbase.
  - destruct (areaKm2 s); [| exact Hbase].
    unfold handleClearAOI; simpl.
    destruct (rectLayerRef s) as [id |] eqn:Href; simpl.
    + apply baseOf_removeLayer. exact Hbase.
    + rewrite Href. exact Hbase.
  - unfold remount; simpl. apply baseOf_mountMap.
    intros id Hid. destruct Hbase as (t & g & _ & _ & _ & _ & Href).
    apply (Href id Hid).
Qed.

(** X9.  Whatever the user does, the tile layer and the dashed rectangle
    of the available data stay on the map, unchanged, and at most one
    rectangle drawn by the user is on it. *)
Theorem base_layers_kept_one_overlay (s : Store) :
  reachable s ->
  (exists t,
      In (t, TileLayer "https://{s}.tile.openstreetmap.org/{z}/{x}/{y}.png")
        (layers (mapRef s)))
  /\ (exists g, In (g, Rectangle DATA_BOUNDS guideColor) (layers (mapRef s)))
  /\ (List.length (overlays (mapRef s)) <= 1)%nat.
Proof.
  intros Hs.
  assert (Hbase : baseLayersKept s).
  { induction Hs as [| s e _ IH].
    - apply (baseOf_mountMap 0 None). intros id Hid; discriminate Hid.
    - apply baseLayersKept_step, IH. }
  destruct Hbase as (t & g & Ht & Hg & _).
  split; [exists t; exact Ht |]. split; [exists g; exact Hg |].
  destruct (reachable_invariant_store s Hs) as ([-> | (id & _ & ->)] & _);
    simpl; auto.
Qed.

Lemma base_layers_kept_one_overlay_witness :
  reachable DrawScenario.drawnStore
  /\ (List.length (overlays (mapRef DrawScenario.drawnStore)) <= 1)%nat.
Proof.
  split; [exact reachable_drawnStore |].
  apply (base_layers_kept_one_overlay DrawScenario.drawnStore
           reachable_drawnStore).
Defined.

(** The preview rectangle after a pointer move, while drawing. *)
Lemma updateDrawing_preview (s : Store) (start p : LatLng) :
  invariant s ->
  isDrawingRef s = true -> startPointRef s = Some start ->
  rectLayerRef s = None \/ overlays (mapRef s) <> [] ->
  exists id,
    rectLayerRef (fst (updateDrawing p s)) = Some id
    /\ overlays (mapRef (fst (updateDrawing p s))) = [id]
    /\ In (id, Rectangle (latLngBounds start p) drawColor)
         (layers (mapRef (fst (updateDrawing p s)))).
Proof.
  intros Hs Hd Hstart Hshown.
  unfold updateDrawing. rewrite Hd, Hstart.
  destruct (rectLayerRef s) as [id |] eqn:Href; simpl.
  - destruct Hshown as [Hnone | Hov]; [discriminate |].
    destruct Hs as ([Hempty | (id' & Hid & Hone)] & _); [contradiction |].
    assert (id' = id) as -> by congruence.
    exists id. split; [exact Href |].
    split; [rewrite overlays_setBounds; exact Hone |].
    destruct (In_overlays id (mapRef s)) as [b0 Hin];
      [rewrite Hone; left; reflexivity |].
    apply (In_setBounds_same id b0). exact Hin.
  - exists (S (lastId (mapRef s))). split; [reflexivity |].
    split.
    + change (overlays (snd (addLayer (Rectangle (latLngBounds start p)
                                         drawColor) (mapRef s)))
              = [S (lastId (mapRef s))]).
      rewrite overlays_addLayer, (overlays_none s Hs Href). reflexivity.
    + apply in_or_app. right. left. reflexivity.
Qed.

(** X10.  While drawing, a pointer move emits nothing.  Provided the
    rectangle that [rectLayerRef] holds is on the map, or the ref holds
    none yet, the move leaves exactly one drawn rectangle on the map, the
    one [rectLayerRef] holds, and its bounds are those spanned by the start
    point and the pointer.  Otherwise (the ref is set but the map was built
    anew since, so that no drawn rectangle is on it) the move leaves the
    ref as it is and the map without a drawn rectangle. *)
Theorem preview_spans_start_and_pointer (s : Store) (start p : LatLng) :
  reachable s ->
  drawState s = Drawing start ->
  snd (step s (mousemove p)) = []
  /\ (rectLayerRef s = None \/ overlays (mapRef s) <> [] ->
      exists id,
        rectLayerRef (fst (step s (mousemove p))) = Some id
        /\ overlays (mapRef (fst (step s (mousemove p)))) = [id]
        /\ In (id, Rectangle (latLngBounds start p) drawColor)
             (layers (mapRef (fst (step s (mousemove p))))))
  /\ (rectLayerRef s <> None -> overlays (mapRef s) = [] ->
      rectLayerRef (fst (step s (mousemove p))) = rectLayerRef s
      /\ overlays (mapRef (fst (step s (mousemove p)))) = []).
Proof.
  intros Hs Hdraw. apply reachable_invariant_store in Hs.
  apply drawState_Drawing in Hdraw as [Hd Hstart].
  destruct (updateDrawing_frame p s) as (_ & _ & _ & _ & Hout).
  unfold step. split; [exact Hout |].
  split; [intros Hshown; apply updateDrawing_preview; assumption |].
  intros Href Hnone. unfold updateDrawing. rewrite Hd, Hstart.
  destruct (rectLayerRef s) as [id |] eqn:Hid; [| congruence].
  simpl. rewrite overlays_setBounds. split; [exact Hid | exact Hnone].
Qed.

Lemma preview_spans_start_and_pointer_witness :
  reachable DrawScenario.drawingStore
  /\ drawState DrawScenario.drawingStore = Drawing DrawScenario.southWest1
  /\ overlays (mapRef DrawScenario.drawingStore) <> []
  /\ exists id,
       overlays (mapRef (fst (step DrawScenario.drawingStore
                                (mousemove DrawScenario.northEast1)))) = [id]
       /\ In (id, Rectangle (latLngBounds DrawScenario.southWest1
                               DrawScenario.northEast1) drawColor)
            (layers (mapRef (fst (step DrawScenario.drawingStore
                                    (mousemove DrawScenario.northEast1))))).
Proof.
  assert (Hov : overlays (mapRef DrawScenario.drawingStore) <> [])
    by (simpl; discriminate).
  split; [exact reachable_drawingStore |].
  split; [exact drawState_drawingStore |]. split; [exact Hov |].
  destruct (preview_spans_start_and_pointer DrawScenario.drawingStore
              DrawScenario.southWest1 DrawScenario.northEast1
              reachable_drawingStore drawState_drawingStore)
    as (_ & Hshown & _).
  destruct (Hshown (or_intror Hov)) as (id & _ & H1 & H2).
  exists id. split; assumption.
Defined.

(** X11.  When the mount effect runs again in the middle of a drag (the
    parent rendered with a new [onAOISelected]), the new map is draggable
    although the draw goes on, the preview held by [rectLayerRef] is not
    on it and pointer moves do not bring one back; the pointer-up still
    ends the draw and emits the bounds. *)
Theorem rebuilt_map_loses_preview (s : Store) (start p : LatLng) :
  drawState s = Drawing start ->
  rectLayerRef s <> None ->
  drawState (fst (step s callbackChanged)) = Drawing start
  /\ dragging (mapRef (fst (step s callbackChanged))) = true
  /\ overlays (mapRef (fst (step s callbackChanged))) = []
  /\ overlays (mapRef (fst (step (fst (step s callbackChanged))
                             (mousemove p)))) = []
  /\ (degenerate (latLngBounds start p) = false ->
      snd (step (fst (step s callbackChanged)) (mouseup p))
      = [Some (selection (latLngBounds start p))]).
Proof.
  intros Hdraw Href. apply drawState_Drawing in Hdraw as [Hd Hstart].
  unfold step at 1 2 3 4 6. unfold remount; simpl.
  split; [apply drawState_Drawing; split; assumption |].
  split; [reflexivity |]. split; [reflexivity |].
  split.
  - unfold step, updateDrawing; simpl. rewrite Hd, Hstart.
    destruct (rectLayerRef s) as [id |]; [| congruence].
    simpl. rewrite overlays_setBounds. reflexivity.
  - intros Hdeg.
    destruct (finishDrawing_result start p
                (set_map (set_cursor (cursor (mapRef s))
                            (mountMap (lastId (mapRef s)))) s) Hd Hstart)
      as [_ Hout].
    unfold step. rewrite Hout, Hdeg. reflexivity.
Qed.

Lemma rebuilt_map_loses_preview_witness :
  drawState DrawScenario.drawingStore = Drawing DrawScenario.southWest1
  /\ rectLayerRef DrawScenario.drawingStore <> None
  /\ overlays (mapRef (fst (step (fst (step DrawScenario.drawingStore
                                        callbackChanged))
                             (mousemove DrawScenario.northEast1)))) = [].
Proof.
  assert (Href : rectLayerRef DrawScenario.drawingStore <> None)
    by (simpl; discriminate).
  split; [exact drawState_drawingStore |]. split; [exact Href |].
  apply (rebuilt_map_loses_preview DrawScenario.drawingStore
           DrawScenario.southWest1 DrawScenario.northEast1
           drawState_drawingStore Href).
Defined.

Lemma precededByNull_weaken (afterNull : bool) (out : Emitted) :
  precededByNull false out = true -> precededByNull afterNull out = true.
Proof.
  destruct out as [| [b |] rest]; simpl; auto. discriminate.
Qed.

Lemma precededByNull_true (afterNull : bool) (out : Emitted) :
  precededByNull afterNull out = true -> precededByNull true out = true.
Proof.
  destruct out as [| [b |] rest]; simpl; auto.
  rewrite andb_true_iff. intros [_ H]. exact H.
Qed.

(** X12.  In any run of events, every bounds the controller emits comes
    right after a [null]: from a state in which no draw is in progress,
    as when the component has just mounted, no bounds is emitted without
    the [null] of its pointer-down just before it. *)
Theorem bounds_emitted_right_after_null (s : Store) (es : list Event) :
  precededByNull (canCommit s) (snd (run s es)) = true.
Proof.
  revert s; induction es as [| e es IH]; intros s; [reflexivity |].
  simpl. specialize (IH (fst (step s e))).
  destruct (step s e) as [s1 out1] eqn:Hstep; simpl in IH.
  destruct (run s1 es) as [s2 out2]; simpl in *.
  destruct e as [p | p | p | |]; unfold step in Hstep.
  - unfold startDrawing in Hstep. inversion Hstep; subst s1 out1; simpl.
    eapply precededByNull_true, IH.
  - destruct (updateDrawing_frame p s) as (H1 & H2 & _ & _ & H5).
    rewrite Hstep in H1, H2, H5; simpl in H1, H2, H5. subst out1; simpl.
    unfold canCommit in *. rewrite H1, H2 in IH. exact IH.
  - unfold canCommit at 1.
    destruct (isDrawingRef s) eqn:Hd; simpl.
    + destruct (startPointRef s) as [start |] eqn:Hstart.
      * destruct (finishDrawing_result start p s Hd Hstart) as [_ Hout].
        rewrite Hstep in Hout; simpl in Hout.
        assert (Hc : canCommit s1 = false).
        { unfold canCommit, finishDrawing in *. rewrite Hd, Hstart in Hstep.
          destruct (strict_eq _ _ || strict_eq _ _);
            inversion Hstep; subst s1; simpl.
          - unfold removeRectLayer; simpl.
            destruct (rectLayerRef s); reflexivity.
          - reflexivity. }
        rewrite Hc in IH. rewrite Hout.
        destruct (degenerate (latLngBounds start p)); simpl.
        -- apply precededByNull_weaken, IH.
        -- exact IH.
      * rewrite finishDrawing_idle in Hstep by (right; exact Hstart).
        inversion Hstep; subst s1 out1; simpl.
        unfold canCommit in IH. rewrite Hd, Hstart in IH. exact IH.
    + rewrite finishDrawing_idle in Hstep by (left; exact Hd).
      inversion Hstep; subst s1 out1; simpl.
      unfold canCommit in IH. rewrite Hd in IH. exact IH.
  - destruct (areaKm2 s).
    + unfold handleClearAOI in Hstep. inversion Hstep; subst s1 out1; simpl.
      eapply precededByNull_true, IH.
    + inversion Hstep; subst s1 out1; simpl. exact IH.
  - unfold remount in Hstep. inversion Hstep; subst s1 out1; simpl.
    exact IH.
Qed.

(** The formula of the specification on the bounds of two corners at valid
    latitudes: between zero and the area of the flat rectangle. *)
Lemma area_spec_bounds (start p : LatLng) :
  -90 <= lat start <= 90 -> -90 <= lat p <= 90 ->
  0 <= area_spec (getWest (latLngBounds start p))
         (getSouth (latLngBounds start p))
         (getEast (latLngBounds start p))
         (getNorth (latLngBounds start p))
    <= Rabs (lat p - lat start) * 111 * (Rabs (lng p - lng start) * 111).
Proof.
  intros Hs Hp.
  unfold area_spec, getNorth, getSouth, getEast, getWest,
    latLngBounds, extend, Math_min, Math_max; simpl.
  rewrite !Rmax_minus_Rmin, !Rabs_Rabsolu.
  rewrite (Rabs_minus_sym (lat start) (lat p)),
          (Rabs_minus_sym (lng start) (lng p)).
  set (c := (Rmax (lat p) (lat start) + Rmin (lat p) (lat start)) / 2).
  assert (Hc : -90 <= c <= 90).
  { unfold c, Rmin, Rmax. destruct (Rle_dec (lat p) (lat start)); lra. }
  pose proof PI_bounds as HPI.
  assert (Hcos : 0 <= cos (c * PI / 180) <= 1).
  { split; [| apply COS_bound].
    apply cos_ge_0; nra. }
  pose proof (Rabs_pos (lat p - lat start)) as Ha.
  pose proof (Rabs_pos (lng p - lng start)) as Hb.
  set (A := Rabs (lat p - lat start)) in *.
  set (B := Rabs (lng p - lng start)) in *.
  set (k := cos (c * PI / 180)) in *.
  assert (HAB : 0 <= A * 111 * (B * 111)) by nra.
  split; nra.
Qed.

(** X13.  For corners at valid latitudes and at most 360 degrees of
    longitude apart, the area displayed for a committed draw is a multiple
    of 0.01 that is never negative and exceeds the area of the flat
    rectangle (111 km per degree both ways) by at most 0.005 and the
    rounding error of the double arithmetic, itself below 0.00001. *)
Theorem displayed_area_bounds (s : Store) (start p : LatLng) :
  drawState s = Drawing start ->
  degenerate (latLngBounds start p) = false ->
  -90 <= lat start <= 90 -> -90 <= lat p <= 90 ->
  Rabs (lng p - lng start) <= 360 ->
  exists n : Z,
    areaKm2 (fst (step s (mouseup p))) = Some (double (IZR n / 100))
    /\ 0 <= IZR n / 100
       <= Rabs (lat p - lat start) * 111 * (Rabs (lng p - lng start) * 111)
          + 1 / 200 + 1 / 100000.
Proof.
  intros Hdraw Hdeg Hs Hp Hwide.
  apply drawState_Drawing in Hdraw as [Hd Hstart].
  destruct (finishDrawing_result start p s Hd Hstart) as [Harea _].
  rewrite Hdeg in Harea. unfold step. rewrite Harea.
  pose proof (product_near_area_spec start p Hs Hp) as Hprod.
  rewrite latLngBounds_width in Hprod. apply Rabs_le_elim in Hprod.
  destruct (area_spec_bounds start p Hs Hp) as [Hlow Hup].
  pose proof (Rabs_pos (lng p - lng start)) as Hpos.
  set (x := fmul (dLatKm (latLngBounds start p))
              (dLngKm (latLngBounds start p))) in *.
  exists (hundredths x). split; [reflexivity |].
  pose proof (hundredths_near x) as Hnear. apply Rabs_le_elim in Hnear.
  assert (Hn : (0 <= hundredths x)%Z) by (apply hundredths_nonneg; lra).
  apply IZR_le in Hn. lra.
Qed.

Lemma displayed_area_bounds_witness :
  drawState DrawScenario.drawingStore = Drawing DrawScenario.southWest1
  /\ degenerate (latLngBounds DrawScenario.southWest1
                   DrawScenario.northEast1) = false
  /\ exists n : Z,
       areaKm2 (fst (step DrawScenario.drawingStore
                       (mouseup DrawScenario.northEast1)))
       = Some (double (IZR n / 100))
       /\ 0 <= IZR n / 100.
Proof.
  split; [exact drawState_drawingStore |].
  split; [exact scenario1_not_degenerate |].
  destruct (displayed_area_bounds DrawScenario.drawingStore
              DrawScenario.southWest1 DrawScenario.northEast1
              drawState_drawingStore scenario1_not_degenerate)
    as (n & Hn & Hlow & _);
    [simpl; lra | simpl; lra | simpl; apply Rabs_le; lra |].
  exists n. split; assumption.
Defined.

(** X14.  A rectangle between corners at valid latitudes and at most 360
    degrees of longitude apart, so small that its flat area is at most
    0.0049 km2, is still committed: its bounds are emitted, and the area
    displayed is 0. *)
Theorem tiny_draw_displays_zero (s : Store) (start p : LatLng) :
  drawState s = Drawing start ->
  degenerate (latLngBounds start p) = false ->
  -90 <= lat start <= 90 -> -90 <= lat p <= 90 ->
  Rabs (lng p - lng start) <= 360 ->
  Rabs (lat p - lat start) * 111 * (Rabs (lng p - lng start) * 111)
  <= 49 / 10000 ->
  areaKm2 (fst (step s (mouseup p))) = Some 0
  /\ snd (step s (mouseup p)) = [Some (selection (latLngBounds start p))].
Proof.
  intros Hdraw Hdeg Hs Hp Hwide Hsmall.
  apply drawState_Drawing in Hdraw as [Hd Hstart].
  destruct (finishDrawing_result start p s Hd Hstart) as [Harea Hout].
  rewrite Hdeg in Harea, Hout. unfold step. rewrite Harea, Hout.
  split; [| reflexivity]. unfold areaOf, Number_toFixed2.
  pose proof (product_near_area_spec start p Hs Hp) as Hprod.
  rewrite latLngBounds_width in Hprod. apply Rabs_le_elim in Hprod.
  destruct (area_spec_bounds start p Hs Hp) as [Hlow Hup].
  pose proof (Rabs_pos (lng p - lng start)) as Hpos.
  rewrite hundredths_zero by (apply Rabs_def1; lra).
  replace (0 / 100) with 0 by lra. rewrite double_0. reflexivity.
Qed.

Lemma tiny_draw_displays_zero_witness :
  drawState DrawScenario.drawingStore = Drawing DrawScenario.southWest1
  /\ degenerate (latLngBounds DrawScenario.southWest1
                   (latLng 18.5001 73.8001)) = false
  /\ areaKm2 (fst (step DrawScenario.drawingStore
                     (mouseup (latLng 18.5001 73.8001)))) = Some 0.
Proof.
  assert (Hdeg : degenerate (latLngBounds DrawScenario.southWest1
                               (latLng 18.5001 73.8001)) = false).
  { destruct (degenerate (latLngBounds DrawScenario.southWest1
                            (latLng 18.5001 73.8001))) eqn:H;
      [| reflexivity].
    apply degenerate_iff in H. simpl in H. lra. }
  split; [exact drawState_drawingStore |]. split; [exact Hdeg |].
  apply (tiny_draw_displays_zero DrawScenario.drawingStore
           DrawScenario.southWest1 (latLng 18.5001 73.8001)
           drawState_drawingStore Hdeg); simpl; try lra.
  - apply Rabs_le; lra.
  - rewrite !Rabs_pos_eq by lra. lra.
Defined.

End DrawingFurther.

(** ** The two components together *)

Section Composition.

Import VisualizationSection.
Local Open Scope R_scope.

Lemma renderContent_selector (s : Store) :
  renderContent s = MapAOISelectorView <-> activeTab s = "aoi".
Proof.
  unfold renderContent. split.
  - destruct (String.eqb (activeTab s) "aoi") eqn:Htab; simpl.
    + intros _. apply String.eqb_eq, Htab.
    + destruct (error s) as [[| c m] |]; simpl; try discriminate;
        destruct (isLoading s); simpl; try discriminate;
          destruct (String.eqb (activeTab s) "imagery"); try discriminate;
            destruct (String.eqb (activeTab s) "detection"); discriminate.
  - intros ->. reflexivity.
Qed.

(** After a render the selector is there exactly on the AOI tab: kept if it
    was mounted, new otherwise. *)
Lemma reconcile_spec (w : World) (sel : option MapAOISelector.Store)
  (stamp : nat) :
  App.world (App.reconcile w sel stamp) = w
  /\ (activeTab (store w) = "aoi" ->
      App.selector (App.reconcile w sel stamp)
      = Some match sel with
             | Some s => s
             | None => App.mounted stamp
             end)
  /\ (activeTab (store w) <> "aoi" ->
      App.selector (App.reconcile w sel stamp) = None).
Proof.
  unfold App.reconcile.
  pose proof (renderContent_selector (store w)) as Hiff.
  destruct (renderContent (store w)); destruct sel as [s |]; simpl;
    repeat split; try reflexivity; intros Htab;
      try (apply Hiff in Htab; discriminate Htab);
      try (exfalso; apply Htab, Hiff; reflexivity).
Qed.

Lemma invariant_mounted (stamp : nat) :
  MapAOISelector.invariant (App.mounted stamp).
Proof.
  split; [left; reflexivity |].
  split; simpl; [discriminate | reflexivity].
Qed.

(** Handing the selector's calls to the handler. *)
Lemma deliver_reachable (w : World) (out : MapAOISelector.Emitted) :
  reachable w -> reachable (App.deliver w out).
Proof.
  unfold App.deliver. revert w.
  induction out as [| b out IH]; intros w Hw; [exact Hw |].
  cbn [fold_left]. apply IH. apply (reachable_step w (AOISelected b)), Hw.
Qed.

Lemma deliver_requests (w : World) (out : MapAOISelector.Emitted) :
  requests (log (App.deliver w out))
  = (requests (log w)
     ++ flat_map (fun b => match b with
                           | Some bounds => [analysisRequest bounds]
                           | None => []
                           end) out)%list.
Proof.
  unfold App.deliver. revert w.
  induction out as [| [bounds |] out IH]; intros w;
    cbn [fold_left flat_map].
  - rewrite app_nil_r. reflexivity.
  - rewrite IH, step_AOISelected_bounds; cbn [log].
    rewrite requests_app; simpl. rewrite <- app_assoc. reflexivity.
  - rewrite IH, step_AOISelected_null; cbn [log].
    rewrite requests_app; simpl. rewrite app_nil_r. reflexivity.
Qed.

Lemma settled_requests (w : World) (i : nat) (outcome : Outcome) :
  reachable w ->
  requests (log (step w (Settled i outcome))) = requests (log w).
Proof.
  intros Hw. destruct (nth_error (inflight w) i) as [[req k] |] eqn:Hnth.
  - rewrite (step_Settled w i req k outcome Hw Hnth).
    apply (settledWorld_frame outcome
             {| store := store w; inflight := remove_nth i (inflight w);
                log := log w; unhandled := unhandled w |}).
  - unfold step. rewrite Hnth. reflexivity.
Qed.

Lemma invariant_reconcile (w : World) (sel : option MapAOISelector.Store)
  (stamp : nat) :
  reachable w ->
  (forall s, sel = Some s -> MapAOISelector.invariant s) ->
  (forall req, In req (requests (log w)) -> App.ordered (App.boundsOf req)) ->
  App.invariant (App.reconcile w sel stamp).
Proof.
  intros Hw Hsel Hreq.
  destruct (reconcile_spec w sel stamp) as (Hworld & Hon & Hoff).
  unfold App.invariant. rewrite Hworld.
  split; [exact Hw |].
  destruct (string_dec (activeTab (store w)) "aoi") as [Htab | Htab].
  - rewrite (Hon Htab). split; [| split; [discriminate | exact Hreq]].
    intros s Hs. inversion Hs; subst s. split; [exact Htab |].
    destruct sel as [s0 |]; [apply Hsel; reflexivity | apply invariant_mounted].
  - rewrite (Hoff Htab). split; [discriminate |].
    split; [intros _; exact Htab | exact Hreq].
Qed.

Lemma app_invariant_step (a : App.State) (e : App.Event) :
  App.invariant a -> App.invariant (App.step a e).
Proof.
  intros Hinv. pose proof Hinv as (Hw & Hsel & Hnone & Hreq).
  destruct e as [ev | tab | i outcome]; unfold App.step.
  - destruct (App.selector a) as [sel |] eqn:Hs; [| exact Hinv].
    destruct (Hsel sel eq_refl) as [_ Hselinv].
    pose proof (invariant_step_store sel ev Hselinv) as Hnext.
    pose proof (step_emits_ordered sel ev) as Hord.
    destruct (MapAOISelector.step sel ev) as [sel' out]; simpl in Hnext, Hord.
    apply invariant_reconcile.
    + apply deliver_reachable, Hw.
    + intros s H; inversion H; subst s. exact Hnext.
    + intros req Hin. rewrite deliver_requests in Hin.
      apply in_app_or in Hin as [Hin | Hin]; [apply Hreq, Hin |].
      apply in_flat_map in Hin as [[bounds |] [Hb Hin]]; [| destruct Hin].
      destruct Hin as [<- | []]. apply Hord, Hb.
  - apply invariant_reconcile.
    + apply reachable_step, Hw.
    + exact (fun s H => proj2 (Hsel s H)).
    + rewrite step_TabClick; simpl. rewrite requests_app; simpl.
      rewrite app_nil_r. exact Hreq.
  - apply invariant_reconcile.
    + apply reachable_step, Hw.
    + exact (fun s H => proj2 (Hsel s H)).
    + rewrite settled_requests by exact Hw. exact Hreq.
Qed.

Lemma app_reachable_invariant (a : App.State) :
  App.reachable a -> App.invariant a.
Proof.
  induction 1 as [| a e _ IH]; [| apply app_invariant_step, IH].
  split; [apply reachable_init |].
  split; [| split; [discriminate | intros req []]].
  intros sel Hsel. inversion Hsel; subst sel.
  split; [reflexivity | apply invariant_mounted].
Qed.

(** X15.  In the running application the selector is mounted exactly while
    the AOI tab is active, and every analysis request that was ever sent
    carries bounds with [west < east] and [south < north]. *)
Theorem requests_carry_ordered_bounds (a : App.State) :
  App.reachable a ->
  (App.selector a <> None
   <-> activeTab (store (App.world a)) = tab_id AOI)
  /\ (forall req,
         In req (requests (log (App.world a))) ->
         west (App.boundsOf req) < east (App.boundsOf req)
         /\ south (App.boundsOf req) < north (App.boundsOf req)).
Proof.
  intros Ha. destruct (app_reachable_invariant a Ha)
    as (_ & Hsel & Hnone & Hreq).
  split; [| exact Hreq].
  destruct (App.selector a) as [sel |].
  - split; [intros _; apply (Hsel sel eq_refl) | discriminate].
  - split; [congruence | intros Htab; exfalso; apply Hnone; auto].
Qed.

Lemma requests_carry_ordered_bounds_witness :
  App.reachable
    (App.run App.initialState
       (List.map App.Selector
          (MapAOISelector.draw DrawScenario.southWest1 []
             DrawScenario.northEast1)))
  /\ forall req,
       In req
         (requests
            (log (App.world
                    (App.run App.initialState
                       (List.map App.Selector
                          (MapAOISelector.draw DrawScenario.southWest1 []
                             DrawScenario.northEast1)))))) ->
       west (App.boundsOf req) < east (App.boundsOf req)
       /\ south (App.boundsOf req) < north (App.boundsOf req).
Proof.
  assert (Hrun : forall es a, App.reachable a -> App.reachable (App.run a es)).
  { unfold App.run. induction es as [| e es IH]; intros a Ha; simpl;
      [exact Ha | apply IH, App.reachable_step, Ha]. }
  split; [apply Hrun, App.reachable_init |].
  apply (requests_carry_ordered_bounds
           (App.run App.initialState
              (List.map App.Selector
                 (MapAOISelector.draw DrawScenario.southWest1 []
                    DrawScenario.northEast1)))
           (Hrun _ _ App.reachable_init)).
Defined.

Lemma reconcile_on (w : World) (s : MapAOISelector.Store) (stamp : nat) :
  activeTab (store w) = "aoi" ->
  App.reconcile w (Some s) stamp
  = {| App.world := w; App.selector := Some s; App.lastStamp := stamp |}.
Proof.
  intros Htab. apply renderContent_selector in Htab.
  unfold App.reconcile. rewrite Htab. reflexivity.
Qed.

Lemma reconcile_off (w : World) (s : MapAOISelector.Store) (stamp : nat) :
  activeTab (store w) <> "aoi" ->
  App.reconcile w (Some s) stamp
  = {| App.world := w; App.selector := None;
       App.lastStamp := lastId (MapAOISelector.mapRef s) |}.
Proof.
  intros Htab. unfold App.reconcile.
  pose proof (renderContent_selector (store w)) as Hiff.
  destruct (renderContent (store w)); try reflexivity.
  exfalso. apply Htab, Hiff. reflexivity.
Qed.

Lemma app_step_selector (w : World) (sel : MapAOISelector.Store)
  (stamp : nat) (ev : MapAOISelector.Event) :
  App.step {| App.world := w; App.selector := Some sel;
              App.lastStamp := stamp |} (App.Selector ev)
  = App.reconcile
      (App.deliver w (snd (MapAOISelector.step sel ev)))
      (Some (fst (MapAOISelector.step sel ev))) stamp.
Proof.
  unfold App.step; simpl.
  destruct (MapAOISelector.step sel ev) as [sel' out]. reflexivity.
Qed.

Lemma app_run_cons (a : App.State) (e : App.Event) (es : list App.Event) :
  App.run a (e :: es) = App.run (App.step a e) es.
Proof. reflexivity. Qed.

Lemma app_run_nil (a : App.State) : App.run a [] = a.
Proof. reflexivity. Qed.

Lemma deliver_nil (w : World) : App.deliver w [] = w.
Proof. reflexivity. Qed.

Lemma deliver_one (w : World) (b : option AOIBounds) :
  App.deliver w [b] = step w (AOISelected b).
Proof. reflexivity. Qed.

Lemma startDrawing_fields (p : LatLng) (sel : MapAOISelector.Store) :
  snd (MapAOISelector.startDrawing p sel) = [None]
  /\ MapAOISelector.isDrawingRef (fst (MapAOISelector.startDrawing p sel))
     = true
  /\ MapAOISelector.startPointRef (fst (MapAOISelector.startDrawing p sel))
     = Some p
  /\ MapAOISelector.areaKm2 (fst (MapAOISelector.startDrawing p sel)) = None.
Proof.
  unfold MapAOISelector.startDrawing; simpl.
  destruct (MapAOISelector.rectLayerRef sel); simpl; repeat split; reflexivity.
Qed.

Lemma quiet_frame (e : MapAOISelector.Event) (sel : MapAOISelector.Store) :
  Drawing.quiet e = true ->
  snd (MapAOISelector.step sel e) = []
  /\ MapAOISelector.isDrawingRef (fst (MapAOISelector.step sel e))
     = MapAOISelector.isDrawingRef sel
  /\ MapAOISelector.startPointRef (fst (MapAOISelector.step sel e))
     = MapAOISelector.startPointRef sel
  /\ MapAOISelector.areaKm2 (fst (MapAOISelector.step sel e))
     = MapAOISelector.areaKm2 sel.
Proof.
  destruct e as [p | p | p | |]; simpl; try discriminate; intros _.
  - destruct (updateDrawing_frame p sel) as (H1 & H2 & H3 & _ & H5).
    repeat split; assumption.
  - repeat split; reflexivity.
Qed.

(** Pointer moves and effect re-runs on the AOI tab reach neither the
    handler nor the tab. *)
Lemma app_run_quiet (w : World) (sel : MapAOISelector.Store) (stamp : nat)
  (between : list MapAOISelector.Event) (rest : list App.Event) :
  activeTab (store w) = "aoi" ->
  forallb Drawing.quiet between = true ->
  exists sel',
    App.run {| App.world := w; App.selector := Some sel;
               App.lastStamp := stamp |}
      (List.map App.Selector between ++ rest)
    = App.run {| App.world := w; App.selector := Some sel';
                 App.lastStamp := stamp |} rest
    /\ MapAOISelector.isDrawingRef sel' = MapAOISelector.isDrawingRef sel
    /\ MapAOISelector.startPointRef sel' = MapAOISelector.startPointRef sel
    /\ MapAOISelector.areaKm2 sel' = MapAOISelector.areaKm2 sel
    /\ (MapAOISelector.invariant sel -> MapAOISelector.invariant sel').
Proof.
  intros Htab. revert sel.
  induction between as [| e between IH]; intros sel Hquiet.
  - exists sel.
    split; [reflexivity |]. split; [reflexivity |]. split; [reflexivity |].
    split; [reflexivity | intros Hinv; exact Hinv].
  - cbn [forallb] in Hquiet. apply andb_true_iff in Hquiet as [He Hrest].
    destruct (quiet_frame e sel He) as (H5 & H1 & H2 & H3).
    destruct (IH (fst (MapAOISelector.step sel e)) Hrest)
      as (sel' & Hrun & G1 & G2 & G3 & G4).
    exists sel'.
    split; [| split; [congruence | split; [congruence | split;
      [congruence |
       intros Hinv; apply G4; apply (invariant_step_store sel e Hinv)]]]].
    rewrite <- Hrun. rewrite map_cons, <- app_comm_cons, app_run_cons.
    rewrite app_step_selector.
    rewrite H5, deliver_nil, (reconcile_on w _ stamp Htab). reflexivity.
Qed.

(** X16.  A complete draw of a rectangle that is not degenerate, on the AOI
    tab (pointer down, then pointer moves and re-runs of the mount effect,
    then pointer up): one request is sent, for the bounds spanned by the
    two corners; the state is [Loading], the Imagery tab is shown and the
    selector is unmounted. *)
Theorem draw_sends_one_request (a : App.State) (p q : LatLng)
  (between : list MapAOISelector.Event) :
  App.reachable a ->
  App.selector a <> None ->
  forallb Drawing.quiet between = true ->
  MapAOISelector.degenerate (latLngBounds p q) = false ->
  (requests
     (log (App.world
             (App.run a
                (List.map App.Selector
                   (MapAOISelector.mousedown p
                    :: between ++ [MapAOISelector.mouseup q])))))
   = requests (log (App.world a))
     ++ [analysisRequest (MapAOISelector.selection (latLngBounds p q))])%list
  /\ store (App.world
              (App.run a
                 (List.map App.Selector
                    (MapAOISelector.mousedown p
                     :: between ++ [MapAOISelector.mouseup q]))))
     = {| activeTab := "imagery"; isLoading := true;
          analysisResult := JNull; error := None |}
  /\ App.selector
       (App.run a
          (List.map App.Selector
             (MapAOISelector.mousedown p
              :: between ++ [MapAOISelector.mouseup q])))
     = None.
Proof.
  intros Ha Hsel Hquiet Hdeg.
  destruct (app_reachable_invariant a Ha) as (_ & Hinv & _).
  destruct a as [w [sel |] stamp]; [| contradiction].
  cbn [App.selector App.world] in *.
  destruct (Hinv sel eq_refl) as [Htab _].
  destruct (startDrawing_fields p sel) as (Hout1 & Hd1 & Hs1 & _).
  rewrite map_cons, app_run_cons, app_step_selector.
  change (MapAOISelector.step sel (MapAOISelector.mousedown p))
    with (MapAOISelector.startDrawing p sel).
  rewrite Hout1, deliver_one.
  set (sel1 := fst (MapAOISelector.startDrawing p sel)) in *.
  set (w1 := step w (AOISelected None)).
  assert (Htab1 : activeTab (store w1) = "aoi")
    by (unfold w1; rewrite step_AOISelected_null; exact Htab).
  rewrite (reconcile_on w1 sel1 stamp Htab1), map_app.
  destruct (app_run_quiet w1 sel1 stamp between
              (List.map App.Selector [MapAOISelector.mouseup q]) Htab1 Hquiet)
    as (sel2 & Hrun & G1 & G2 & _).
  rewrite Hrun.
  change (List.map App.Selector [MapAOISelector.mouseup q])
    with [App.Selector (MapAOISelector.mouseup q)].
  rewrite app_run_cons, app_run_nil, app_step_selector.
  change (MapAOISelector.step sel2 (MapAOISelector.mouseup q))
    with (MapAOISelector.finishDrawing q sel2).
  assert (Hd : MapAOISelector.isDrawingRef sel2 = true) by congruence.
  assert (Hstart : MapAOISelector.startPointRef sel2 = Some p) by congruence.
  destruct (finishDrawing_result p q sel2 Hd Hstart) as [_ Hout].
  rewrite Hdeg in Hout. rewrite Hout, deliver_one.
  rewrite reconcile_off
    by (rewrite step_AOISelected_bounds; simpl; discriminate).
  cbn [App.world App.selector].
  rewrite step_AOISelected_bounds. cbn [log store].
  unfold w1. rewrite step_AOISelected_null. cbn [log].
  rewrite !requests_app; simpl. rewrite !app_nil_r.
  repeat split; reflexivity.
Qed.

Lemma draw_sends_one_request_witness :
  App.reachable App.initialState
  /\ App.selector App.initialState <> None
  /\ forallb Drawing.quiet
       [MapAOISelector.mousemove DrawScenario.northEast1;
        MapAOISelector.callbackChanged] = true
  /\ MapAOISelector.degenerate
       (latLngBounds DrawScenario.southWest1 DrawScenario.northEast1) = false
  /\ App.selector
       (App.run App.initialState
          (List.map App.Selector
             (MapAOISelector.mousedown DrawScenario.southWest1
              :: [MapAOISelector.mousemove DrawScenario.northEast1;
                  MapAOISelector.callbackChanged]
                 ++ [MapAOISelector.mouseup DrawScenario.northEast1])))
     = None.
Proof.
  assert (Hsel : App.selector App.initialState <> None)
    by (simpl; discriminate).
  split; [exact App.reachable_init |]. split; [exact Hsel |].
  split; [reflexivity |].
  split; [exact scenario1_not_degenerate |].
  apply (draw_sends_one_request App.initialState DrawScenario.southWest1
           DrawScenario.northEast1
           [MapAOISelector.mousemove DrawScenario.northEast1;
            MapAOISelector.callbackChanged]
           App.reachable_init Hsel eq_refl scenario1_not_degenerate).
Defined.

(** X17.  A click on the map without a drag (or a drag that ends on the
    latitude or the longitude of its start), on the AOI tab: no request is
    sent, but the result and the error of the previous analysis are
    cleared; the AOI tab stays, the selector is idle with no rectangle. *)
Theorem click_without_drag_clears_result (a : App.State) (p q : LatLng)
  (between : list MapAOISelector.Event) :
  App.reachable a ->
  App.selector a <> None ->
  forallb Drawing.quiet between = true ->
  MapAOISelector.degenerate (latLngBounds p q) = true ->
  requests
    (log (App.world
            (App.run a
               (List.map App.Selector
                  (MapAOISelector.mousedown p
                   :: between ++ [MapAOISelector.mouseup q])))))
  = requests (log (App.world a))
  /\ store (App.world
              (App.run a
                 (List.map App.Selector
                    (MapAOISelector.mousedown p
                     :: between ++ [MapAOISelector.mouseup q]))))
     = {| activeTab := "aoi"; isLoading := isLoading (store (App.world a));
          analysisResult := JNull; error := None |}
  /\ exists sel',
       App.selector
         (App.run a
            (List.map App.Selector
               (MapAOISelector.mousedown p
                :: between ++ [MapAOISelector.mouseup q])))
       = Some sel'
       /\ MapAOISelector.drawState sel' = MapAOISelector.Idle
       /\ MapAOISelector.overlays (MapAOISelector.mapRef sel') = [].
Proof.
  intros Ha Hsel Hquiet Hdeg.
  destruct (app_reachable_invariant a Ha) as (_ & Hinv & _).
  destruct a as [w [sel |] stamp]; [| contradiction].
  cbn [App.selector App.world] in *.
  destruct (Hinv sel eq_refl) as [Htab Hselinv].
  destruct (startDrawing_fields p sel) as (Hout1 & Hd1 & Hs1 & Ha1).
  pose proof (invariant_step_store sel (MapAOISelector.mousedown p) Hselinv)
    as Hinv1.
  change (MapAOISelector.step sel (MapAOISelector.mousedown p))
    with (MapAOISelector.startDrawing p sel) in Hinv1.
  rewrite map_cons, app_run_cons, app_step_selector.
  change (MapAOISelector.step sel (MapAOISelector.mousedown p))
    with (MapAOISelector.startDrawing p sel).
  rewrite Hout1, deliver_one.
  set (sel1 := fst (MapAOISelector.startDrawing p sel)) in *.
  set (w1 := step w (AOISelected None)).
  assert (Htab1 : activeTab (store w1) = "aoi")
    by (unfold w1; rewrite step_AOISelected_null; exact Htab).
  rewrite (reconcile_on w1 sel1 stamp Htab1), map_app.
  destruct (app_run_quiet w1 sel1 stamp between
              (List.map App.Selector [MapAOISelector.mouseup q]) Htab1 Hquiet)
    as (sel2 & Hrun & G1 & G2 & G3 & G4).
  rewrite Hrun.
  change (List.map App.Selector [MapAOISelector.mouseup q])
    with [App.Selector (MapAOISelector.mouseup q)].
  rewrite app_run_cons, app_run_nil, app_step_selector.
  change (MapAOISelector.step sel2 (MapAOISelector.mouseup q))
    with (MapAOISelector.finishDrawing q sel2).
  assert (Hd : MapAOISelector.isDrawingRef sel2 = true) by congruence.
  assert (Hstart : MapAOISelector.startPointRef sel2 = Some p) by congruence.
  destruct (finishDrawing_discard_spec p q sel2 (G4 Hinv1) Hd Hstart Hdeg)
    as (Hout & Hov & _ & Hd3 & _ & Ha3 & _).
  rewrite Hout, deliver_nil, (reconcile_on w1 _ stamp Htab1).
  cbn [App.world App.selector].
  unfold w1. rewrite step_AOISelected_null. cbn [log store].
  rewrite requests_app; simpl. rewrite app_nil_r, Htab.
  split; [reflexivity |]. split; [reflexivity |].
  eexists. split; [reflexivity |]. split; [| exact Hov].
  unfold MapAOISelector.drawState. rewrite Hd3, Ha3, G3, Ha1. reflexivity.
Qed.

Lemma click_without_drag_clears_result_witness :
  App.reachable App.initialState
  /\ App.selector App.initialState <> None
  /\ forallb Drawing.quiet [] = true
  /\ MapAOISelector.degenerate
       (latLngBounds DrawScenario.southWest1 DrawScenario.southWest1) = true
  /\ requests
       (log (App.world
               (App.run App.initialState
                  (List.map App.Selector
                     (MapAOISelector.mousedown DrawScenario.southWest1
                      :: [] ++ [MapAOISelector.mouseup
                                  DrawScenario.southWest1])))))
     = [].
Proof.
  assert (Hsel : App.selector App.initialState <> None)
    by (simpl; discriminate).
  assert (Hdeg : MapAOISelector.degenerate
                   (latLngBounds DrawScenario.southWest1
                      DrawScenario.southWest1) = true)
    by (apply degenerate_iff; left; reflexivity).
  split; [exact App.reachable_init |]. split; [exact Hsel |].
  split; [reflexivity |]. split; [exact Hdeg |].
  apply (click_without_drag_clears_result App.initialState
           DrawScenario.southWest1 DrawScenario.southWest1 []
           App.reachable_init Hsel eq_refl Hdeg).
Defined.

End Composition.

(** ** The drawing controller: committing *)

Section Committing.

Import MapAOISelector.
Local Open Scope R_scope.

(** X18.  A draw that ends where the pointer last moved, on a rectangle
    that is not degenerate.  The bounds are emitted, an area is displayed,
    the controller is in its drawn state and the map can be dragged again.
    Provided the rectangle that [rectLayerRef] holds is on the map, or the
    ref holds none yet, the preview stays on the map as the only drawn
    rectangle, with the bounds emitted; otherwise (the ref is set but the
    map was built anew since) the commit leaves the map without a drawn
    rectangle. *)
Theorem commit_keeps_preview (s : Store) (start q : LatLng) :
  reachable s ->
  drawState s = Drawing start ->
  degenerate (latLngBounds start q) = false ->
  snd (run s [mousemove q; mouseup q])
  = [Some (selection (latLngBounds start q))]
  /\ (exists a, areaKm2 (fst (run s [mousemove q; mouseup q])) = Some a
                /\ drawState (fst (run s [mousemove q; mouseup q])) = Drawn a)
  /\ dragging (mapRef (fst (run s [mousemove q; mouseup q]))) = true
  /\ (rectLayerRef s = None \/ overlays (mapRef s) <> [] ->
      exists id,
        overlays (mapRef (fst (run s [mousemove q; mouseup q]))) = [id]
        /\ In (id, Rectangle (latLngBounds start q) drawColor)
             (layers (mapRef (fst (run s [mousemove q; mouseup q])))))
  /\ (rectLayerRef s <> None -> overlays (mapRef s) = [] ->
      overlays (mapRef (fst (run s [mousemove q; mouseup q]))) = []).
Proof.
  intros Hs Hdraw Hdeg. apply reachable_invariant_store in Hs.
  apply drawState_Drawing in Hdraw as [Hd Hstart].
  assert (Hpreview :
            rectLayerRef s = None \/ overlays (mapRef s) <> [] ->
            exists id,
              overlays (mapRef (fst (updateDrawing q s))) = [id]
              /\ In (id, Rectangle (latLngBounds start q) drawColor)
                    (layers (mapRef (fst (updateDrawing q s))))).
  { intros Hshown.
    destruct (updateDrawing_preview s start q Hs Hd Hstart Hshown)
      as (id & _ & Hov & Hin).
    exists id. split; assumption. }
  assert (Hlost :
            rectLayerRef s <> None -> overlays (mapRef s) = [] ->
            overlays (mapRef (fst (updateDrawing q s))) = []).
  { intros Href Hnone. unfold updateDrawing. rewrite Hd, Hstart.
    destruct (rectLayerRef s) as [id |]; [| congruence].
    simpl. rewrite overlays_setBounds. exact Hnone. }
  destruct (updateDrawing_frame q s) as (H1 & H2 & _).
  cbn [run]. change (step s (mousemove q)) with (updateDrawing q s).
  destruct (updateDrawing q s) as [s1 out1] eqn:Hupd; simpl in *.
  change (step s1 (mouseup q)) with (finishDrawing q s1).
  rewrite (finishDrawing_commit start q s1) by congruence.
  pose proof (updateDrawing_frame q s) as (_ & _ & _ & _ & Hout1).
  rewrite Hupd in Hout1; simpl in Hout1. subst out1.
  simpl. split; [reflexivity |].
  split; [eexists; split; [reflexivity | unfold drawState; reflexivity] |].
  split; [reflexivity |].
  split; assumption.
Qed.

Lemma commit_keeps_preview_witness :
  reachable DrawScenario.drawingStore
  /\ drawState DrawScenario.drawingStore = Drawing DrawScenario.southWest1
  /\ degenerate (latLngBounds DrawScenario.southWest1
                   DrawScenario.northEast1) = false
  /\ overlays (mapRef DrawScenario.drawingStore) <> []
  /\ exists id,
       overlays (mapRef (fst (run DrawScenario.drawingStore
                                [mousemove DrawScenario.northEast1;
                                 mouseup DrawScenario.northEast1]))) = [id].
Proof.
  assert (Hov : overlays (mapRef DrawScenario.drawingStore) <> [])
    by (simpl; discriminate).
  split; [exact reachable_drawingStore |].
  split; [exact drawState_drawingStore |].
  split; [exact scenario1_not_degenerate |]. split; [exact Hov |].
  destruct (commit_keeps_preview DrawScenario.drawingStore
              DrawScenario.southWest1 DrawScenario.northEast1
              reachable_drawingStore drawState_drawingStore
              scenario1_not_degenerate)
    as (_ & _ & _ & Hshown & _).
  destruct (Hshown (or_intror Hov)) as (id & H1 & _).
  exists id. exact H1.
Defined.

(** X19.  Between two events, whenever no draw is in progress the map can
    be dragged, whichever way the last draw ended; and while a draw is in
    progress there is a start point and no area is displayed. *)
Theorem dragging_released_outside_draws (s : Store) :
  reachable s ->
  (isDrawingRef s = false -> dragging (mapRef s) = true)
  /\ (isDrawingRef s = true ->
      (exists start, drawState s = Drawing start) /\ areaKm2 s = None).
Proof.
  intros Hs. destruct (reachable_invariant_store s Hs) as (_ & Hdraw & Hidle).
  split; [exact Hidle |].
  intros Hd. destruct (Hdraw Hd) as [Hstart Harea].
  split; [| exact Harea].
  destruct (startPointRef s) as [start |] eqn:Hsome; [| congruence].
  exists start. apply drawState_Drawing. split; assumption.
Qed.

Lemma dragging_released_outside_draws_witness :
  reachable DrawScenario.drawnStore
  /\ (isDrawingRef DrawScenario.drawnStore = false ->
      dragging (mapRef DrawScenario.drawnStore) = true).
Proof.
  split; [exact reachable_drawnStore |].
  apply (dragging_released_outside_draws DrawScenario.drawnStore
           reachable_drawnStore).
Defined.

End Committing.
